(** * musicio-ultra: the real-time karaoke mixing core

    A shallow embedding of the karaoke engine of the repository:

    - [gui/vu_meter.py]: the level meter ([VUMeter]);
    - [gui/karaoke_player.py]: the transport widget ([KaraokePlayer]),
      its effect parameters and its seek / play-pause operations;
    - [gui/desktop_app_ultra.py]: [karaoke_record_mix], the nested
      [start_karaoke], [rebuild_fx_board], [on_seek] and [audio_callback].

    Numbers.  Python [float] values (samples, levels, knobs, clock
    readings) are idealised as the real numbers [R]; Python [int] values
    (frame indices, lengths, block sizes) are [Z].  NaN and infinities are
    outside the model.

    Effects.  Objects are records and every method takes the record and
    returns the updated one.  The clock ([time.time()]) is an explicit
    argument.  Code of other libraries (the pedalboard DSP stages, the
    sound-file decoder, the resampler, the audio stream) enters as
    Section variables; a call that can raise returns a [result]. *)

From Stdlib Require Import Reals Lra ZArith Lia Bool String Ascii List.
From Stdlib Require Import Zfloor.
From Stdlib Require DecimalString DecimalZ DecimalNat.
Import ListNotations.

Open Scope R_scope.

(** ** Python builtins used by the code *)

(** [max(a, b)]: the first argument unless the second is strictly greater. *)
Definition py_max (a b : R) : R := if Rlt_dec a b then b else a.

(** [min(a, b)]: the first argument unless the second is strictly smaller. *)
Definition py_min (a b : R) : R := if Rlt_dec b a then b else a.

(** [np.log10]. *)
Definition log10 (x : R) : R := ln x / ln 10.

(** The standard dB-to-linear conversion [10 ** (db / 20)]. *)
Definition db_to_amplitude (db : R) : R := Rpower 10 (db / 20).

(** ** gui/vu_meter.py *)

Module VUMeter.

(** The fields of [VUMeter] that the level operations read or write.
    [last_peak_time] is the dict with keys "L" and "R". *)
Record t : Type := mk {
  left_level : R;
  right_level : R;
  left_peak : R;
  right_peak : R;
  peak_hold_time : R;
  last_peak_time_L : R;
  last_peak_time_R : R
}.

(** [__init__]. *)
Definition init : t :=
  {| left_level := -60; right_level := -60;
     left_peak := -60; right_peak := -60;
     peak_hold_time := 1.5;
     last_peak_time_L := 0; last_peak_time_R := 0 |}.

(** [amplitude_to_db]. *)
Definition amplitude_to_db (amplitude : R) : R :=
  if Rle_dec amplitude 0 then -60
  else
    let db := 20 * log10 amplitude in
    py_max (-60) (py_min 0 db).

(** [set_levels]; [current_time] is the reading of [time.time()]. *)
Definition set_levels (current_time : R) (left_db right_db : R) (self : t) : t :=
  (* Clamp values *)
  let left_db := py_max (-60) (py_min 0 left_db) in
  let right_db := py_max (-60) (py_min 0 right_db) in
  (* Update peak hold *)
  let '(lpeak, ltime) :=
    if Rlt_dec (left_peak self) left_db then (left_db, current_time)
    else (left_peak self, last_peak_time_L self) in
  let '(rpeak, rtime) :=
    if Rlt_dec (right_peak self) right_db then (right_db, current_time)
    else (right_peak self, last_peak_time_R self) in
  (* Decay peak hold after hold time *)
  let lpeak :=
    if Rlt_dec (peak_hold_time self) (current_time - ltime)
    then py_max (lpeak - 0.5) (-60) else lpeak in
  let rpeak :=
    if Rlt_dec (peak_hold_time self) (current_time - rtime)
    then py_max (rpeak - 0.5) (-60) else rpeak in
  {| left_level := left_db; right_level := right_db;
     left_peak := lpeak; right_peak := rpeak;
     peak_hold_time := peak_hold_time self;
     last_peak_time_L := ltime; last_peak_time_R := rtime |}.

(** [set_levels_from_amplitude]. *)
Definition set_levels_from_amplitude (current_time : R) (left_amp right_amp : R)
    (self : t) : t :=
  let left_db := amplitude_to_db left_amp in
  let right_db := amplitude_to_db right_amp in
  set_levels current_time left_db right_db self.

(** [reset]: levels and peaks only; the peak times are left as they are. *)
Definition reset (self : t) : t :=
  {| left_level := -60; right_level := -60;
     left_peak := -60; right_peak := -60;
     peak_hold_time := peak_hold_time self;
     last_peak_time_L := last_peak_time_L self;
     last_peak_time_R := last_peak_time_R self |}.

(** The operations a client can perform on a meter, with their arguments. *)
Inductive op : Type :=
  | SetLevels (current_time left_db right_db : R)
  | SetLevelsFromAmplitude (current_time left_amp right_amp : R)
  | Reset.

Definition step (self : t) (o : op) : t :=
  match o with
  | SetLevels now l r => set_levels now l r self
  | SetLevelsFromAmplitude now l r => set_levels_from_amplitude now l r self
  | Reset => reset self
  end.

(** A sequence of operations, first to last. *)
Definition run (ops : list op) (self : t) : t := fold_left step ops self.

(** A displayed value is on the meter's scale. *)
Definition on_scale (x : R) : Prop := -60 <= x <= 0.

Definition levels_on_scale (self : t) : Prop :=
  on_scale (left_level self) /\ on_scale (right_level self) /\
  on_scale (left_peak self) /\ on_scale (right_peak self).

End VUMeter.


(** ** Exceptions *)

(** The exceptions that matter to the engine: numpy's shape mismatch, and
    whatever a collaborating library raises (named by its message). *)
Inductive exn : Type :=
  | ValueError
  | LibraryError (msg : string).

Inductive result (A : Type) : Type :=
  | Ok (a : A)
  | Raise (e : exn).

Arguments Ok {A} a.
Arguments Raise {A} e.

(** ** Audio blocks and the numpy operations of the callback *)

(** One stereo frame, and a block of shape [(n, 2)]. *)
Definition frame : Type := (R * R)%type.
Definition block : Type := list frame.

Definition py_len {A : Type} (l : list A) : Z := Z.of_nat (length l).

(** Python's normalisation of a slice bound against a length [n]. *)
Definition slice_index (n i : Z) : Z :=
  if (i <? 0)%Z then Z.max 0 (i + n) else Z.min i n.

(** [l[start:stop]]. *)
Definition py_slice {A : Type} (l : list A) (start stop : Z) : list A :=
  let n := py_len l in
  let s := slice_index n start in
  let e := slice_index n stop in
  firstn (Z.to_nat (e - s)) (skipn (Z.to_nat s) l).

Definition frame_add (a b : frame) : frame := (fst a + fst b, snd a + snd b).
Definition frame_scale (v : R) (a : frame) : frame := (fst a * v, snd a * v).
Definition silence : frame := (0, 0).

(** Element-wise sum of two lists of equal length. *)
Fixpoint zip_add (a b : block) : block :=
  match a, b with
  | x :: a', y :: b' => frame_add x y :: zip_add a' b'
  | _, _ => []
  end.

(** [a + b] on arrays of shapes [(n, 2)] and [(m, 2)], with numpy's
    broadcasting of a length-one axis and its error otherwise. *)
Definition np_add (a b : block) : result block :=
  if Nat.eqb (length a) (length b) then Ok (zip_add a b)
  else if Nat.eqb (length a) 1 then Ok (map (frame_add (hd silence a)) b)
  else if Nat.eqb (length b) 1 then Ok (map (fun x => frame_add x (hd silence b)) a)
  else Raise ValueError.

(** [x * v] for a scalar [v]. *)
Definition np_scale (v : R) (x : block) : block := map (frame_scale v) x.

(** [np.clip(x, lo, hi)] on one sample: [minimum(maximum(x, lo), hi)]. *)
Definition clip_sample (lo hi x : R) : R := Rmin (Rmax x lo) hi.

Definition np_clip (lo hi : R) (x : block) : block :=
  map (fun f => (clip_sample lo hi (fst f), clip_sample lo hi (snd f))) x.

(** [np.pad(chunk, ((0, k), (0, 0)))]: [k] frames of zeros at the end. *)
Definition np_pad_end (chunk : block) (k : Z) : block :=
  chunk ++ repeat silence (Z.to_nat k).

(** [np.stack([indata[:, 0], indata[:, 0]], axis=-1)]: the mono input
    column copied to both channels. *)
Definition mono_to_stereo (indata : list R) : block :=
  map (fun x => (x, x)) indata.

(** [np.sqrt(np.mean(indata**2))]. *)
Definition np_rms (indata : list R) : R :=
  sqrt (fold_right Rplus 0 (map (fun x => x * x) indata) / INR (length indata)).

(** [outdata[:] = x] for an output buffer of shape [(frames, 2)]: the
    buffer's new content, or numpy's error when [x] cannot be broadcast. *)
Definition assign_outdata (frames : Z) (x : block) : result block :=
  if (py_len x =? frames)%Z then Ok x
  else if Nat.eqb (length x) 1 then Ok (repeat (hd silence x) (Z.to_nat frames))
  else Raise ValueError.

(** Every sample of a block is within [[-1, 1]]. *)
Definition sample_in_range (x : R) : Prop := -1 <= x <= 1.

Definition block_in_range (b : block) : Prop :=
  Forall (fun f => sample_in_range (fst f) /\ sample_in_range (snd f)) b.

(** ** Effect parameters and the effects chain *)

(** The keys of the [fx_params] dict of [KaraokePlayer]. *)
Inductive fx_key : Type :=
  | reverb_room_size | reverb_wet
  | echo_delay | echo_feedback | echo_mix
  | compressor_threshold | compressor_ratio
  | eq_bass | eq_mid | eq_treble.

Definition fx_key_eqb (a b : fx_key) : bool :=
  match a, b with
  | reverb_room_size, reverb_room_size | reverb_wet, reverb_wet
  | echo_delay, echo_delay | echo_feedback, echo_feedback
  | echo_mix, echo_mix
  | compressor_threshold, compressor_threshold
  | compressor_ratio, compressor_ratio
  | eq_bass, eq_bass | eq_mid, eq_mid | eq_treble, eq_treble => true
  | _, _ => false
  end.

(** The dict itself: every key is present from [__init__] on and no key
    is ever added or removed, so it is a total map on [fx_key]. *)
Definition fx_dict : Type := fx_key -> R.

(** [p[key] = value]. *)
Definition dict_set (p : fx_dict) (key : fx_key) (value : R) : fx_dict :=
  fun k => if fx_key_eqb key k then value else p k.

(** The initial content of [self.fx_params]. *)
Definition default_fx_params : fx_dict :=
  fun k =>
    match k with
    | reverb_room_size => 0.6
    | reverb_wet => 0.25
    | echo_delay => 0.3
    | echo_feedback => 0.3
    | echo_mix => 0.0
    | compressor_threshold => -18
    | compressor_ratio => 3.5
    | eq_bass => 2.0
    | eq_mid => 3.0
    | eq_treble => 1.5
    end.

(** The [from_] and [to] of the slider that [create_ui] declares for a
    key: the declared range of the parameter. *)
Definition slider_range (k : fx_key) : R * R :=
  match k with
  | reverb_room_size => (0.0, 1.0)
  | reverb_wet => (0.0, 1.0)
  | echo_delay => (0.1, 1.0)
  | echo_feedback => (0.0, 0.9)
  | echo_mix => (0.0, 1.0)
  | compressor_threshold => (-40, 0)
  | compressor_ratio => (1.0, 20.0)
  | eq_bass => (-20, 20)
  | eq_mid => (-20, 20)
  | eq_treble => (-20, 20)
  end.

Definition in_declared_range (k : fx_key) (v : R) : Prop :=
  fst (slider_range k) <= v <= snd (slider_range k).

(** The pedalboard plugins the chain is built from, with the keyword
    arguments the code passes. *)
Inductive stage : Type :=
  | Compressor (threshold_db ratio attack_ms release_ms : R)
  | PeakFilter (cutoff_frequency_hz gain_db q : R)
  | Delay (delay_seconds feedback mix : R)
  | Reverb (room_size damping wet_level dry_level width : R).

(** [Pedalboard(effects)]. *)
Definition pedalboard : Type := list stage.

(** [rebuild_fx_board], reading the player's parameters [p]. *)
Definition rebuild_fx_board (p : fx_dict) : pedalboard :=
  let effects :=
    [ Compressor (p compressor_threshold) (p compressor_ratio) 3.0 100.0;
      PeakFilter 100 (p eq_bass) 0.7;
      PeakFilter 3000 (p eq_mid) 1.0;
      PeakFilter 10000 (p eq_treble) 0.7 ] in
  (* Add Echo/Delay if mix > 0 *)
  let effects :=
    if Rgt_dec (p echo_mix) 0.01
    then effects ++ [ Delay (p echo_delay) (p echo_feedback) (p echo_mix) ]
    else effects in
  (* Add Reverb *)
  effects ++
    [ Reverb (p reverb_room_size) 0.5 (p reverb_wet) (1.0 - p reverb_wet) 1.0 ].

(** The chain as the specification describes it: the roles of the stages,
    in order. *)
Inductive eq_band : Type := Bass | Mid | Treble.

Inductive stage_role : Type :=
  | RoleCompressor
  | RoleEQ (band : eq_band)
  | RoleEcho
  | RoleReverb.

Definition spec_stage_order (p : fx_dict) : list stage_role :=
  [RoleCompressor; RoleEQ Bass; RoleEQ Mid; RoleEQ Treble]
  ++ (if Rle_dec (p echo_mix) 0.01 then [] else [RoleEcho])
  ++ [RoleReverb].

(** A stage plays a role when it is the plugin of that role, fed with the
    knobs of that role. *)
Definition plays_role (p : fx_dict) (r : stage_role) (s : stage) : Prop :=
  match r, s with
  | RoleCompressor, Compressor th ra _ _ =>
      th = p compressor_threshold /\ ra = p compressor_ratio
  | RoleEQ Bass, PeakFilter f g _ => f = 100 /\ g = p eq_bass
  | RoleEQ Mid, PeakFilter f g _ => f = 3000 /\ g = p eq_mid
  | RoleEQ Treble, PeakFilter f g _ => f = 10000 /\ g = p eq_treble
  | RoleEcho, Delay d fb m =>
      d = p echo_delay /\ fb = p echo_feedback /\ m = p echo_mix
  | RoleReverb, Reverb rs _ wet dry _ =>
      rs = p reverb_room_size /\ wet = p reverb_wet /\ dry = 1 - p reverb_wet
  | _, _ => False
  end.

(** ** Decoded audio *)

(** What [sf.read] returns for a one- or two-channel file: an array of
    shape [(n,)] or [(n, 2)]. *)
Inductive audio : Type :=
  | Mono (samples : list R)
  | Stereo (frames : block).

(** [len(backing_audio)]. *)
Definition audio_len (a : audio) : Z :=
  match a with
  | Mono l => py_len l
  | Stereo b => py_len b
  end.

(** The stereo conversion of [start_karaoke]:
    [np.stack([backing_audio, backing_audio], axis=-1)] for a
    one-dimensional array, the array itself otherwise. *)
Definition to_stereo (a : audio) : block :=
  match a with
  | Mono l => map (fun x => (x, x)) l
  | Stereo b => b
  end.

(** ** The closure state of [start_karaoke] *)

(** The variables of [start_karaoke] that its nested functions assign:
    [frame_idx[0]] and [fx_board]. *)
Record engine : Type := mk_engine {
  frame_idx : Z;
  fx_board : pedalboard
}.

(** [on_seek]. *)
Definition on_seek (position_samples : Z) (e : engine) : engine :=
  {| frame_idx := position_samples; fx_board := fx_board e |}.

(** [on_fx_change]: [params] is the player's [fx_params] dict, the one
    [rebuild_fx_board] reads. *)
Definition on_fx_change (params : fx_dict) (e : engine) : engine :=
  {| frame_idx := frame_idx e; fx_board := rebuild_fx_board params |}.

(** ** gui/karaoke_player.py *)

Module KaraokePlayer.

(** The fields of [KaraokePlayer] behind its transport and effect
    operations.  A callback attribute is [None] or a function of the
    application; the ones the application installs act on its [engine]. *)
Record t : Type := mk {
  backing_audio : audio;
  sample_rate : Z;
  current_position : Z;
  is_playing : bool;
  fx_params : fx_dict;
  on_seek_callback : option (Z -> engine -> engine);
  on_play_pause_callback : option (bool -> engine -> engine);
  on_fx_change_callback : option (fx_dict -> engine -> engine)
}.

(** [__init__]. *)
Definition init (backing : audio) (sr : Z) : t :=
  {| backing_audio := backing;
     sample_rate := sr;
     current_position := 0%Z;
     is_playing := false;
     fx_params := default_fx_params;
     on_seek_callback := None;
     on_play_pause_callback := None;
     on_fx_change_callback := None |}.

Definition with_current_position (pos : Z) (self : t) : t :=
  {| backing_audio := backing_audio self;
     sample_rate := sample_rate self;
     current_position := pos;
     is_playing := is_playing self;
     fx_params := fx_params self;
     on_seek_callback := on_seek_callback self;
     on_play_pause_callback := on_play_pause_callback self;
     on_fx_change_callback := on_fx_change_callback self |}.

Definition with_is_playing (b : bool) (self : t) : t :=
  {| backing_audio := backing_audio self;
     sample_rate := sample_rate self;
     current_position := current_position self;
     is_playing := b;
     fx_params := fx_params self;
     on_seek_callback := on_seek_callback self;
     on_play_pause_callback := on_play_pause_callback self;
     on_fx_change_callback := on_fx_change_callback self |}.

Definition with_fx_params (p : fx_dict) (self : t) : t :=
  {| backing_audio := backing_audio self;
     sample_rate := sample_rate self;
     current_position := current_position self;
     is_playing := is_playing self;
     fx_params := p;
     on_seek_callback := on_seek_callback self;
     on_play_pause_callback := on_play_pause_callback self;
     on_fx_change_callback := on_fx_change_callback self |}.

(** Calling a callback attribute when it is set: [if cb: cb(arg)]. *)
Definition notify {A : Type} (cb : option (A -> engine -> engine)) (arg : A)
    (e : engine) : engine :=
  match cb with
  | Some f => f arg e
  | None => e
  end.

(** [seek_to].  The closing [update_display()] only redraws. *)
Definition seek_to (position_samples : Z) (self : t) (e : engine) : t * engine :=
  let pos :=
    Z.max 0 (Z.min position_samples (audio_len (backing_audio self) - 1)) in
  let self := with_current_position pos self in
  (* Callback to audio engine *)
  (self, notify (on_seek_callback self) (current_position self) e).

(** [skip_backward]: five seconds back. *)
Definition skip_backward (self : t) (e : engine) : t * engine :=
  let skip_samples := (5 * sample_rate self)%Z in
  seek_to (current_position self - skip_samples) self e.

(** [skip_forward]: five seconds on. *)
Definition skip_forward (self : t) (e : engine) : t * engine :=
  let skip_samples := (5 * sample_rate self)%Z in
  seek_to (current_position self + skip_samples) self e.

(** [toggle_play_pause].  The button text is display only. *)
Definition toggle_play_pause (self : t) (e : engine) : t * engine :=
  let self := with_is_playing (negb (is_playing self)) self in
  (self, notify (on_play_pause_callback self) (is_playing self) e).

(** [update_position], called from the audio callback. *)
Definition update_position (position_samples : Z) (self : t) : t :=
  with_current_position position_samples self.

(** [on_slider_change] of the slider created for [key]: the command the
    slider runs with its new [value].  The label text is display only. *)
Definition on_slider_change (key : fx_key) (value : R) (self : t) (e : engine)
    : t * engine :=
  let self := with_fx_params (dict_set (fx_params self) key value) self in
  (* Notify parent app *)
  (self, notify (on_fx_change_callback self) (fx_params self) e).

End KaraokePlayer.

(** The clamping setter as the specification words it: a write outside
    the declared range is stored as a value inside it. *)
Definition slider_write_is_clamped : Prop :=
  forall (key : fx_key) (value : R) (pl : KaraokePlayer.t) (e : engine),
    ~ in_declared_range key value ->
    in_declared_range key
      (KaraokePlayer.fx_params
         (fst (KaraokePlayer.on_slider_change key value pl e)) key).

(** ** gui/desktop_app_ultra.py: the running session *)

(** Everything the audio callback and the transport read or write while a
    session runs: the player widget, the closure state, the application's
    meter and its volume variable. *)
Record session : Type := mk_session {
  player : KaraokePlayer.t;
  closure : engine;
  karaoke_vu_meter : VUMeter.t;
  karaoke_volume_var : R
}.

(** The wiring done by [start_karaoke] once the player exists: the first
    effects board, and the seek and effect callbacks.  The play/pause
    callback attribute is never assigned and stays [None]. *)
Definition wire_player (pl : KaraokePlayer.t) : KaraokePlayer.t :=
  {| KaraokePlayer.backing_audio := KaraokePlayer.backing_audio pl;
     KaraokePlayer.sample_rate := KaraokePlayer.sample_rate pl;
     KaraokePlayer.current_position := KaraokePlayer.current_position pl;
     KaraokePlayer.is_playing := KaraokePlayer.is_playing pl;
     KaraokePlayer.fx_params := KaraokePlayer.fx_params pl;
     KaraokePlayer.on_seek_callback := Some on_seek;
     KaraokePlayer.on_play_pause_callback :=
       KaraokePlayer.on_play_pause_callback pl;
     KaraokePlayer.on_fx_change_callback := Some on_fx_change |}.

Definition new_session (backing : audio) (sr : Z) (vu : VUMeter.t) (volume : R)
    : session :=
  let pl := KaraokePlayer.init backing sr in
  {| player := wire_player pl;
     closure :=
       {| frame_idx := 0%Z;
          fx_board := rebuild_fx_board (KaraokePlayer.fx_params pl) |};
     karaoke_vu_meter := vu;
     karaoke_volume_var := volume |}.

(** Transport and slider events of the user interface, on a session. *)
Definition lift_player (f : KaraokePlayer.t -> engine -> KaraokePlayer.t * engine)
    (s : session) : session :=
  let '(pl, e) := f (player s) (closure s) in
  {| player := pl; closure := e;
     karaoke_vu_meter := karaoke_vu_meter s;
     karaoke_volume_var := karaoke_volume_var s |}.

Definition seek (target : Z) : session -> session :=
  lift_player (KaraokePlayer.seek_to target).

Definition toggle_play_pause : session -> session :=
  lift_player KaraokePlayer.toggle_play_pause.

Definition move_slider (key : fx_key) (value : R) : session -> session :=
  lift_player (KaraokePlayer.on_slider_change key value).

(** The clamping of a seek as the specification words it: in every session
    that [start_karaoke] builds, whatever the track, a seek to any target
    frame stores a position in [[0, trackLength)]. *)
Definition seek_is_clamped_into_track : Prop :=
  forall (backing : audio) (sr : Z) (vu : VUMeter.t) (volume : R) (target : Z),
    let s' := seek target (new_session backing sr vu volume) in
    (0 <= KaraokePlayer.current_position (player s') < audio_len backing)%Z.

Section AudioCallback.

(** Calling the board, [fx_board(mic_transposed, sr)]: the DSP of the
    pedalboard library, which may raise.  Blocks are kept in
    [(samples, channels)] layout throughout, so the two transpositions
    around the call do not appear. *)
Variable apply_board : pedalboard -> block -> Z -> result block.

(** The backing track after the stereo conversion, and its sample rate. *)
Variable backing_audio : block.
Variable sr : Z.

(** The try block of the callback: the microphone block through the
    board, times the volume; the unprocessed block times the volume when
    the board raises. *)
Definition mic_with_effects (board : pedalboard) (volume : R) (mic_stereo : block)
    : block :=
  match apply_board board mic_stereo sr with
  | Ok mic_fx => np_scale volume mic_fx
  | Raise _ => np_scale volume mic_stereo
  end.

(** The backing-track block of one callback: the slice, zero-padded to
    [frames] when it is shorter. *)
Definition backing_block (start frames : Z) : block :=
  let end_ := Z.min (start + frames) (py_len backing_audio) in
  let backing_chunk := py_slice backing_audio start end_ in
  if (py_len backing_chunk <? frames)%Z
  then np_pad_end backing_chunk (frames - py_len backing_chunk)
  else backing_chunk.

(** [audio_callback(indata, outdata, frames, time, status)].  [indata] is
    the mono input column, [now] the clock reading the meter takes.  The
    result is the session afterwards and either the content written to
    [outdata] or the exception that leaves the callback. *)
Definition audio_callback (indata : list R) (frames : Z) (now : R) (s : session)
    : session * result block :=
  let volume := karaoke_volume_var s in
  let mic_level := np_rms indata in
  let left_amp := mic_level * volume in
  let right_amp := mic_level * volume in
  let vu :=
    VUMeter.set_levels_from_amplitude now left_amp right_amp
      (karaoke_vu_meter s) in
  let e := closure s in
  let pl := KaraokePlayer.update_position (frame_idx e) (player s) in
  let start := frame_idx e in
  let end_ := Z.min (start + frames) (py_len backing_audio) in
  if (start <? py_len backing_audio)%Z then
    let e := {| frame_idx := end_; fx_board := fx_board e |} in
    let s' :=
      {| player := pl; closure := e;
         karaoke_vu_meter := vu; karaoke_volume_var := volume |} in
    let backing_chunk := backing_block start frames in
    let mic_stereo := mono_to_stereo indata in
    let mic := mic_with_effects (fx_board e) volume mic_stereo in
    match np_add backing_chunk mic with
    | Ok mixed => (s', assign_outdata frames (np_clip (-1) 1 mixed))
    | Raise err => (s', Raise err)
    end
  else
    let s' :=
      {| player := pl; closure := e;
         karaoke_vu_meter := vu; karaoke_volume_var := volume |} in
    let mic_stereo := mono_to_stereo indata in
    let fallback := assign_outdata frames (np_scale volume mic_stereo) in
    match apply_board (fx_board e) mic_stereo sr with
    | Ok mic_fx =>
        match assign_outdata frames (np_scale volume mic_fx) with
        | Ok out => (s', Ok out)
        | Raise _ => (s', fallback)
        end
    | Raise _ => (s', fallback)
    end.

(** One block delivered by the audio device. *)
Record tick : Type := mk_tick {
  tick_indata : list R;
  tick_frames : Z;
  tick_now : R
}.

(** Successive invocations of the callback with nothing in between. *)
Definition run_callbacks (ticks : list tick) (s : session) : session :=
  fold_left
    (fun s t => fst (audio_callback (tick_indata t) (tick_frames t) (tick_now t) s))
    ticks s.

End AudioCallback.

(** ** Strings and paths *)

(** [str.lower()] on ASCII letters. *)
Definition lower_ascii (c : ascii) : ascii :=
  let n := nat_of_ascii c in
  if (Nat.leb 65 n && Nat.leb n 90)%bool then ascii_of_nat (n + 32) else c.

Fixpoint lower (s : string) : string :=
  match s with
  | EmptyString => EmptyString
  | String c s' => String (lower_ascii c) (lower s')
  end.

(** [sub in s]. *)
Definition contains (sub s : string) : bool :=
  match String.index 0 sub s with
  | Some _ => true
  | None => false
  end.

(** [Path(p).name]: what follows the last ["/"]. *)
Fixpoint path_name_from (acc : string) (p : string) : string :=
  match p with
  | EmptyString => acc
  | String c p' =>
      if Ascii.eqb c "/"%char then path_name_from EmptyString p'
      else path_name_from (acc ++ String c EmptyString)%string p'
  end.

Definition path_name (p : string) : string := path_name_from EmptyString p.

(** The truth value of an attribute that holds [None] or a string. *)
Definition truthy (v : option string) : bool :=
  match v with
  | Some (String _ _) => true
  | _ => false
  end.

(** ** gui/desktop_app_ultra.py: starting a session *)

(** A [try] step in the error monad. *)
Definition bind {A B : Type} (r : result A) (k : A -> result B) : result B :=
  match r with
  | Ok a => k a
  | Raise e => Raise e
  end.

Notation "x <- r ;; k" := (bind r (fun x => k))
  (at level 61, r at next level, right associativity).

Notation "' pat <- r ;; k" := (bind r (fun pat => k))
  (at level 61, pat pattern, r at next level, right associativity).

(** The attributes of the application that [karaoke_record_mix] reads. *)
Record app : Type := mk_app {
  karaoke_stream_active : bool;
  karaoke_backing_track : option string;
  karaoke_output_folder : option string;
  karaoke_mic_var : string;
  karaoke_speaker_var : string;
  app_vu_meter : VUMeter.t;
  app_volume_var : R
}.

(** The warnings [karaoke_record_mix] shows before it returns early. *)
Inductive warning : Type :=
  | NoBackingTrackInOutputFolder
  | NoOutputFolder
  | BackingTrackNotLoaded.

(** How a press of the record-and-mix button ends. *)
Inductive outcome : Type :=
  | StreamStopped
      (* a running stream was stopped *)
  | Rejected (w : warning)
      (* [messagebox.showwarning] and return: no thread started *)
  | Escaped (e : exn)
      (* an exception left [karaoke_record_mix] *)
  | StartFailed (e : exn)
      (* [start_karaoke] raised before it built the stream *)
  | StreamFailed (e : exn) (s : session)
      (* [sd.Stream] or its [start] raised *)
  | Running (s : session) (backing : block) (sr : Z).
      (* the duplex stream is open on the stereo track [backing] *)

(** The press got as far as building the duplex stream. *)
Definition reaches_stream_open (o : outcome) : bool :=
  match o with
  | StreamFailed _ _ | Running _ _ _ => true
  | _ => false
  end.

Section SessionStart.

(** The file system and the libraries behind the session start. *)
Variable path_exists : string -> result bool.
Variable glob_wav : string -> list string.
Variable sf_read : string -> result (audio * Z).
Variable librosa_resample : audio -> Z -> result audio.

(** The user-interface steps between decoding and wiring: the lyrics
    lookup and the construction and packing of the player widget. *)
Variable build_player_ui : audio -> Z -> result unit.

(** The device id read out of a device label: [None] for the default
    device, the bracketed number otherwise. *)
Variable parse_device_id : string -> result (option Z).

(** [sd.Stream(device=(mic_id, speaker_id), samplerate=sr, ...)] followed
    by [start()]. *)
Variable open_stream : option Z -> option Z -> Z -> result unit.

(** The first check of the stored path: a search is needed when the path
    is unset, names no file, or the check itself raises. *)
Definition needs_search (a : app) : bool :=
  if negb (truthy (karaoke_backing_track a)) then true
  else
    match karaoke_backing_track a with
    | Some p =>
        match path_exists p with
        | Ok b => negb b
        | Raise _ => true
        end
    | None => true
    end.

(** [[f for f in all_wavs if 'instrumental' in f.name.lower() or
    'backing' in f.name.lower()]]. *)
Definition backing_files (all_wavs : list string) : list string :=
  filter
    (fun f =>
       (contains "instrumental" (lower (path_name f))
        || contains "backing" (lower (path_name f)))%bool)
    all_wavs.

(** The search of the output folder comes back with nothing: no folder
    is set, or it does not exist, or it holds no instrumental or backing
    WAV file. *)
Definition folder_search_empty (a : app) : Prop :=
  match karaoke_output_folder a with
  | Some folder =>
      truthy (Some folder) = false
      \/ path_exists folder = Ok false
      \/ (path_exists folder = Ok true /\ backing_files (glob_wav folder) = [])
  | None => True
  end.

(** The checks of [karaoke_record_mix] up to its last one: the path the
    session will load, or the warning shown, or an escaping exception. *)
Definition resolve_backing_track (a : app) : result (warning + string) :=
  track <-
    (if needs_search a then
       match karaoke_output_folder a with
       | Some folder =>
           if truthy (Some folder) then
             ex <- path_exists folder ;;
             if (ex : bool) then
               match backing_files (glob_wav folder) with
               | f :: _ => Ok (inr (Some f))
               | [] => Ok (inl NoBackingTrackInOutputFolder)
               end
             else Ok (inl NoOutputFolder)
           else Ok (inl NoOutputFolder)
       | None => Ok (inl NoOutputFolder)
       end
     else Ok (inr (karaoke_backing_track a))) ;;
  match track with
  | inl w => Ok (inl w)
  | inr t =>
      (* last check: is the backing track still unset? *)
      match t with
      | Some p => if truthy t then Ok (inr p) else Ok (inl BackingTrackNotLoaded)
      | None => Ok (inl BackingTrackNotLoaded)
      end
  end.

(** The body of the [try] of [start_karaoke] up to the stream: decode,
    resample above 48 kHz, build the player, wire it, read the device
    ids, convert to stereo. *)
Definition prepare_session (track : string) (a : app)
    : result (session * block * Z * option Z * option Z) :=
  '(backing_audio, sr) <- sf_read track ;;
  '(backing_audio, sr) <-
    (if (sr >? 48000)%Z
     then b <- librosa_resample backing_audio sr ;; Ok (b, 48000%Z)
     else Ok (backing_audio, sr)) ;;
  _ <- build_player_ui backing_audio sr ;;
  let s := new_session backing_audio sr (app_vu_meter a) (app_volume_var a) in
  mic_id <- parse_device_id (karaoke_mic_var a) ;;
  speaker_id <- parse_device_id (karaoke_speaker_var a) ;;
  Ok (s, to_stereo backing_audio, sr, mic_id, speaker_id).

(** [start_karaoke], the thread body. *)
Definition start_karaoke (track : string) (a : app) : outcome :=
  match prepare_session track a with
  | Raise e => StartFailed e
  | Ok (s, backing, sr, mic_id, speaker_id) =>
      match open_stream mic_id speaker_id sr with
      | Raise e => StreamFailed e s
      | Ok _ => Running s backing sr
      end
  end.

(** [karaoke_record_mix]. *)
Definition karaoke_record_mix (a : app) : outcome :=
  if karaoke_stream_active a then StreamStopped
  else
    match resolve_backing_track a with
    | Raise e => Escaped e
    | Ok (inl w) => Rejected w
    | Ok (inr track) => start_karaoke track a
    end.

End SessionStart.

(** ** gui/vu_meter.py: drawing a channel *)

Module VUDraw.

(** [db_to_x]. *)
Definition db_to_x (db x_start width : R) : R :=
  if Rle_dec db (-60) then x_start
  else if Rge_dec db 0 then x_start + width
  else
    (* Logarithmic scale *)
    let normalized := (db + 60) / 60.0 in
    x_start + normalized * width.

(** The entries of [self.colors] that [draw_channel] uses. *)
Definition green : string := "#10b981".
Definition yellow : string := "#f59e0b".
Definition red : string := "#ef4444".
Definition peak_colour : string := "#8b5cf6".
Definition bg : string := "#1a1a2e".
Definition border : string := "#374151".

(** The canvas calls of [draw_channel], with the coordinates and colours
    they are given (fonts left out). *)
Inductive item : Type :=
  | CreateText (x y : R) (text fill : string)
  | CreateRectangle (x0 y0 x1 y1 : R) (fill outline : string) (width : option R)
  | CreateLine (x0 y0 x1 y1 : R) (fill : string) (width : R).

(** The [zones] list of [draw_channel]. *)
Definition zones : list (R * R * string) :=
  [(-60, -18, green); (-18, -6, yellow); (-6, 0, red)].

(** One turn of the loop over the zones. *)
Definition zone_segment (level level_x x y width height : R)
    (zone : R * R * string) : list item :=
  let '(db_start, db_end, color) := zone in
  let zone_x_start := db_to_x db_start x width in
  let zone_x_end := db_to_x db_end x width in
  (* Only draw if level reaches this zone *)
  if Rge_dec level db_start then
    let actual_end := py_min level_x zone_x_end in
    if Rgt_dec actual_end zone_x_start then
      [CreateRectangle zone_x_start (y + 2) actual_end (y + height - 2) color "" None]
    else []
  else [].

(** The coloured segments of the level bar: the loop over the zones. *)
Definition level_bar (level x y width height : R) : list item :=
  let level_x := db_to_x level x width in
  flat_map (zone_segment level level_x x y width height) zones.

(** The colour of the dB value text. *)
Definition text_color (level : R) : string :=
  if Rge_dec level (-6) then red
  else if Rge_dec level (-18) then yellow
  else green.

Section Draw.

(** [f"{level:.1f} dB"], Python's formatting of a float. *)
Variable format_db : R -> string.

(** [draw_channel]. *)
Definition draw_channel (channel : string) (level peak x y width height : R)
    : list item :=
  [ CreateText (x - 20) (y + height / 2) channel "white";
    CreateRectangle x y (x + width) (y + height) bg border (Some 2) ]
  ++ level_bar level x y width height
  ++ (if Rgt_dec peak (-60) then
        let peak_x := db_to_x peak x width in
        [CreateLine peak_x (y + 2) peak_x (y + height - 2) peak_colour 3]
      else [])
  ++ [ CreateText (x + width + 35) (y + height / 2)
         (if Rgt_dec level (-60) then format_db level else "-∞ dB")
         (text_color level) ].

End Draw.

(** The horizontal extent and colour of the zone rectangles among some
    canvas items: the rectangles drawn without an outline. *)
Fixpoint spans (items : list item) : list (R * R * string) :=
  match items with
  | [] => []
  | CreateRectangle x0 _ x1 _ fill outline None :: rest =>
      (x0, x1, fill) :: spans rest
  | _ :: rest => spans rest
  end.

(** Spans that follow one another without gap or overlap from [a] to
    [b], each of positive width. *)
Fixpoint tiles (a : R) (l : list (R * R * string)) (b : R) : Prop :=
  match l with
  | [] => a = b
  | (x0, x1, _) :: rest => x0 = a /\ x0 < x1 /\ tiles x1 rest b
  end.

End VUDraw.

(** ** gui/karaoke_player.py: display helpers and the waveform click *)

(** Python's [ZeroDivisionError], raised by [/] on a zero divisor. *)
Definition ZeroDivisionError : exn := LibraryError "ZeroDivisionError".

(** [int(x)] on a float: truncation towards zero. *)
Definition py_trunc (x : R) : Z := if Rle_dec 0 x then Zfloor x else Zceil x.

(** [a // b] and [a % b] on floats, for a positive [b], read over the
    reals.  For [0 <= a] the float remainder is exact and the reading gives
    what Python gives.  For a negative [a] Python adds [b] to a remainder
    that is not zero and rounds the sum, which can then be [b] itself
    ([-1e-20 % 60 == 60.0]), a value the reals never give: the reading is
    used for [0 <= a] only. *)
Definition py_floordiv (a b : R) : R := IZR (Zfloor (a / b)).
Definition py_mod (a b : R) : R := a - b * IZR (Zfloor (a / b)).

(** [str(z)] for an integer. *)
Definition str_of_Z (z : Z) : string :=
  DecimalString.NilZero.string_of_int (Z.to_int z).

(** [f"{z:02d}"]: zero-padded to two characters, the sign included. *)
Definition format_02d (z : Z) : string :=
  let s := str_of_Z z in
  if Nat.ltb (String.length s) 2 then ("0" ++ s)%string else s.

Module PlayerDisplay.

(** The two numbers of [format_time]: [int(seconds // 60)] and
    [int(seconds % 60)], for a time [0 <= seconds] (see [py_mod]). *)
Definition time_parts (seconds : R) : Z * Z :=
  let mins := py_trunc (py_floordiv seconds 60) in
  let secs := py_trunc (py_mod seconds 60) in
  (mins, secs).

(** [format_time]. *)
Definition format_time (seconds : R) : string :=
  let '(mins, secs) := time_parts seconds in
  (format_02d mins ++ ":" ++ format_02d secs)%string.

(** A lyrics segment: [{"start": ..., "end": ..., "text": ...}]. *)
Record segment : Type := mk_segment {
  seg_start : R;
  seg_end : R;
  seg_text : string
}.

(** An entry of the analyzer's ["lyrics_timestamped"] list; a missing key
    is [None]. *)
Record timestamped : Type := mk_timestamped {
  item_timestamp : option R;
  item_text : option string
}.

(** [self.lyrics_data]: falsy, a dict with the key ["segments"], a dict
    without it but with ["lyrics_timestamped"], or any other dict. *)
Inductive lyrics_data : Type :=
  | NoLyrics
  | WhisperLyrics (segments : list segment)
  | AnalyzerLyrics (items : list timestamped)
  | OtherLyrics.

(** The texts of the three lyrics labels. *)
Record labels : Type := mk_labels {
  lyrics_prev : string;
  lyrics_current : string;
  lyrics_next : string
}.

Definition music_intro : string := "♪ Music Intro ♪".
Definition music_outro : string := "♪ Music Outro ♪".

(** The conversion of the analyzer format: three seconds per line. *)
Definition convert_item (item : timestamped) : segment :=
  let ts := match item_timestamp item with Some t => t | None => 0.0 end in
  {| seg_start := ts;
     seg_end := ts + 3.0;
     seg_text := match item_text item with Some s => s | None => ""%string end |}.

(** The segments [update_lyrics] works on; [None] when the dict has
    neither key. *)
Definition segments_of (data : lyrics_data) : option (list segment) :=
  match data with
  | NoLyrics => None
  | WhisperLyrics segs => Some segs
  | AnalyzerLyrics items => Some (map convert_item items)
  | OtherLyrics => None
  end.

(** [segment["start"] <= current_time < segment["end"]]. *)
Definition covers (current_time : R) (s : segment) : bool :=
  if Rle_dec (seg_start s) current_time
  then if Rlt_dec current_time (seg_end s) then true else false
  else false.

(** The search loop: the index of the first segment that covers the time,
    counting from [i]. *)
Fixpoint find_current (current_time : R) (segs : list segment) (i : nat)
    : option nat :=
  match segs with
  | [] => None
  | s :: rest =>
      if covers current_time s then Some i
      else find_current current_time rest (S i)
  end.

Section Lyrics.

(** [str.strip()]. *)
Variable strip : string -> string.

(** The label updates of [update_lyrics] for the time [current_time], on
    non-empty [segs]. *)
Definition show_segments (current_time : R) (segs : list segment) (l : labels)
    : labels :=
  let text_at i :=
    strip (seg_text (nth i segs (mk_segment 0 0 ""))) in
  match find_current current_time segs 0 with
  | Some current_idx =>
      {| lyrics_current := text_at current_idx;
         lyrics_prev :=
           if Nat.ltb 0 current_idx then text_at (current_idx - 1)%nat
           else ""%string;
         lyrics_next :=
           if Nat.ltb current_idx (length segs - 1)
           then text_at (current_idx + 1)%nat
           else ""%string |}
  | None =>
      (* No current segment *)
      {| lyrics_current :=
           if Rlt_dec current_time (seg_start (hd (mk_segment 0 0 "") segs))
           then music_intro else music_outro;
         lyrics_prev := lyrics_prev l;
         lyrics_next := lyrics_next l |}
  end.

(** [update_lyrics], on the player's position and sample rate. *)
Definition update_lyrics (data : lyrics_data) (self : KaraokePlayer.t)
    (l : labels) : result labels :=
  match data with
  | NoLyrics => Ok l
  | _ =>
      if (KaraokePlayer.sample_rate self =? 0)%Z then Raise ZeroDivisionError
      else
        let current_time :=
          IZR (KaraokePlayer.current_position self)
          / IZR (KaraokePlayer.sample_rate self) in
        match segments_of data with
        | None | Some [] => Ok l
        | Some segs => Ok (show_segments current_time segs l)
        end
  end.

End Lyrics.

(** [on_waveform_click] for a click at [event_x] on a canvas [width] wide. *)
Definition on_waveform_click (event_x width : Z) (self : KaraokePlayer.t)
    (e : engine) : result (KaraokePlayer.t * engine) :=
  if (width =? 0)%Z then Raise ZeroDivisionError
  else
    let click_ratio := IZR event_x / IZR width in
    let new_position :=
      py_trunc (click_ratio * IZR (audio_len (KaraokePlayer.backing_audio self))) in
    Ok (KaraokePlayer.seek_to new_position self e).

End PlayerDisplay.

(** The skip buttons, on a session. *)
Definition skip_forward : session -> session :=
  lift_player KaraokePlayer.skip_forward.

Definition skip_backward : session -> session :=
  lift_player KaraokePlayer.skip_backward.

(** ** What happens to a running session *)

(** The audio device delivers a block, or the user acts on the player. *)
Inductive event : Type :=
  | Callback (t : tick)
  | SeekTo (target : Z)
  | SkipForward
  | SkipBackward
  | TogglePlayPause
  | MoveSlider (key : fx_key) (value : R).

Section SessionEvents.

Variable apply_board : pedalboard -> block -> Z -> result block.
Variable backing_audio : block.
Variable sr : Z.

Definition handle (s : session) (ev : event) : session :=
  match ev with
  | Callback t =>
      fst (audio_callback apply_board backing_audio sr
             (tick_indata t) (tick_frames t) (tick_now t) s)
  | SeekTo target => seek target s
  | SkipForward => skip_forward s
  | SkipBackward => skip_backward s
  | TogglePlayPause => toggle_play_pause s
  | MoveSlider key value => move_slider key value s
  end.

(** A sequence of events, first to last. *)
Definition run_session (events : list event) (s : session) : session :=
  fold_left handle events s.

End SessionEvents.

(** The block size of a callback event is not negative. *)
Definition sane_event (ev : event) : Prop :=
  match ev with
  | Callback t => (0 <= tick_frames t)%Z
  | _ => True
  end.

(** The wiring and the board of a session started on [decoded]: the seek
    and effect callbacks are the application's, the play/pause callback
    is unset, the player holds the decoded track, and the board is the
    one built from the player's parameters. *)
Definition session_wired (decoded : audio) (s : session) : Prop :=
  KaraokePlayer.on_seek_callback (player s) = Some on_seek
  /\ KaraokePlayer.on_fx_change_callback (player s) = Some on_fx_change
  /\ KaraokePlayer.on_play_pause_callback (player s) = None
  /\ KaraokePlayer.backing_audio (player s) = decoded
  /\ fx_board (closure s) = rebuild_fx_board (KaraokePlayer.fx_params (player s)).

(** Both positions of a session are on the track. *)
Definition positions_on_track (decoded : audio) (s : session) : Prop :=
  (0 <= frame_idx (closure s) <= audio_len decoded)%Z
  /\ (0 <= KaraokePlayer.current_position (player s) <= audio_len decoded)%Z.

(** ** gui/desktop_app_ultra.py: the pitch and tempo entries *)

Module Entries.

(** A [DoubleVar] and the text of the entry bound to it. *)
Record t : Type := mk {
  var_value : R;
  entry_text : string
}.

Section Entry.

(** [float(text)]: [None] when it raises [ValueError]. *)
Variable py_float : string -> option R.

(** [f"{v:.1f}"] and [f"{v:.2f}"]. *)
Variable format_1f : R -> string.
Variable format_2f : R -> string.

(** [var.set(value)]: the write trace installed with the entry replaces
    the entry's text by the formatted value. *)
Definition set_var (format : R -> string) (value : R) (self : t) : t :=
  {| var_value := value; entry_text := format value |}.

(** [update_karaoke_pitch_from_entry]. *)
Definition update_karaoke_pitch_from_entry (self : t) : t :=
  match py_float (entry_text self) with
  | Some value =>
      let value := py_max (-12) (py_min 12 value) in
      set_var format_1f value self
  | None =>
      {| var_value := var_value self;
         entry_text := format_1f (var_value self) |}
  end.

(** [update_karaoke_tempo_from_entry]. *)
Definition update_karaoke_tempo_from_entry (self : t) : t :=
  match py_float (entry_text self) with
  | Some value =>
      let value := py_max 0.5 (py_min 2.0 value) in
      set_var format_2f value self
  | None =>
      {| var_value := var_value self;
         entry_text := format_2f (var_value self) |}
  end.

End Entry.

End Entries.

(** ** gui/desktop_app_ultra.py: device labels *)

Module Devices.

(** The first entry of both device menus. *)
Definition default_device : string := "Varsayılan (Default)".

(** [str(i)] for an index of [enumerate]. *)
Definition str_of_nat (i : nat) : string :=
  DecimalString.NilZero.string_of_uint (Nat.to_uint i).

(** [f"[{i}] {dev['name']}"]. *)
Definition device_label (i : nat) (name : string) : string :=
  ("[" ++ str_of_nat i ++ "] " ++ name)%string.

(** An entry of [sd.query_devices()]. *)
Record device : Type := mk_device {
  dev_name : string;
  max_input_channels : Z;
  max_output_channels : Z
}.

(** The loop over [enumerate(devices)] that collects the labels of the
    devices with channels of one direction, counting from [i]. *)
Fixpoint labels_from (channels : device -> Z) (i : nat) (devices : list device)
    : list string :=
  match devices with
  | [] => []
  | dev :: rest =>
      if (channels dev >? 0)%Z
      then device_label i (dev_name dev) :: labels_from channels (S i) rest
      else labels_from channels (S i) rest
  end.

(** The two menus of [refresh_karaoke_devices]. *)
Definition mic_devices (devices : list device) : list string :=
  default_device :: labels_from max_input_channels 0 devices.

Definition speaker_devices (devices : list device) : list string :=
  default_device :: labels_from max_output_channels 0 devices.

(** [s.split(sep)] for a separator of one character. *)
Fixpoint py_split (sep : ascii) (s : string) : list string :=
  match s with
  | EmptyString => [EmptyString]
  | String c rest =>
      if Ascii.eqb c sep then EmptyString :: py_split sep rest
      else
        match py_split sep rest with
        | h :: t => String c h :: t
        | [] => [String c EmptyString]
        end
  end.

(** ASCII white space as [int] skips it. *)
Definition is_space (c : ascii) : bool :=
  let n := nat_of_ascii c in
  ((Nat.leb 9 n && Nat.leb n 13) || (Nat.leb 28 n && Nat.leb n 32))%bool.

Definition digit_of (c : ascii) : option nat :=
  let n := nat_of_ascii c in
  if (Nat.leb 48 n && Nat.leb n 57)%bool then Some (n - 48)%nat else None.

Fixpoint all_space (s : string) : bool :=
  match s with
  | EmptyString => true
  | String c rest => (is_space c && all_space rest)%bool
  end.

Fixpoint lstrip (s : string) : string :=
  match s with
  | EmptyString => EmptyString
  | String c rest => if is_space c then lstrip rest else s
  end.

(** The digits of a decimal literal, with single underscores between
    digits and white space allowed after the last digit; [after_digit]
    tells whether the previous character was a digit. *)
Fixpoint digits_value (s : string) (acc : nat) (after_digit : bool) : option nat :=
  match s with
  | EmptyString => if after_digit then Some acc else None
  | String c rest =>
      match digit_of c with
      | Some d => digits_value rest (10 * acc + d) true
      | None =>
          if Ascii.eqb c "_" then
            if after_digit then digits_value rest acc false else None
          else if (is_space c && after_digit && all_space rest)%bool
          then Some acc
          else None
      end
  end.

(** [int(s)] for a string of ASCII characters: optional white space, an
    optional sign, decimal digits; [ValueError] otherwise. *)
Definition py_int (s : string) : result Z :=
  match lstrip s with
  | EmptyString => Raise ValueError
  | String c rest =>
      if Ascii.eqb c "-" then
        match digits_value rest 0 false with
        | Some n => Ok (- Z.of_nat n)%Z
        | None => Raise ValueError
        end
      else if Ascii.eqb c "+" then
        match digits_value rest 0 false with
        | Some n => Ok (Z.of_nat n)
        | None => Raise ValueError
        end
      else
        match digits_value (String c rest) 0 false with
        | Some n => Ok (Z.of_nat n)
        | None => Raise ValueError
        end
  end.

(** The device id that [start_karaoke] reads from a menu selection:
    [int(label.split("[")[1].split("]")[0])] unless the selection is the
    default entry or has no bracket. *)
Definition parse_device_label (label : string) : result (option Z) :=
  if (negb (String.eqb label default_device) && contains "[" label)%bool then
    match nth_error (py_split "[" label) 1 with
    | Some part =>
        match py_split "]" part with
        | h :: _ =>
            match py_int h with
            | Ok id => Ok (Some id)
            | Raise e => Raise e
            end
        | [] => Raise (LibraryError "IndexError")
        end
    | None => Raise (LibraryError "IndexError")
    end
  else Ok None.

(** The first field of a split. *)
Definition first_field (sep : ascii) (s : string) : string :=
  hd EmptyString (py_split sep s).

End Devices.

(** ** gui/karaoke_player.py: drawing the waveform *)

Module Waveform.

(** The entries of [self.colors] that [draw_waveform] uses. *)
Definition waveform : string := "#4f46e5".
Definition waveform_progress : string := "#818cf8".
Definition accent_bright : string := "#818cf8".

(** Use left channel if stereo: [backing_audio[:, 0]] for a
    two-dimensional array, the array itself otherwise. *)
Definition waveform_data (a : audio) : list R :=
  match a with
  | Mono samples => samples
  | Stereo frames => map fst frames
  end.

(** [np.max(np.abs(chunk))]; [np.max] raises [ValueError] on an empty
    array. *)
Definition np_max_abs (chunk : list R) : result R :=
  match chunk with
  | [] => Raise ValueError
  | x :: rest => Ok (fold_left Rmax (map Rabs rest) (Rabs x))
  end.

(** [range(0, n, step)] for a positive [step]. *)
Definition py_range (n step : Z) : list Z :=
  map (fun k => (Z.of_nat k * step)%Z)
      (seq 0 (Z.to_nat ((n + step - 1) / step))).

(** The downsampling loop, over the chunk starts [i]. *)
Fixpoint downsample (data : list R) (samples_per_pixel : Z) (starts : list Z)
    : result (list R) :=
  match starts with
  | [] => Ok []
  | i :: rest =>
      let chunk := py_slice data i (i + samples_per_pixel) in
      if (py_len chunk >? 0)%Z then
        m <- np_max_abs chunk ;;
        downsampled <- downsample data samples_per_pixel rest ;;
        Ok (m :: downsampled)
      else downsample data samples_per_pixel rest
  end.

(** [max(downsampled)] of a list with first element [x]: the first of its
    largest elements. *)
Definition py_max_list (x : R) (rest : list R) : R := fold_left py_max rest x.

(** How a call of [draw_waveform] ends: it returns after scheduling
    itself again, it returns with the items it has put on the cleared
    canvas, or it raises.  [NotANumber] stands for the division
    [amplitude / max_amplitude] by a float zero, which gives no exception
    but a value that the reals do not have. *)
Inductive outcome : Type :=
  | Retry
  | Drawn (items : list VUDraw.item)
  | Failed (e : exn)
  | NotANumber.

(** The loop that draws the waveform bars, from the bar [i] on. *)
Fixpoint draw_bars (width height position len : Z) (mid_y max_amplitude : R)
    (i : Z) (downsampled : list R) : outcome :=
  match downsampled with
  | [] => Drawn []
  | amplitude :: rest =>
      if (i >=? width)%Z then Drawn []
      else if Req_dec_T max_amplitude 0 then NotANumber
      else
        (* Normalize amplitude *)
        let normalized := (amplitude / max_amplitude) * (IZR height * 0.4) in
        (* Determine color (progress vs unplayed) *)
        if (len =? 0)%Z then Failed ZeroDivisionError
        else
          let progress_ratio := IZR position / IZR len in
          if (width =? 0)%Z then Failed ZeroDivisionError
          else
            let pixel_ratio := IZR i / IZR width in
            let color :=
              if Rle_dec pixel_ratio progress_ratio then waveform_progress
              else waveform in
            (* Draw vertical bar *)
            match
              draw_bars width height position len mid_y max_amplitude
                (i + 1) rest
            with
            | Drawn items =>
                Drawn (VUDraw.CreateLine (IZR i) (mid_y - normalized)
                         (IZR i) (mid_y + normalized) color 1 :: items)
            | other => other
            end
  end.

(** [draw_waveform] on a canvas of [width] by [height] pixels. *)
Definition draw_waveform (width height : Z) (self : KaraokePlayer.t) : outcome :=
  if (width <? 10)%Z then Retry (* Canvas not ready yet *)
  else
    let waveform_data := waveform_data (KaraokePlayer.backing_audio self) in
    (* Downsample to fit canvas width *)
    let samples_per_pixel := (py_len waveform_data / width)%Z in
    let samples_per_pixel :=
      if (samples_per_pixel <? 1)%Z then 1%Z else samples_per_pixel in
    match
      downsample waveform_data samples_per_pixel
        (py_range (py_len waveform_data) samples_per_pixel)
    with
    | Raise e => Failed e
    | Ok downsampled =>
        let mid_y := IZR height / 2 in
        let max_amplitude :=
          match downsampled with
          | [] => 1.0
          | x :: rest => py_max_list x rest
          end in
        let len := audio_len (KaraokePlayer.backing_audio self) in
        let position := KaraokePlayer.current_position self in
        match
          draw_bars width height position len mid_y max_amplitude 0
            downsampled
        with
        | Drawn bars =>
            (* Draw playhead *)
            if (len =? 0)%Z then Failed ZeroDivisionError
            else
              let playhead_x :=
                py_trunc (IZR position / IZR len * IZR width) in
              Drawn (bars ++
                     [VUDraw.CreateLine (IZR playhead_x) 0 (IZR playhead_x)
                        (IZR height) accent_bright 3])
        | other => other
        end
    end.

End Waveform.

(** * Properties *)

(** ** Builtins *)

Lemma py_max_spec (a b : R) : py_max a b = Rmax a b.
Proof.
  unfold py_max, Rmax.
  destruct (Rlt_dec a b), (Rle_dec a b); try reflexivity; lra.
Qed.

Lemma py_min_spec (a b : R) : py_min a b = Rmin a b.
Proof.
  unfold py_min, Rmin.
  destruct (Rlt_dec b a), (Rle_dec a b); try reflexivity; lra.
Qed.

Lemma clamp_on_scale (x : R) : VUMeter.on_scale (py_max (-60) (py_min 0 x)).
Proof.
  unfold VUMeter.on_scale, py_max, py_min.
  destruct (Rlt_dec x 0); destruct (Rlt_dec (-60) _); lra.
Qed.

Lemma clamp_id (x : R) : -60 <= x <= 0 -> py_max (-60) (py_min 0 x) = x.
Proof.
  intros H. unfold py_max, py_min.
  destruct (Rlt_dec x 0); destruct (Rlt_dec (-60) _); lra.
Qed.

Lemma decay_on_scale (p : R) :
  VUMeter.on_scale p -> VUMeter.on_scale (py_max (p - 0.5) (-60)).
Proof.
  unfold VUMeter.on_scale, py_max. intros H.
  destruct (Rlt_dec (p - 0.5) (-60)); lra.
Qed.

Lemma ln_10_pos : 0 < ln 10.
Proof.
  rewrite <- ln_1. apply ln_increasing; lra.
Qed.

Lemma log10_db_to_amplitude (x : R) : 20 * log10 (db_to_amplitude x) = x.
Proof.
  unfold log10, db_to_amplitude, Rpower.
  rewrite ln_exp. pose proof ln_10_pos. field. lra.
Qed.

Lemma db_to_amplitude_pos (x : R) : 0 < db_to_amplitude x.
Proof. unfold db_to_amplitude, Rpower. apply exp_pos. Qed.

(** ** The level meter *)

Lemma amplitude_to_db_on_scale (a : R) :
  VUMeter.on_scale (VUMeter.amplitude_to_db a).
Proof.
  unfold VUMeter.amplitude_to_db.
  destruct (Rle_dec a 0).
  - unfold VUMeter.on_scale; lra.
  - apply clamp_on_scale.
Qed.

Lemma amplitude_to_db_floor (a : R) : a <= 0 -> VUMeter.amplitude_to_db a = -60.
Proof.
  intros H. unfold VUMeter.amplitude_to_db.
  destruct (Rle_dec a 0); [reflexivity | contradiction].
Qed.

(** C9.  In the real-number reading of the floats, converting a level
    [x] of the scale [[-60, 0]] to a linear amplitude [10 ** (x / 20)] and
    back with [amplitude_to_db] returns [x] itself (so the two agree within
    every tolerance), and the amplitude [0] maps to the floor [-60], a
    finite value. *)
Theorem amplitude_to_db_round_trip (x : R) (Hx : -60 <= x <= 0) :
  VUMeter.amplitude_to_db (db_to_amplitude x) = x
  /\ VUMeter.amplitude_to_db 0 = -60.
Proof.
  split.
  - unfold VUMeter.amplitude_to_db.
    destruct (Rle_dec (db_to_amplitude x) 0) as [Hle | _].
    + pose proof (db_to_amplitude_pos x). lra.
    + rewrite log10_db_to_amplitude. now apply clamp_id.
  - apply amplitude_to_db_floor. lra.
Qed.

Lemma amplitude_to_db_round_trip_witness :
  -60 <= -20 <= 0
  /\ VUMeter.amplitude_to_db (db_to_amplitude (-20)) = -20
  /\ VUMeter.amplitude_to_db 0 = -60.
Proof.
  assert (H : -60 <= -20 <= 0) by lra.
  split; [exact H | exact (amplitude_to_db_round_trip (-20) H)].
Defined.

Lemma set_levels_on_scale (now l r : R) (m : VUMeter.t) :
  VUMeter.levels_on_scale m ->
  VUMeter.levels_on_scale (VUMeter.set_levels now l r m).
Proof.
  intros (_ & _ & Hlp & Hrp).
  pose proof (clamp_on_scale l) as Hl.
  pose proof (clamp_on_scale r) as Hr.
  unfold VUMeter.levels_on_scale, VUMeter.set_levels.
  destruct (Rlt_dec (VUMeter.left_peak m) _);
    destruct (Rlt_dec (VUMeter.right_peak m) _);
    cbn [VUMeter.left_level VUMeter.right_level
         VUMeter.left_peak VUMeter.right_peak];
    repeat match goal with
           | |- context [if ?c then _ else _] => destruct c
           end;
    refine (conj _ (conj _ (conj _ _)));
    first [assumption | apply decay_on_scale; assumption].
Qed.

Lemma reset_on_scale (m : VUMeter.t) :
  VUMeter.levels_on_scale (VUMeter.reset m).
Proof.
  unfold VUMeter.levels_on_scale, VUMeter.on_scale; cbn. lra.
Qed.

Lemma init_on_scale : VUMeter.levels_on_scale VUMeter.init.
Proof.
  unfold VUMeter.levels_on_scale, VUMeter.on_scale; cbn. lra.
Qed.

Lemma step_on_scale (m : VUMeter.t) (o : VUMeter.op) :
  VUMeter.levels_on_scale m -> VUMeter.levels_on_scale (VUMeter.step m o).
Proof.
  destruct o; cbn [VUMeter.step]; intros H.
  - now apply set_levels_on_scale.
  - now apply set_levels_on_scale.
  - apply reset_on_scale.
Qed.

Lemma run_on_scale (ops : list VUMeter.op) (m : VUMeter.t) :
  VUMeter.levels_on_scale m -> VUMeter.levels_on_scale (VUMeter.run ops m).
Proof.
  unfold VUMeter.run. revert m.
  induction ops as [| o ops IH]; intros m H; cbn [fold_left].
  - exact H.
  - apply IH. now apply step_on_scale.
Qed.

Lemma run_peak_hold_time (ops : list VUMeter.op) (m : VUMeter.t) :
  VUMeter.peak_hold_time (VUMeter.run ops m) = VUMeter.peak_hold_time m.
Proof.
  unfold VUMeter.run. revert m.
  induction ops as [| o ops IH]; intros m; cbn [fold_left]; [reflexivity |].
  rewrite IH. destruct o; cbn [VUMeter.step]; try reflexivity;
    unfold VUMeter.set_levels_from_amplitude, VUMeter.set_levels;
    repeat match goal with
           | |- context [if ?c then _ else _] => destruct c
           end; reflexivity.
Qed.

Lemma set_levels_stores_clamped (now l r : R) (m : VUMeter.t) :
  VUMeter.left_level (VUMeter.set_levels now l r m) = py_max (-60) (py_min 0 l)
  /\ VUMeter.right_level (VUMeter.set_levels now l r m)
       = py_max (-60) (py_min 0 r).
Proof.
  unfold VUMeter.set_levels.
  destruct (Rlt_dec (VUMeter.left_peak m) _);
    destruct (Rlt_dec (VUMeter.right_peak m) _); cbn; auto.
Qed.

(** With a positive hold time, a call of [set_levels] leaves each peak at
    the level it has just stored, or no higher than it was. *)
Lemma set_levels_peak (now l r : R) (m : VUMeter.t) :
  0 < VUMeter.peak_hold_time m ->
  VUMeter.levels_on_scale m ->
  let m' := VUMeter.set_levels now l r m in
  (VUMeter.left_peak m' = VUMeter.left_level m'
   \/ VUMeter.left_peak m' <= VUMeter.left_peak m)
  /\ (VUMeter.right_peak m' = VUMeter.right_level m'
      \/ VUMeter.right_peak m' <= VUMeter.right_peak m).
Proof.
  intros Hhold (_ & _ & Hlp & Hrp). unfold VUMeter.on_scale in Hlp, Hrp.
  unfold VUMeter.set_levels.
  generalize (py_max (-60) (py_min 0 l)) (py_max (-60) (py_min 0 r)).
  intros cl cr. unfold py_max.
  destruct (Rlt_dec (VUMeter.left_peak m) cl);
    destruct (Rlt_dec (VUMeter.right_peak m) cr);
    cbn [VUMeter.left_level VUMeter.right_level
         VUMeter.left_peak VUMeter.right_peak];
    repeat match goal with
           | |- context [if ?c then _ else _] => destruct c
           end;
    split; first [left; reflexivity | right; lra | exfalso; lra].
Qed.

(** C10.  Whatever sequence of [set_levels], [set_levels_from_amplitude]
    and [reset] calls a fresh meter receives, with whatever real arguments
    and clock readings, its two levels and its two peaks are within
    [[-60, 0]] afterwards.  A further [set_levels] stores the clamped
    inputs as levels, and leaves each peak either at the level just stored
    or no higher than it was. *)
Theorem vu_meter_levels_on_scale (ops : list VUMeter.op) (now l r : R) :
  let m := VUMeter.run ops VUMeter.init in
  let m' := VUMeter.set_levels now l r m in
  VUMeter.levels_on_scale m
  /\ VUMeter.left_level m' = py_max (-60) (py_min 0 l)
  /\ VUMeter.right_level m' = py_max (-60) (py_min 0 r)
  /\ (VUMeter.left_peak m' = VUMeter.left_level m'
      \/ VUMeter.left_peak m' <= VUMeter.left_peak m)
  /\ (VUMeter.right_peak m' = VUMeter.right_level m'
      \/ VUMeter.right_peak m' <= VUMeter.right_peak m).
Proof.
  intros m m'.
  assert (Hm : VUMeter.levels_on_scale m)
    by apply run_on_scale, init_on_scale.
  assert (Hhold : 0 < VUMeter.peak_hold_time m).
  { subst m. rewrite run_peak_hold_time. cbn. lra. }
  destruct (set_levels_stores_clamped now l r m) as [Hl Hr].
  destruct (set_levels_peak now l r m Hhold Hm) as [Hpl Hpr].
  exact (conj Hm (conj Hl (conj Hr (conj Hpl Hpr)))).
Qed.

(** ** The effects chain *)

(** C2.  The board built from any parameter dict has the stages
    Compressor, EQ bass, EQ mid, EQ treble, then Echo exactly when
    [echo_mix] is above 0.01, then Reverb, each fed from the knobs of its
    role; it has 5 stages when [echo_mix <= 0.01] and 6 otherwise. *)
Theorem rebuild_fx_board_stage_order (p : fx_dict) :
  Forall2 (plays_role p) (spec_stage_order p) (rebuild_fx_board p)
  /\ length (rebuild_fx_board p)
     = (if Rle_dec (p echo_mix) 0.01 then 5 else 6)%nat.
Proof.
  unfold spec_stage_order, rebuild_fx_board.
  destruct (Rgt_dec (p echo_mix) 0.01) as [Hgt | Hngt];
    destruct (Rle_dec (p echo_mix) 0.01) as [Hle | Hnle];
    try (exfalso; unfold Rgt in *; lra).
  - split; [| reflexivity].
    repeat (constructor; [cbn; repeat split; try reflexivity; lra |]).
    constructor.
  - split; [| reflexivity].
    repeat (constructor; [cbn; repeat split; try reflexivity; lra |]).
    constructor.
Qed.

(** ** Effect parameter writes *)

Lemma fx_key_eqb_refl (k : fx_key) : fx_key_eqb k k = true.
Proof. destruct k; reflexivity. Qed.

Lemma fx_key_eqb_eq (a b : fx_key) : fx_key_eqb a b = true <-> a = b.
Proof.
  split.
  - destruct a, b; cbn; intros H; try reflexivity; discriminate H.
  - intros ->. apply fx_key_eqb_refl.
Qed.

(** C5, refuted: a room size of 1.5, outside the declared [[0, 1]], written
    to a fresh player is read back as 1.5, still outside the range. *)
Lemma slider_write_not_clamped :
  let pl := KaraokePlayer.init (Stereo []) 48000 in
  let e := {| frame_idx := 0; fx_board := rebuild_fx_board default_fx_params |} in
  let pl' := fst (KaraokePlayer.on_slider_change reverb_room_size 1.5 pl e) in
  ~ in_declared_range reverb_room_size 1.5
  /\ KaraokePlayer.fx_params pl' reverb_room_size = 1.5
  /\ ~ in_declared_range reverb_room_size
         (KaraokePlayer.fx_params pl' reverb_room_size)
  /\ ~ slider_write_is_clamped.
Proof.
  cbv zeta.
  assert (Hout : ~ in_declared_range reverb_room_size 1.5).
  { unfold in_declared_range; cbn. lra. }
  assert (Hread :
    KaraokePlayer.fx_params
      (fst (KaraokePlayer.on_slider_change reverb_room_size 1.5
              (KaraokePlayer.init (Stereo []) 48000)
              {| frame_idx := 0;
                 fx_board := rebuild_fx_board default_fx_params |}))
      reverb_room_size = 1.5) by reflexivity.
  split; [| split; [| split]].
  - exact Hout.
  - exact Hread.
  - rewrite Hread. exact Hout.
  - intros Hclaim.
    specialize (Hclaim reverb_room_size 1.5
                  (KaraokePlayer.init (Stereo []) 48000)
                  {| frame_idx := 0;
                     fx_board := rebuild_fx_board default_fx_params |} Hout).
    rewrite Hread in Hclaim. exact (Hout Hclaim).
Qed.

(** C5, amended.  [on_slider_change] stores the value it is given as it
    is, whether inside the declared range or not: reading the key back
    returns that value, and every other key keeps its value. *)
Theorem on_slider_change_stores_value
    (key : fx_key) (value : R) (pl : KaraokePlayer.t) (e : engine) (k : fx_key) :
  let pl' := fst (KaraokePlayer.on_slider_change key value pl e) in
  KaraokePlayer.fx_params pl' key = value
  /\ KaraokePlayer.fx_params pl' k
     = (if fx_key_eqb key k then value else KaraokePlayer.fx_params pl k).
Proof.
  cbn. unfold dict_set. rewrite fx_key_eqb_refl. split; reflexivity.
Qed.

(** ** Lists, slices and blocks *)

Lemma py_len_nonneg {A : Type} (l : list A) : (0 <= py_len l)%Z.
Proof. unfold py_len. lia. Qed.

Lemma py_slice_inside {A : Type} (l : list A) (s e : Z) :
  (0 <= s)%Z -> (s <= e)%Z -> (e <= py_len l)%Z ->
  py_slice l s e = firstn (Z.to_nat (e - s)) (skipn (Z.to_nat s) l).
Proof.
  intros Hs Hse He. unfold py_slice, slice_index.
  destruct (Z.ltb_spec s 0); [lia |].
  destruct (Z.ltb_spec e 0); [lia |].
  now rewrite !Z.min_l by lia.
Qed.

Lemma py_slice_length {A : Type} (l : list A) (s e : Z) :
  (0 <= s)%Z -> (s <= e)%Z -> (e <= py_len l)%Z ->
  py_len (py_slice l s e) = (e - s)%Z.
Proof.
  intros Hs Hse He. rewrite py_slice_inside by assumption.
  unfold py_len in *. rewrite length_firstn, length_skipn. lia.
Qed.

Lemma py_slice_nth {A : Type} (l : list A) (s e : Z) (i : nat) (d : A) :
  (0 <= s)%Z -> (s <= e)%Z -> (e <= py_len l)%Z ->
  (Z.of_nat i < e - s)%Z ->
  nth i (py_slice l s e) d = nth (Z.to_nat s + i) l d.
Proof.
  intros Hs Hse He Hi. rewrite py_slice_inside by assumption.
  rewrite nth_firstn.
  destruct (Nat.ltb_spec i (Z.to_nat (e - s))); [| lia].
  now rewrite nth_skipn.
Qed.

Lemma zip_add_length (a b : block) :
  length a = length b -> length (zip_add a b) = length a.
Proof.
  revert b. induction a as [| x a IH]; intros [| y b] H; cbn in *;
    try reflexivity; try discriminate.
  f_equal. apply IH. now injection H.
Qed.

Lemma np_add_same_length (a b : block) :
  length a = length b -> np_add a b = Ok (zip_add a b).
Proof.
  intros H. unfold np_add. now rewrite H, Nat.eqb_refl.
Qed.

Lemma np_scale_length (v : R) (x : block) : length (np_scale v x) = length x.
Proof. apply length_map. Qed.

Lemma np_clip_length (lo hi : R) (x : block) : length (np_clip lo hi x) = length x.
Proof. apply length_map. Qed.

Lemma mono_to_stereo_length (indata : list R) :
  length (mono_to_stereo indata) = length indata.
Proof. apply length_map. Qed.

Lemma to_stereo_length (a : audio) : py_len (to_stereo a) = audio_len a.
Proof.
  destruct a; cbn; [| reflexivity]. unfold py_len. now rewrite length_map.
Qed.

Lemma assign_outdata_fits (frames : Z) (x : block) :
  py_len x = frames -> assign_outdata frames x = Ok x.
Proof.
  intros H. unfold assign_outdata. now rewrite H, Z.eqb_refl.
Qed.

Lemma clip_sample_in_range (x : R) : sample_in_range (clip_sample (-1) 1 x).
Proof.
  unfold sample_in_range, clip_sample, Rmin, Rmax.
  destruct (Rle_dec x (-1)); destruct (Rle_dec _ 1); lra.
Qed.

Lemma np_clip_in_range (x : block) : block_in_range (np_clip (-1) 1 x).
Proof.
  unfold block_in_range, np_clip. apply Forall_forall.
  intros f Hf. apply in_map_iff in Hf as (g & <- & _).
  cbn. split; apply clip_sample_in_range.
Qed.

Lemma silence_in_range :
  sample_in_range (fst silence) /\ sample_in_range (snd silence).
Proof. unfold sample_in_range; cbn. lra. Qed.

(** Whatever [outdata[:] = x] writes from a block in range is in range. *)
Lemma assign_outdata_in_range (frames : Z) (x out : block) :
  block_in_range x -> assign_outdata frames x = Ok out -> block_in_range out.
Proof.
  unfold assign_outdata, block_in_range. intros Hx H.
  destruct (py_len x =? frames)%Z.
  - now injection H as <-.
  - destruct (Nat.eqb (length x) 1); [| discriminate].
    injection H as <-. apply Forall_forall. intros f Hf.
    apply repeat_spec in Hf. subst f.
    destruct x as [| y x]; cbn; [exact silence_in_range |].
    now inversion Hx.
Qed.

(** ** The audio callback *)

Section CallbackFacts.

Variable apply_board : pedalboard -> block -> Z -> result block.
Variable backing_audio : block.
Variable sr : Z.

Local Abbreviation L := (py_len backing_audio).
Local Abbreviation callback := (audio_callback apply_board backing_audio sr).
Local Abbreviation run := (run_callbacks apply_board backing_audio sr).
Local Abbreviation position s := (frame_idx (closure s)).

(** The playback position after one callback. *)
Lemma audio_callback_position (indata : list R) (frames : Z) (now : R) (s : session) :
  position (fst (callback indata frames now s))
  = if (position s <? L)%Z then Z.min (position s + frames) L else position s.
Proof.
  unfold audio_callback.
  destruct (position s <? L)%Z.
  - destruct (np_add _ _); reflexivity.
  - destruct (apply_board _ _ _); [destruct (assign_outdata _ _) |]; reflexivity.
Qed.

Lemma audio_callback_position_advance
    (indata : list R) (frames : Z) (now : R) (s : session) :
  (0 <= frames)%Z -> (position s <= L)%Z ->
  position (fst (callback indata frames now s)) = Z.min (position s + frames) L.
Proof.
  intros Hf Hp. rewrite audio_callback_position.
  destruct (Z.ltb_spec (position s) L); lia.
Qed.

Lemma run_callbacks_app (t1 t2 : list tick) (s : session) :
  run (t1 ++ t2) s = run t2 (run t1 s).
Proof. unfold run_callbacks. apply fold_left_app. Qed.

(** [n] callbacks of [B] frames each from a position [p <= L]. *)
Lemma run_callbacks_position (B : Z) (ticks : list tick) (s : session) :
  (0 <= B)%Z -> (position s <= L)%Z ->
  Forall (fun t => tick_frames t = B) ticks ->
  position (run ticks s) = Z.min (position s + py_len ticks * B) L.
Proof.
  intros HB Hp Hall. revert s Hp.
  induction Hall as [| t ticks Ht _ IH]; intros s Hp.
  - unfold run_callbacks. cbn [fold_left].
    change (py_len (@nil tick)) with 0%Z. lia.
  - change (run (t :: ticks) s)
      with (run ticks (fst (callback (tick_indata t) (tick_frames t) (tick_now t) s))).
    rewrite IH.
    + rewrite audio_callback_position_advance by lia.
      replace (py_len (t :: ticks)) with (py_len ticks + 1)%Z
        by (unfold py_len; cbn [length]; lia).
      pose proof (py_len_nonneg ticks). nia.
    + rewrite audio_callback_position_advance by lia. lia.
Qed.

(** At or past the end the position no longer moves, whatever the block
    sizes. *)
Lemma run_callbacks_at_end (ticks : list tick) (s : session) :
  (L <= position s)%Z -> position (run ticks s) = position s.
Proof.
  revert s. induction ticks as [| t ticks IH]; intros s Hp; [reflexivity |].
  change (run (t :: ticks) s)
    with (run ticks (fst (callback (tick_indata t) (tick_frames t) (tick_now t) s))).
  assert (Hstep :
    position (fst (callback (tick_indata t) (tick_frames t) (tick_now t) s))
    = position s).
  { rewrite audio_callback_position. destruct (Z.ltb_spec (position s) L); lia. }
  rewrite IH; rewrite Hstep; [reflexivity | exact Hp].
Qed.

(** C1.  From position 0 and with no seek in between, after [N] callbacks
    of [B] frames each on a track of [L] frames the position is
    [min (N * B) L]; and once it is [L], it is still [L] after any further
    callbacks. *)
Theorem playback_position_after_callbacks
    (B : Z) (ticks later : list tick) (s : session) :
  (0 <= B)%Z ->
  position s = 0%Z ->
  Forall (fun t => tick_frames t = B) ticks ->
  position (run ticks s) = Z.min (py_len ticks * B) L
  /\ (position (run ticks s) = L -> position (run later (run ticks s)) = L).
Proof.
  intros HB H0 Hall. split.
  - rewrite (run_callbacks_position B) by (auto; rewrite H0; apply py_len_nonneg).
    rewrite H0. reflexivity.
  - intros Hend. rewrite run_callbacks_at_end; [exact Hend | lia].
Qed.

End CallbackFacts.

Lemma playback_position_after_callbacks_witness :
  let board := fun (_ : pedalboard) (b : block) (_ : Z) => Ok b in
  let track := [(0.1, 0.1); (0.2, 0.2); (0.3, 0.3)] in
  let t := {| tick_indata := [0; 0]; tick_frames := 2; tick_now := 0 |} in
  let s := new_session (Stereo track) 48000 VUMeter.init 1 in
  frame_idx (closure (run_callbacks board track 48000 [t; t] s))
    = Z.min (py_len [t; t] * 2) (py_len track)
  /\ (frame_idx (closure (run_callbacks board track 48000 [t; t] s)) = py_len track ->
      frame_idx (closure
        (run_callbacks board track 48000 [t] (run_callbacks board track 48000 [t; t] s)))
      = py_len track).
Proof.
  intros board track t s.
  apply (playback_position_after_callbacks board track 48000 2 [t; t] [t] s).
  - lia.
  - reflexivity.
  - repeat constructor.
Defined.

Section CallbackOutput.

Variable apply_board : pedalboard -> block -> Z -> result block.
Variable backing_audio : block.
Variable sr : Z.

Local Abbreviation L := (py_len backing_audio).
Local Abbreviation callback := (audio_callback apply_board backing_audio sr).
Local Abbreviation position s := (frame_idx (closure s)).
Local Abbreviation mic_block s indata :=
  (mic_with_effects apply_board sr (fx_board (closure s))
     (karaoke_volume_var s) (mono_to_stereo indata)).

(** What a callback leaves alone: the board, the volume, the player's
    flag, parameters and callbacks. *)
Lemma audio_callback_frame (indata : list R) (frames : Z) (now : R) (s : session) :
  let s' := fst (callback indata frames now s) in
  fx_board (closure s') = fx_board (closure s)
  /\ karaoke_volume_var s' = karaoke_volume_var s
  /\ player s' = KaraokePlayer.update_position (position s) (player s).
Proof.
  unfold audio_callback.
  destruct (position s <? L)%Z.
  - destruct (np_add _ _); cbn; auto.
  - destruct (apply_board _ _ _); [destruct (assign_outdata _ _) |]; cbn; auto.
Qed.

(** The session after a callback does not depend on the board's DSP. *)
Lemma audio_callback_state_any_board
    (other_board : pedalboard -> block -> Z -> result block)
    (indata : list R) (frames : Z) (now : R) (s : session) :
  fst (audio_callback other_board backing_audio sr indata frames now s)
  = fst (callback indata frames now s).
Proof.
  unfold audio_callback.
  destruct (position s <? L)%Z.
  - unfold mic_with_effects.
    destruct (other_board _ _ _), (apply_board _ _ _);
      repeat match goal with
             | |- context [np_add ?a ?b] => destruct (np_add a b)
             end; reflexivity.
  - destruct (other_board _ _ _), (apply_board _ _ _);
      repeat match goal with
             | |- context [assign_outdata ?a ?b] => destruct (assign_outdata a b)
             end; reflexivity.
Qed.

Lemma backing_block_length (start frames : Z) :
  (0 <= start < L)%Z -> (0 <= frames)%Z ->
  py_len (backing_block backing_audio start frames) = frames.
Proof.
  intros Hs Hf. unfold backing_block.
  set (end_ := Z.min (start + frames) L).
  assert (Hlen : py_len (py_slice backing_audio start end_) = (end_ - start)%Z)
    by (apply py_slice_length; lia).
  rewrite Hlen.
  destruct (Z.ltb_spec (end_ - start) frames) as [Hlt | Hge].
  - unfold np_pad_end, py_len in *. rewrite length_app, repeat_length. lia.
  - lia.
Qed.

(** The block starts with the track's frames from [start] on. *)
Lemma backing_block_nth (start frames : Z) (i : nat) :
  (0 <= start < L)%Z ->
  (Z.of_nat i < Z.min frames (L - start))%Z ->
  nth i (backing_block backing_audio start frames) silence
  = nth (Z.to_nat start + i) backing_audio silence.
Proof.
  intros Hs Hi. unfold backing_block.
  set (end_ := Z.min (start + frames) L).
  assert (Hlen : py_len (py_slice backing_audio start end_) = (end_ - start)%Z)
    by (apply py_slice_length; lia).
  assert (Hnth : nth i (py_slice backing_audio start end_) silence
                 = nth (Z.to_nat start + i) backing_audio silence)
    by (apply py_slice_nth; lia).
  rewrite Hlen.
  destruct (Z.ltb_spec (end_ - start) frames); [| exact Hnth].
  unfold np_pad_end. rewrite app_nth1; [exact Hnth |].
  unfold py_len in Hlen. lia.
Qed.

(** Past the end of the track the block is zeros. *)
Lemma backing_block_padding (start frames : Z) (i : nat) :
  (0 <= start < L)%Z -> (0 <= frames)%Z ->
  (L - start <= Z.of_nat i)%Z ->
  nth i (backing_block backing_audio start frames) silence = silence.
Proof.
  intros Hs Hf Hi. unfold backing_block.
  set (end_ := Z.min (start + frames) L).
  assert (Hlen : py_len (py_slice backing_audio start end_) = (end_ - start)%Z)
    by (apply py_slice_length; lia).
  rewrite Hlen. unfold py_len in Hlen.
  destruct (Z.ltb_spec (end_ - start) frames).
  - unfold np_pad_end. rewrite app_nth2 by lia.
    destruct (nth_in_or_default
                (i - length (py_slice backing_audio start end_))
                (repeat silence (Z.to_nat (frames - (end_ - start)))) silence)
      as [Hin | Hd]; [| exact Hd].
    now apply repeat_spec in Hin.
  - apply nth_overflow. lia.
Qed.

(** The output of the mid-track branch when the microphone block has the
    block size. *)
Lemma audio_callback_mid_track (indata : list R) (frames : Z) (now : R) (s : session) :
  (0 <= position s < L)%Z ->
  py_len (mic_block s indata) = frames ->
  snd (callback indata frames now s)
  = Ok (np_clip (-1) 1
          (zip_add (backing_block backing_audio (position s) frames)
                   (mic_block s indata))).
Proof.
  intros Hp Hmic. unfold audio_callback.
  destruct (Z.ltb_spec (position s) L) as [_ | ?]; [| lia].
  cbn [fx_board].
  assert (Hb : py_len (backing_block backing_audio (position s) frames) = frames).
  { apply backing_block_length; [exact Hp |]. rewrite <- Hmic. apply py_len_nonneg. }
  assert (Hsame : length (backing_block backing_audio (position s) frames)
                  = length (mic_block s indata)).
  { unfold py_len in *. lia. }
  rewrite (np_add_same_length _ _ Hsame). cbn [snd].
  apply assign_outdata_fits.
  unfold py_len in *. rewrite np_clip_length, zip_add_length; assumption.
Qed.

(** Whatever the mid-track branch writes has been clipped. *)
Lemma audio_callback_mid_track_in_range
    (indata : list R) (frames : Z) (now : R) (s : session) (out : block) :
  (position s < L)%Z ->
  snd (callback indata frames now s) = Ok out ->
  block_in_range out.
Proof.
  intros Hp. unfold audio_callback.
  destruct (Z.ltb_spec (position s) L) as [_ | ?]; [| lia].
  destruct (np_add _ _) as [mixed | err]; cbn [snd]; [| discriminate].
  apply assign_outdata_in_range, np_clip_in_range.
Qed.

(** The output of the end-of-track branch: the board's output times the
    volume, as it is. *)
Lemma audio_callback_end_of_track
    (indata : list R) (frames : Z) (now : R) (s : session) (mic_fx : block) :
  (L <= position s)%Z ->
  apply_board (fx_board (closure s)) (mono_to_stereo indata) sr = Ok mic_fx ->
  py_len mic_fx = frames ->
  snd (callback indata frames now s)
  = Ok (np_scale (karaoke_volume_var s) mic_fx).
Proof.
  intros Hp Hfx Hlen. unfold audio_callback.
  destruct (Z.ltb_spec (position s) L) as [? | _]; [lia |].
  rewrite Hfx.
  rewrite assign_outdata_fits; [reflexivity |].
  unfold py_len in *. now rewrite np_scale_length.
Qed.

Lemma mic_with_effects_raise (board : pedalboard) (volume : R) (mic : block) (err : exn) :
  apply_board board mic sr = Raise err ->
  mic_with_effects apply_board sr board volume mic = np_scale volume mic.
Proof. intros H. unfold mic_with_effects. now rewrite H. Qed.

End CallbackOutput.

(** ** Failure of the effects chain *)

(** C7.  When the board raises on the microphone block of a callback, the
    callback still returns an output and no exception: mid-track, the
    backing block plus the unprocessed microphone block times the volume,
    clipped; after the end of the track, the unprocessed microphone block
    times the volume.  The position moves as in any other callback, and
    the session afterwards is the one any other board would have left. *)
Theorem effects_failure_falls_back
    (apply_board : pedalboard -> block -> Z -> result block)
    (backing_audio : block) (sr : Z)
    (indata : list R) (frames : Z) (now : R) (s : session) (err : exn) :
  py_len indata = frames ->
  (0 <= frame_idx (closure s))%Z ->
  apply_board (fx_board (closure s)) (mono_to_stereo indata) sr = Raise err ->
  let start := frame_idx (closure s) in
  let len := py_len backing_audio in
  let dry := np_scale (karaoke_volume_var s) (mono_to_stereo indata) in
  let r := audio_callback apply_board backing_audio sr indata frames now s in
  snd r
  = Ok (if (start <? len)%Z
        then np_clip (-1) 1 (zip_add (backing_block backing_audio start frames) dry)
        else dry)
  /\ frame_idx (closure (fst r))
     = (if (start <? len)%Z then Z.min (start + frames) len else start)
  /\ (forall other_board,
        fst (audio_callback other_board backing_audio sr indata frames now s)
        = fst r).
Proof.
  intros Hlen Hpos Hraise start len dry r.
  assert (Hdry : py_len dry = frames).
  { subst dry. unfold py_len in *.
    now rewrite np_scale_length, mono_to_stereo_length. }
  split; [| split].
  - subst r. destruct (Z.ltb_spec start len) as [Hlt | Hge].
    + pose proof (mic_with_effects_raise apply_board sr _
                    (karaoke_volume_var s) _ err Hraise) as Hmic.
      rewrite audio_callback_mid_track; rewrite ?Hmic;
        [reflexivity | subst start len; lia | exact Hdry].
    + unfold audio_callback.
      destruct (Z.ltb_spec (frame_idx (closure s)) (py_len backing_audio));
        [subst start len; lia |].
      rewrite Hraise. cbn [snd]. now apply assign_outdata_fits.
  - subst r. apply audio_callback_position.
  - intros other_board. subst r. apply audio_callback_state_any_board.
Qed.

Lemma effects_failure_falls_back_witness :
  let board := fun (_ : pedalboard) (_ : block) (_ : Z) =>
                 @Raise block (LibraryError "dsp") in
  let track := [(0.5, 0.5); (0.25, 0.25)] in
  let s := new_session (Stereo track) 48000 VUMeter.init 1 in
  let r := audio_callback board track 48000 [0.25] 1 0 s in
  snd r
  = Ok (if (frame_idx (closure s) <? py_len track)%Z
        then np_clip (-1) 1
               (zip_add (backing_block track (frame_idx (closure s)) 1)
                        (np_scale (karaoke_volume_var s) (mono_to_stereo [0.25])))
        else np_scale (karaoke_volume_var s) (mono_to_stereo [0.25]))
  /\ frame_idx (closure (fst r))
     = (if (frame_idx (closure s) <? py_len track)%Z
        then Z.min (frame_idx (closure s) + 1) (py_len track)
        else frame_idx (closure s))
  /\ (forall other_board,
        fst (audio_callback other_board track 48000 [0.25] 1 0 s) = fst r).
Proof.
  intros board track s r.
  apply (effects_failure_falls_back board track 48000 [0.25] 1 0 s
           (LibraryError "dsp")).
  - reflexivity.
  - cbn. lia.
  - reflexivity.
Defined.

(** ** Seeking *)

(** C6.  In a session whose player is wired to the engine, [seek_to] with
    any integer target stores the position [max 0 (min target (L - 1))],
    both in the player and in the engine.  On a track of [L > 0] frames
    that position lies in [[0, L)], the next callback takes its backing
    block from that frame on and leaves the position at
    [min (position + frames) L].  On a track without frames the stored
    position is 0, which is [L] and so not in the empty [[0, L)]; the next
    callback takes the end-of-track branch, writes the microphone only and
    leaves the position at 0. *)
Theorem seek_clamps_and_next_callback_reads_there
    (apply_board : pedalboard -> block -> Z -> result block)
    (backing_audio : block) (sr : Z)
    (s : session) (target : Z) (indata : list R) (frames : Z) (now : R) :
  audio_len (KaraokePlayer.backing_audio (player s)) = py_len backing_audio ->
  KaraokePlayer.on_seek_callback (player s) = Some on_seek ->
  let len := py_len backing_audio in
  let c := Z.max 0 (Z.min target (len - 1)) in
  let s' := seek target s in
  let r := audio_callback apply_board backing_audio sr indata frames now s' in
  KaraokePlayer.current_position (player s') = c
  /\ frame_idx (closure s') = c
  /\ ((0 < len)%Z ->
      (0 <= c < len)%Z
      /\ snd r
         = match
             np_add (backing_block backing_audio c frames)
               (mic_with_effects apply_board sr (fx_board (closure s'))
                  (karaoke_volume_var s') (mono_to_stereo indata))
           with
           | Ok mixed => assign_outdata frames (np_clip (-1) 1 mixed)
           | Raise e => Raise e
           end
      /\ (forall i : nat,
            (Z.of_nat i < Z.min frames (len - c))%Z ->
            nth i (backing_block backing_audio c frames) silence
            = nth (Z.to_nat c + i) backing_audio silence)
      /\ frame_idx (closure (fst r)) = Z.min (c + frames) len)
  /\ (len = 0%Z ->
      c = 0%Z
      /\ ~ (0 <= c < len)%Z
      /\ snd r
         = (let mic_stereo := mono_to_stereo indata in
            let fallback :=
              assign_outdata frames
                (np_scale (karaoke_volume_var s') mic_stereo) in
            match apply_board (fx_board (closure s')) mic_stereo sr with
            | Ok mic_fx =>
                match
                  assign_outdata frames
                    (np_scale (karaoke_volume_var s') mic_fx)
                with
                | Ok out => Ok out
                | Raise _ => fallback
                end
            | Raise _ => fallback
            end)
      /\ frame_idx (closure (fst r)) = 0%Z).
Proof.
  intros Hlen Hwired len c s' r.
  assert (Hplayer : KaraokePlayer.current_position (player s') = c).
  { subst s' c len. unfold seek, lift_player, KaraokePlayer.seek_to.
    cbn. now rewrite Hlen. }
  assert (Hengine : frame_idx (closure s') = c).
  { subst s' c len. unfold seek, lift_player, KaraokePlayer.seek_to.
    cbn. rewrite Hwired. cbn. now rewrite Hlen. }
  split; [exact Hplayer |]. split; [exact Hengine |].
  split.
  - intros Hpos.
    assert (Hc : (0 <= c < len)%Z) by (subst c len; lia).
    split; [exact Hc |]. split; [| split].
    + subst r. unfold audio_callback. rewrite Hengine.
      destruct (Z.ltb_spec c (py_len backing_audio)); [| subst len; lia].
      cbn [fx_board].
      destruct (np_add _ _); reflexivity.
    + intros i Hi. apply backing_block_nth; assumption.
    + subst r. rewrite audio_callback_position, Hengine.
      destruct (Z.ltb_spec c (py_len backing_audio)); [| subst len; lia].
      reflexivity.
  - intros Hzero.
    assert (Hc : c = 0%Z) by (subst c; lia).
    split; [exact Hc |]. split; [lia |]. split.
    + subst r. unfold audio_callback. rewrite Hengine.
      destruct (Z.ltb_spec c (py_len backing_audio)); [subst len; lia |].
      cbv zeta.
      destruct (apply_board (fx_board (closure s')) (mono_to_stereo indata) sr)
        as [mic_fx | e]; [| reflexivity].
      destruct (assign_outdata frames
                  (np_scale (karaoke_volume_var s') mic_fx)); reflexivity.
    + subst r. rewrite audio_callback_position, Hengine.
      destruct (Z.ltb_spec c (py_len backing_audio)); [subst len; lia |].
      exact Hc.
Qed.

Lemma seek_clamps_and_next_callback_reads_there_witness :
  let board := fun (_ : pedalboard) (b : block) (_ : Z) => Ok b in
  let track := [(0.1, 0.1); (0.2, 0.2); (0.3, 0.3)] in
  let s := new_session (Stereo track) 48000 VUMeter.init 1 in
  (0 < py_len track)%Z
  /\ KaraokePlayer.on_seek_callback (player s) = Some on_seek
  /\ frame_idx (closure (seek 7 s)) = 2%Z
  /\ frame_idx (closure (seek (-4) s)) = 0%Z
  /\ nth 0 (backing_block track 2 1) silence = nth 2 track silence.
Proof.
  intros board track s.
  assert (H1 : (0 < py_len track)%Z) by (cbn; lia).
  assert (H2 : audio_len (KaraokePlayer.backing_audio (player s)) = py_len track)
    by reflexivity.
  assert (H3 : KaraokePlayer.on_seek_callback (player s) = Some on_seek)
    by reflexivity.
  pose proof (seek_clamps_and_next_callback_reads_there
                board track 48000 s 7 [0] 1 0 H2 H3) as Hfar.
  pose proof (seek_clamps_and_next_callback_reads_there
                board track 48000 s (-4) [0] 1 0 H2 H3) as Hneg.
  cbv zeta in Hfar, Hneg.
  destruct Hfar as (_ & Hfar & Hon & _).
  destruct (Hon H1) as (_ & _ & Hread & _).
  destruct Hneg as (_ & Hneg & _).
  split; [exact H1 |]. split; [exact H3 |].
  split; [exact Hfar |]. split; [exact Hneg |].
  apply (Hread 0%nat). cbn. lia.
Defined.

(** C6, refuted for the track without frames.  The stored path names a
    file that decodes to zero frames; the press of the button builds the
    session and opens the stream.  A seek to frame 5 in that session
    stores the position 0 in the player and in the engine, and 0 is not in
    [[0, 0)]: no position is. *)
Lemma seek_on_empty_track_not_in_range :
  let path_exists := fun _ : string => @Ok bool true in
  let glob_wav := fun _ : string => @nil string in
  let sf_read := fun _ : string => @Ok (audio * Z) (Stereo [], 48000%Z) in
  let librosa_resample := fun (b : audio) (_ : Z) => Ok b in
  let build_player_ui := fun (_ : audio) (_ : Z) => Ok tt in
  let parse_device_id := fun _ : string => @Ok (option Z) None in
  let open_stream := fun (_ _ : option Z) (_ : Z) => Ok tt in
  let a :=
    {| karaoke_stream_active := false;
       karaoke_backing_track := Some "song_instrumental.wav"%string;
       karaoke_output_folder := None;
       karaoke_mic_var := "Default";
       karaoke_speaker_var := "Default";
       app_vu_meter := VUMeter.init;
       app_volume_var := 1 |} in
  let s := new_session (Stereo []) 48000 VUMeter.init 1 in
  let s' := seek 5 s in
  karaoke_record_mix path_exists glob_wav sf_read librosa_resample
    build_player_ui parse_device_id open_stream a = Running s [] 48000
  /\ KaraokePlayer.current_position (player s') = 0%Z
  /\ frame_idx (closure s') = 0%Z
  /\ ~ (0 <= KaraokePlayer.current_position (player s')
          < audio_len (Stereo []))%Z
  /\ ~ seek_is_clamped_into_track.
Proof.
  intros path_exists glob_wav sf_read librosa_resample build_player_ui
         parse_device_id open_stream a s s'.
  assert (Hpos : KaraokePlayer.current_position (player s') = 0%Z)
    by reflexivity.
  assert (Hout : ~ (0 <= KaraokePlayer.current_position (player s')
                      < audio_len (Stereo []))%Z).
  { rewrite Hpos. change (audio_len (Stereo [])) with 0%Z. lia. }
  split; [reflexivity |]. split; [exact Hpos |]. split; [reflexivity |].
  split; [exact Hout |].
  intros Hclaim. apply Hout.
  exact (Hclaim (Stereo []) 48000%Z VUMeter.init 1 5%Z).
Qed.

(** ** Clipping *)

Lemma clip_sample_inside (x : R) : -1 <= x <= 1 -> clip_sample (-1) 1 x = x.
Proof.
  intros H. unfold clip_sample, Rmin, Rmax.
  destruct (Rle_dec x (-1)); destruct (Rle_dec _ 1); lra.
Qed.

(** C3, the end-of-track branch evaluated.  A one-frame track has been
    played to its end with the volume at 2 (the top of the volume slider);
    the microphone delivers a full-scale sample and the board returns its
    input.  The callback writes that sample times 2, which is outside
    [[-1, 1]]: this branch does not clip. *)
Lemma end_of_track_output_not_clipped :
  let board := fun (_ : pedalboard) (b : block) (_ : Z) => Ok b in
  let track := [(0.5, 0.5)] in
  let s0 := new_session (Stereo track) 48000 VUMeter.init 2 in
  let s1 := fst (audio_callback board track 48000 [0] 1 0 s0) in
  let r := audio_callback board track 48000 [1] 1 1 s1 in
  frame_idx (closure s1) = py_len track
  /\ snd r = Ok [(1 * 2, 1 * 2)]
  /\ ~ block_in_range [(1 * 2, 1 * 2)].
Proof.
  intros board track s0 s1 r.
  assert (Hpos : frame_idx (closure s1) = py_len track).
  { subst s1. rewrite audio_callback_position. reflexivity. }
  split; [exact Hpos |]. split.
  - subst r.
    rewrite (audio_callback_end_of_track board track 48000 [1] 1 1 s1
               (mono_to_stereo [1])).
    + destruct (audio_callback_frame board track 48000 [0] 1 0 s0)
        as (_ & Hvol & _).
      fold s1 in Hvol. rewrite Hvol. reflexivity.
    + rewrite Hpos. apply Z.le_refl.
    + reflexivity.
    + reflexivity.
  - unfold block_in_range, sample_in_range. intros H.
    inversion H as [| f l [[_ Hhi] _] _]; subst. cbn in Hhi. lra.
Qed.

(** ** Pausing *)

(** The callback does not read the player's play/pause flag: toggling the
    flag before a callback or after it gives the same session and the
    same output. *)
Lemma audio_callback_ignores_is_playing
    (apply_board : pedalboard -> block -> Z -> result block)
    (backing_audio : block) (sr : Z)
    (indata : list R) (frames : Z) (now : R) (s : session) :
  KaraokePlayer.on_play_pause_callback (player s) = None ->
  let r := audio_callback apply_board backing_audio sr indata frames now s in
  audio_callback apply_board backing_audio sr indata frames now
    (toggle_play_pause s)
  = (toggle_play_pause (fst r), snd r).
Proof.
  intros Hnone r. subst r.
  unfold toggle_play_pause, lift_player, KaraokePlayer.toggle_play_pause.
  cbn [KaraokePlayer.on_play_pause_callback KaraokePlayer.with_is_playing
       KaraokePlayer.is_playing].
  rewrite Hnone. cbn [KaraokePlayer.notify].
  unfold audio_callback.
  cbn [closure player karaoke_vu_meter karaoke_volume_var].
  destruct (frame_idx (closure s) <? py_len backing_audio)%Z.
  - destruct (np_add _ _); cbn; rewrite Hnone; reflexivity.
  - destruct (apply_board _ _ _); [destruct (assign_outdata _ _) |];
      cbn; rewrite Hnone; reflexivity.
Qed.

(** C4, the callback evaluated on a paused session.  The play/pause button
    is pressed twice on a fresh two-frame session, leaving [is_playing]
    false; the microphone is silent and the board returns its input.  The
    callback moves the position from 0 to 1 and writes the first frame of
    the backing track, not silence. *)
Lemma paused_callback_still_plays :
  let board := fun (_ : pedalboard) (b : block) (_ : Z) => Ok b in
  let track := [(0.5, 0.5); (0.25, 0.25)] in
  let playing := toggle_play_pause (new_session (Stereo track) 48000 VUMeter.init 1) in
  let paused := toggle_play_pause playing in
  let r := audio_callback board track 48000 [0] 1 0 paused in
  KaraokePlayer.is_playing (player playing) = true
  /\ KaraokePlayer.is_playing (player paused) = false
  /\ frame_idx (closure paused) = 0%Z
  /\ frame_idx (closure (fst r)) = 1%Z
  /\ snd r = Ok [(0.5, 0.5)].
Proof.
  intros board track playing paused r.
  split; [reflexivity |]. split; [reflexivity |]. split; [reflexivity |].
  split.
  - subst r. rewrite audio_callback_position. reflexivity.
  - subst r. rewrite audio_callback_mid_track.
    + change (Ok (np_clip (-1) 1 [(0.5 + 0 * 1, 0.5 + 0 * 1)]) = Ok [(0.5, 0.5)]).
      unfold np_clip. cbn [map fst snd].
      replace (0.5 + 0 * 1) with 0.5 by lra.
      rewrite clip_sample_inside by lra. reflexivity.
    + cbn. lia.
    + reflexivity.
Qed.

(** ** Starting a session *)

Example backing_files_example :
  backing_files
    ["out/Song_Instrumental.wav"%string; "out/vocals.wav"%string;
     "backing/a.wav"%string; "out/my_BACKING.wav"%string]
  = ["out/Song_Instrumental.wav"%string; "out/my_BACKING.wav"%string].
Proof. reflexivity. Qed.

Section SessionStartFacts.

Variable path_exists : string -> result bool.
Variable glob_wav : string -> list string.
Variable sf_read : string -> result (audio * Z).
Variable librosa_resample : audio -> Z -> result audio.
Variable build_player_ui : audio -> Z -> result unit.
Variable parse_device_id : string -> result (option Z).
Variable open_stream : option Z -> option Z -> Z -> result unit.

Local Abbreviation resolve := (resolve_backing_track path_exists glob_wav).
Local Abbreviation prepare :=
  (prepare_session sf_read librosa_resample build_player_ui parse_device_id).
Local Abbreviation record_mix :=
  (karaoke_record_mix path_exists glob_wav sf_read librosa_resample
     build_player_ui parse_device_id open_stream).

(** A search that finds nothing ends in a warning. *)
Lemma resolve_missing (a : app) :
  needs_search path_exists a = true ->
  folder_search_empty path_exists glob_wav a ->
  exists w, resolve a = Ok (inl w).
Proof.
  intros Hneed Hempty. unfold resolve_backing_track, folder_search_empty in *.
  rewrite Hneed.
  destruct (karaoke_output_folder a) as [folder |]; [| now eexists].
  destruct (truthy (Some folder)) eqn:Htruthy; [| now eexists].
  destruct Hempty as [H | [H | [H1 H2]]].
  - discriminate H.
  - rewrite H. now eexists.
  - rewrite H1. cbn. rewrite H2. now eexists.
Qed.

(** The path a session loads is non-empty, and it is the stored path of
    an existing file or a file found in the output folder. *)
Lemma resolve_found (a : app) (track : string) :
  resolve a = Ok (inr track) ->
  track <> EmptyString
  /\ ((karaoke_backing_track a = Some track /\ path_exists track = Ok true)
      \/ exists folder,
           karaoke_output_folder a = Some folder
           /\ In track (backing_files (glob_wav folder))).
Proof.
  unfold resolve_backing_track.
  destruct (needs_search path_exists a) eqn:Hneed.
  - destruct (karaoke_output_folder a) as [folder |]; [| discriminate].
    destruct (truthy (Some folder)); [| discriminate].
    destruct (path_exists folder) as [[|] |]; cbn; try discriminate.
    destruct (backing_files (glob_wav folder)) as [| f rest] eqn:Hfiles; cbn;
      [discriminate |].
    destruct f as [| c f']; cbn; [discriminate |].
    intros H. injection H as <-. split; [discriminate |].
    right. exists folder. split; [reflexivity |]. rewrite Hfiles. now left.
  - cbn. unfold needs_search in Hneed.
    destruct (karaoke_backing_track a) as [p |]; cbn in *; [| discriminate].
    destruct p as [| c p']; cbn in *; [discriminate |].
    intros H. injection H as <-. split; [discriminate |].
    left. split; [reflexivity |].
    destruct (path_exists (String c p')) as [[|] |]; cbn in Hneed;
      [reflexivity | discriminate | discriminate].
Qed.

(** A track that does not decode stops the start before the stream. *)
Lemma undecodable_track_fails_before_stream (a : app) (track : string) (e : exn) :
  karaoke_stream_active a = false ->
  resolve a = Ok (inr track) ->
  sf_read track = Raise e ->
  record_mix a = StartFailed e.
Proof.
  intros Hidle Hres Hread.
  unfold karaoke_record_mix, start_karaoke, prepare_session.
  rewrite Hidle, Hres, Hread. reflexivity.
Qed.

(** The stream-open step is reached only with a located backing track
    that decoded. *)
Lemma stream_open_needs_decoded_track (a : app) :
  reaches_stream_open (record_mix a) = true ->
  exists track decoded sr0,
    resolve a = Ok (inr track) /\ sf_read track = Ok (decoded, sr0).
Proof.
  unfold karaoke_record_mix.
  destruct (karaoke_stream_active a); [discriminate |].
  destruct (resolve a) as [[w | track] | e] eqn:Hres; try discriminate.
  unfold start_karaoke, prepare_session.
  destruct (sf_read track) as [[decoded sr0] | e] eqn:Hread;
    [| cbn; discriminate].
  intros _. exists track, decoded, sr0.
  split; [first [exact Hres | reflexivity] | exact Hread].
Qed.

(** C8, amended.  With no stream running, a press for which the stored
    path is unusable and the search of the output folder finds nothing
    ends in a warning, and the stream-open step is not reached. *)
Theorem missing_backing_track_is_rejected (a : app) :
  karaoke_stream_active a = false ->
  needs_search path_exists a = true ->
  folder_search_empty path_exists glob_wav a ->
  (exists w, record_mix a = Rejected w)
  /\ reaches_stream_open (record_mix a) = false.
Proof.
  intros Hidle Hneed Hempty.
  destruct (resolve_missing a Hneed Hempty) as [w Hw].
  assert (H : record_mix a = Rejected w).
  { unfold karaoke_record_mix. now rewrite Hidle, Hw. }
  split; [now exists w | now rewrite H].
Qed.

End SessionStartFacts.

Lemma missing_backing_track_is_rejected_witness :
  let path_exists := fun _ : string => @Ok bool false in
  let glob_wav := fun _ : string => @nil string in
  let sf_read := fun _ : string => @Raise (audio * Z) (LibraryError "no file") in
  let librosa_resample := fun (b : audio) (_ : Z) => Ok b in
  let build_player_ui := fun (_ : audio) (_ : Z) => Ok tt in
  let parse_device_id := fun _ : string => @Ok (option Z) None in
  let open_stream := fun (_ _ : option Z) (_ : Z) => Ok tt in
  let a :=
    {| karaoke_stream_active := false;
       karaoke_backing_track := None;
       karaoke_output_folder := Some "out"%string;
       karaoke_mic_var := "Default";
       karaoke_speaker_var := "Default";
       app_vu_meter := VUMeter.init;
       app_volume_var := 1 |} in
  needs_search path_exists a = true
  /\ (exists w,
        karaoke_record_mix path_exists glob_wav sf_read librosa_resample
          build_player_ui parse_device_id open_stream a = Rejected w)
  /\ reaches_stream_open
       (karaoke_record_mix path_exists glob_wav sf_read librosa_resample
          build_player_ui parse_device_id open_stream a) = false.
Proof.
  intros path_exists glob_wav sf_read librosa_resample build_player_ui
         parse_device_id open_stream a.
  assert (Hidle : karaoke_stream_active a = false) by reflexivity.
  assert (Hneed : needs_search path_exists a = true) by reflexivity.
  assert (Hempty : folder_search_empty path_exists glob_wav a).
  { cbn. right. left. reflexivity. }
  split; [exact Hneed |].
  exact (missing_backing_track_is_rejected path_exists glob_wav sf_read
           librosa_resample build_player_ui parse_device_id open_stream a
           Hidle Hneed Hempty).
Defined.

(** C8, refuted for the zero-length track.  The stored path names an
    existing file that decodes to zero frames at 48 kHz; nothing else
    fails.  The press builds the session and opens the stream on an empty
    backing track. *)
Lemma zero_length_track_reaches_stream_open :
  let path_exists := fun _ : string => @Ok bool true in
  let glob_wav := fun _ : string => @nil string in
  let sf_read := fun _ : string => @Ok (audio * Z) (Stereo [], 48000%Z) in
  let librosa_resample := fun (b : audio) (_ : Z) => Ok b in
  let build_player_ui := fun (_ : audio) (_ : Z) => Ok tt in
  let parse_device_id := fun _ : string => @Ok (option Z) None in
  let open_stream := fun (_ _ : option Z) (_ : Z) => Ok tt in
  let a :=
    {| karaoke_stream_active := false;
       karaoke_backing_track := Some "song_instrumental.wav"%string;
       karaoke_output_folder := None;
       karaoke_mic_var := "Default";
       karaoke_speaker_var := "Default";
       app_vu_meter := VUMeter.init;
       app_volume_var := 1 |} in
  let o :=
    karaoke_record_mix path_exists glob_wav sf_read librosa_resample
      build_player_ui parse_device_id open_stream a in
  o = Running (new_session (Stereo []) 48000 VUMeter.init 1) [] 48000
  /\ reaches_stream_open o = true
  /\ audio_len (Stereo []) = 0%Z.
Proof.
  intros. subst o. split; [reflexivity |]. split; reflexivity.
Qed.

(** ** The position never goes negative *)

Lemma new_session_position (backing : audio) (sr : Z) (vu : VUMeter.t) (volume : R) :
  frame_idx (closure (new_session backing sr vu volume)) = 0%Z
  /\ KaraokePlayer.on_seek_callback (player (new_session backing sr vu volume))
     = Some on_seek
  /\ audio_len (KaraokePlayer.backing_audio (player (new_session backing sr vu volume)))
     = py_len (to_stereo backing).
Proof.
  split; [reflexivity |]. split; [reflexivity |].
  cbn. symmetry. apply to_stereo_length.
Qed.

Lemma audio_callback_position_nonneg
    (apply_board : pedalboard -> block -> Z -> result block)
    (backing_audio : block) (sr : Z)
    (indata : list R) (frames : Z) (now : R) (s : session) :
  (0 <= frames)%Z -> (0 <= frame_idx (closure s))%Z ->
  (0 <= frame_idx
          (closure (fst (audio_callback apply_board backing_audio sr
                           indata frames now s))))%Z.
Proof.
  intros Hf Hp. rewrite audio_callback_position.
  pose proof (py_len_nonneg backing_audio).
  destruct (frame_idx (closure s) <? py_len backing_audio)%Z; lia.
Qed.

Lemma seek_position_nonneg (target : Z) (s : session) :
  KaraokePlayer.on_seek_callback (player s) = Some on_seek ->
  (0 <= frame_idx (closure (seek target s)))%Z.
Proof.
  intros Hwired. unfold seek, lift_player, KaraokePlayer.seek_to.
  cbn. rewrite Hwired. cbn. lia.
Qed.

(** * Further properties *)

(** ** The level meter: scale, saturation and peak hold *)

Lemma db_to_x_low (db x_start width : R) :
  db <= -60 -> VUDraw.db_to_x db x_start width = x_start.
Proof.
  intros H. unfold VUDraw.db_to_x.
  destruct (Rle_dec db (-60)); [reflexivity | lra].
Qed.

Lemma db_to_x_high (db x_start width : R) :
  0 <= db -> VUDraw.db_to_x db x_start width = x_start + width.
Proof.
  intros H. unfold VUDraw.db_to_x.
  destruct (Rle_dec db (-60)); [lra |].
  destruct (Rge_dec db 0); [reflexivity | lra].
Qed.

Lemma db_to_x_inside (db x_start width : R) :
  -60 < db < 0 ->
  VUDraw.db_to_x db x_start width = x_start + (db + 60) / 60 * width.
Proof.
  intros H. unfold VUDraw.db_to_x.
  destruct (Rle_dec db (-60)); [lra |].
  destruct (Rge_dec db 0); [lra |].
  f_equal. f_equal. lra.
Qed.

Lemma db_to_x_mono (db1 db2 x_start width : R) :
  0 <= width -> db1 <= db2 ->
  VUDraw.db_to_x db1 x_start width <= VUDraw.db_to_x db2 x_start width.
Proof.
  intros Hw Hle.
  destruct (Rle_dec db1 (-60)) as [L1 | L1];
    destruct (Rle_dec db2 (-60)) as [L2 | L2];
    destruct (Rle_dec 0 db1) as [H1 | H1];
    destruct (Rle_dec 0 db2) as [H2 | H2]; try lra;
    rewrite ?(db_to_x_low db1), ?(db_to_x_low db2),
            ?(db_to_x_high db1), ?(db_to_x_high db2),
            ?(db_to_x_inside db1), ?(db_to_x_inside db2) by lra;
    try lra; nra.
Qed.

(** X1.  For a non-negative width, [db_to_x] maps every level into the
    meter's extent [[x_start, x_start + width]], sends -60 and everything
    below to the left end and 0 and everything above to the right end,
    and never maps a higher level to the left of a lower one. *)
Theorem db_to_x_within_meter (db1 db2 x_start width : R) :
  0 <= width ->
  db1 <= db2 ->
  x_start <= VUDraw.db_to_x db1 x_start width <= x_start + width
  /\ VUDraw.db_to_x db1 x_start width <= VUDraw.db_to_x db2 x_start width
  /\ VUDraw.db_to_x (py_min db1 (-60)) x_start width = x_start
  /\ VUDraw.db_to_x (py_max db1 0) x_start width = x_start + width.
Proof.
  intros Hw Hle.
  split; [| split; [| split]].
  - split.
    + rewrite <- (db_to_x_low (py_min db1 (-60)) x_start width) at 1.
      * apply db_to_x_mono; [exact Hw |].
        unfold py_min. destruct (Rlt_dec (-60) db1); lra.
      * unfold py_min. destruct (Rlt_dec (-60) db1); lra.
    + rewrite <- (db_to_x_high (py_max db1 0) x_start width).
      * apply db_to_x_mono; [exact Hw |].
        unfold py_max. destruct (Rlt_dec db1 0); lra.
      * unfold py_max. destruct (Rlt_dec db1 0); lra.
  - now apply db_to_x_mono.
  - apply db_to_x_low. unfold py_min. destruct (Rlt_dec (-60) db1); lra.
  - apply db_to_x_high. unfold py_max. destruct (Rlt_dec db1 0); lra.
Qed.

Lemma db_to_x_within_meter_witness :
  50 <= VUDraw.db_to_x (-20) 50 300 <= 50 + 300
  /\ VUDraw.db_to_x (-20) 50 300 <= VUDraw.db_to_x (-6) 50 300.
Proof.
  assert (Hw : 0 <= 300) by lra.
  assert (Hle : -20 <= -6) by lra.
  destruct (db_to_x_within_meter (-20) (-6) 50 300 Hw Hle) as (H1 & H2 & _).
  exact (conj H1 H2).
Defined.

Lemma clamp_mono (x y : R) :
  x <= y -> py_max (-60) (py_min 0 x) <= py_max (-60) (py_min 0 y).
Proof.
  intros H. unfold py_max, py_min.
  destruct (Rlt_dec x 0); destruct (Rlt_dec y 0);
    repeat match goal with
           | |- context [Rlt_dec ?a ?b] => destruct (Rlt_dec a b)
           end; lra.
Qed.

Lemma log10_mono (a b : R) : 0 < a -> a <= b -> log10 a <= log10 b.
Proof.
  intros Ha Hab. unfold log10. pose proof ln_10_pos as H10.
  assert (Hln : ln a <= ln b).
  { destruct Hab as [Hlt | ->]; [left; apply ln_increasing; assumption | lra]. }
  apply Rmult_le_compat_r; [left; now apply Rinv_0_lt_compat | exact Hln].
Qed.

(** X2.  A larger amplitude never reads lower on the meter. *)
Theorem amplitude_to_db_monotone (a b : R) :
  a <= b -> VUMeter.amplitude_to_db a <= VUMeter.amplitude_to_db b.
Proof.
  intros Hab. unfold VUMeter.amplitude_to_db.
  destruct (Rle_dec a 0) as [Ha | Ha]; destruct (Rle_dec b 0) as [Hb | Hb].
  - lra.
  - pose proof (clamp_on_scale (20 * log10 b)) as [H _]. exact H.
  - lra.
  - apply clamp_mono.
    apply Rmult_le_compat_l; [lra |]. apply log10_mono; lra.
Qed.

Lemma amplitude_to_db_monotone_witness :
  0.25 <= 0.5 /\ VUMeter.amplitude_to_db 0.25 <= VUMeter.amplitude_to_db 0.5.
Proof.
  assert (H : 0.25 <= 0.5) by lra.
  exact (conj H (amplitude_to_db_monotone 0.25 0.5 H)).
Defined.

Lemma ln_thousandth : ln (/ 1000) = - (3 * ln 10).
Proof.
  rewrite ln_Rinv by lra.
  replace 1000 with (10 * (10 * 10)) by lra.
  rewrite !ln_mult by lra. lra.
Qed.

(** For a positive amplitude, its level in dB is at most -60 exactly when
    the amplitude is at most 0.001, and at least 0 exactly when it is at
    least 1. *)
Lemma log10_thresholds (a : R) :
  0 < a ->
  (20 * log10 a <= -60 <-> a <= / 1000)
  /\ (0 <= 20 * log10 a <-> 1 <= a).
Proof.
  intros Ha. pose proof ln_10_pos as H10. unfold log10.
  assert (Hdb : 20 * (ln a / ln 10) * ln 10 = 20 * ln a) by (field; lra).
  split; split; intros H.
  - assert (Hln : ln a <= ln (/ 1000)) by (rewrite ln_thousandth; nra).
    destruct (Rle_dec a (/ 1000)) as [Hle | Hgt]; [exact Hle |].
    assert (ln (/ 1000) < ln a) by (apply ln_increasing; lra). lra.
  - assert (Hln : ln a <= ln (/ 1000)).
    { destruct H as [Hlt | ->]; [left; apply ln_increasing; lra | lra]. }
    rewrite ln_thousandth in Hln. nra.
  - assert (Hln : ln 1 <= ln a) by (rewrite ln_1; nra).
    destruct (Rle_dec 1 a) as [Hle | Hgt]; [exact Hle |].
    assert (ln a < ln 1) by (apply ln_increasing; lra). lra.
  - assert (Hln : ln 1 <= ln a).
    { destruct H as [Hlt | <-]; [left; apply ln_increasing; lra | lra]. }
    rewrite ln_1 in Hln.
    assert (0 <= ln a / ln 10).
    { apply Rmult_le_pos; [exact Hln | left; now apply Rinv_0_lt_compat]. }
    lra.
Qed.

(** X3.  The meter reads its floor of -60 exactly for amplitudes of at most
    0.001 (zero and negative ones included), and its top of 0 exactly for
    amplitudes of at least 1. *)
Theorem amplitude_to_db_saturation (a : R) :
  (VUMeter.amplitude_to_db a = -60 <-> a <= / 1000)
  /\ (VUMeter.amplitude_to_db a = 0 <-> 1 <= a).
Proof.
  unfold VUMeter.amplitude_to_db.
  destruct (Rle_dec a 0) as [Ha | Ha].
  - split; split; intros H; try reflexivity; lra.
  - destruct (log10_thresholds a) as [[L1 L2] [T1 T2]]; [lra |].
    unfold py_max, py_min.
    destruct (Rlt_dec (20 * log10 a) 0);
      repeat match goal with
             | |- context [Rlt_dec ?x ?y] => destruct (Rlt_dec x y)
             end;
      split; split; intros H; try lra;
      try (apply L1; lra); try (apply T1; lra);
      try (apply L2 in H; lra); try (apply T2 in H; lra).
Qed.

(** A peak is at most half a decibel below its level after [set_levels]. *)
Lemma set_levels_peak_trails (now l r : R) (m : VUMeter.t) :
  0 < VUMeter.peak_hold_time m ->
  let m' := VUMeter.set_levels now l r m in
  VUMeter.left_level m' - 0.5 <= VUMeter.left_peak m'
  /\ VUMeter.right_level m' - 0.5 <= VUMeter.right_peak m'.
Proof.
  intros Hhold. unfold VUMeter.set_levels.
  generalize (py_max (-60) (py_min 0 l)) (py_max (-60) (py_min 0 r)).
  intros cl cr. unfold py_max.
  destruct (Rlt_dec (VUMeter.left_peak m) cl);
    destruct (Rlt_dec (VUMeter.right_peak m) cr);
    cbn [VUMeter.left_level VUMeter.right_level
         VUMeter.left_peak VUMeter.right_peak];
    repeat match goal with
           | |- context [if ?c then _ else _] => destruct c
           end;
    split; lra.
Qed.

(** X4.  Whatever calls a fresh meter has received, each peak is at most
    0.5 dB below the level of its channel: the marker may trail the bar by
    one decay step, never by more. *)
Theorem vu_meter_peak_trails_level (ops : list VUMeter.op) :
  let m := VUMeter.run ops VUMeter.init in
  VUMeter.left_level m - 0.5 <= VUMeter.left_peak m
  /\ VUMeter.right_level m - 0.5 <= VUMeter.right_peak m.
Proof.
  cbv zeta.
  assert (Hgen : forall ops m,
             0 < VUMeter.peak_hold_time m ->
             VUMeter.left_level m - 0.5 <= VUMeter.left_peak m
             /\ VUMeter.right_level m - 0.5 <= VUMeter.right_peak m ->
             VUMeter.left_level (VUMeter.run ops m) - 0.5
               <= VUMeter.left_peak (VUMeter.run ops m)
             /\ VUMeter.right_level (VUMeter.run ops m) - 0.5
               <= VUMeter.right_peak (VUMeter.run ops m)).
  { clear ops. unfold VUMeter.run.
    induction ops as [| o ops IH]; intros m Hhold Hm; cbn [fold_left];
      [exact Hm |].
    apply IH.
    - change (VUMeter.step m o) with (VUMeter.run [o] m).
      now rewrite run_peak_hold_time.
    - destruct o; cbn [VUMeter.step].
      + now apply set_levels_peak_trails.
      + now apply set_levels_peak_trails.
      + cbn. lra. }
  apply Hgen; cbn; lra.
Qed.

(** X5.  Peak hold.  With a non-negative hold time, a call of [set_levels]
    made no later than the hold time after the peak was set does not lower
    the peak; a later call whose level does not exceed the peak lowers it
    by 0.5 dB, but not below -60. *)
Theorem vu_meter_peak_hold (now l r : R) (m : VUMeter.t) :
  0 <= VUMeter.peak_hold_time m ->
  let m' := VUMeter.set_levels now l r m in
  (now - VUMeter.last_peak_time_L m <= VUMeter.peak_hold_time m ->
   VUMeter.left_peak m <= VUMeter.left_peak m')
  /\ (VUMeter.peak_hold_time m < now - VUMeter.last_peak_time_L m ->
      py_max (-60) (py_min 0 l) <= VUMeter.left_peak m ->
      VUMeter.left_peak m' = py_max (VUMeter.left_peak m - 0.5) (-60))
  /\ (now - VUMeter.last_peak_time_R m <= VUMeter.peak_hold_time m ->
      VUMeter.right_peak m <= VUMeter.right_peak m')
  /\ (VUMeter.peak_hold_time m < now - VUMeter.last_peak_time_R m ->
      py_max (-60) (py_min 0 r) <= VUMeter.right_peak m ->
      VUMeter.right_peak m' = py_max (VUMeter.right_peak m - 0.5) (-60)).
Proof.
  intros Hhold. unfold VUMeter.set_levels.
  generalize (py_max (-60) (py_min 0 l)) (py_max (-60) (py_min 0 r)).
  intros cl cr.
  destruct (Rlt_dec (VUMeter.left_peak m) cl);
    destruct (Rlt_dec (VUMeter.right_peak m) cr);
    cbn [VUMeter.left_level VUMeter.right_level
         VUMeter.left_peak VUMeter.right_peak];
    repeat match goal with
           | |- context [if ?c then _ else _] => destruct c
           end;
    (split; [| split; [| split]]); intros; try reflexivity; lra.
Qed.

Lemma vu_meter_peak_hold_witness :
  let m := VUMeter.set_levels 10 (-12) (-12) VUMeter.init in
  let m' := VUMeter.set_levels 11 (-30) (-30) m in
  0 <= VUMeter.peak_hold_time m
  /\ (11 - VUMeter.last_peak_time_L m <= VUMeter.peak_hold_time m ->
      VUMeter.left_peak m <= VUMeter.left_peak m').
Proof.
  intros m m'.
  assert (H : 0 <= VUMeter.peak_hold_time m).
  { subst m. change (VUMeter.set_levels 10 (-12) (-12) VUMeter.init)
      with (VUMeter.run [VUMeter.SetLevels 10 (-12) (-12)] VUMeter.init).
    rewrite run_peak_hold_time. cbn. lra. }
  split; [exact H |].
  exact (proj1 (vu_meter_peak_hold 11 (-30) (-30) m H)).
Defined.

(** ** The level meter: the drawn bar *)

Lemma db_to_x_zone_bounds (x width : R) :
  VUDraw.db_to_x (-60) x width = x
  /\ VUDraw.db_to_x (-18) x width = x + 42 / 60 * width
  /\ VUDraw.db_to_x (-6) x width = x + 54 / 60 * width
  /\ VUDraw.db_to_x 0 x width = x + width.
Proof.
  split; [apply db_to_x_low; lra |].
  split; [rewrite db_to_x_inside by lra; f_equal; f_equal; lra |].
  split; [rewrite db_to_x_inside by lra; f_equal; f_equal; lra |].
  apply db_to_x_high; lra.
Qed.

(** X6.  For a level on the scale and a positive width, the coloured
    rectangles of the level bar follow one another without gap or overlap
    from the left end of the meter to the position of the level, each with
    a positive width; at -60 nothing is drawn. *)
Theorem level_bar_tiles (level x y width height : R) :
  0 < width ->
  -60 <= level <= 0 ->
  VUDraw.tiles x
    (VUDraw.spans (VUDraw.level_bar level x y width height))
    (VUDraw.db_to_x level x width).
Proof.
  intros Hw Hlevel.
  destruct (db_to_x_zone_bounds x width) as (E60 & E18 & E6 & E0).
  unfold VUDraw.level_bar, VUDraw.zones. cbn [flat_map].
  unfold VUDraw.zone_segment. rewrite E60, E18, E6, E0.
  assert (Hx : VUDraw.db_to_x level x width = x + (level + 60) / 60 * width).
  { destruct (Req_dec_T level (-60)) as [-> | Hlo].
    - rewrite E60. lra.
    - destruct (Req_dec_T level 0) as [-> | Hhi].
      + rewrite E0. lra.
      + apply db_to_x_inside. lra. }
  rewrite Hx. clear E60 E18 E6 E0 Hx.
  set (t := (level + 60) / 60 * width).
  assert (Ht18 : t - 42 / 60 * width = (level + 18) * width / 60)
    by (subst t; field).
  assert (Ht6 : t - 54 / 60 * width = (level + 6) * width / 60)
    by (subst t; field).
  assert (Ht60 : t = (level + 60) * width / 60) by (subst t; field).
  assert (Ht0 : t - width = level * width / 60) by (subst t; field).
  unfold py_min.
  repeat match goal with
         | |- context [Rlt_dec ?a ?b] => destruct (Rlt_dec a b)
         end;
    repeat match goal with
           | |- context [Rge_dec ?a ?b] => destruct (Rge_dec a b)
           | |- context [Rgt_dec ?a ?b] => destruct (Rgt_dec a b)
           end;
    repeat match goal with
           | H : _ >= _ |- _ => apply Rge_le in H
           | H : ~ _ >= _ |- _ => apply Rnot_ge_lt in H
           | H : _ > _ |- _ => apply Rgt_lt in H
           | H : ~ _ > _ |- _ => apply Rnot_gt_le in H
           end;
    cbn [VUDraw.spans VUDraw.tiles List.app];
    repeat split; try reflexivity; nra.
Qed.

Lemma level_bar_tiles_witness :
  VUDraw.tiles 50
    (VUDraw.spans (VUDraw.level_bar (-12) 50 10 300 25))
    (VUDraw.db_to_x (-12) 50 300).
Proof.
  apply level_bar_tiles; lra.
Defined.

(** ** The player: skipping *)

Lemma seek_positions (target : Z) (s : session) :
  KaraokePlayer.on_seek_callback (player s) = Some on_seek ->
  let c :=
    Z.max 0 (Z.min target
               (audio_len (KaraokePlayer.backing_audio (player s)) - 1)) in
  KaraokePlayer.current_position (player (seek target s)) = c
  /\ frame_idx (closure (seek target s)) = c
  /\ KaraokePlayer.on_seek_callback (player (seek target s)) = Some on_seek
  /\ KaraokePlayer.backing_audio (player (seek target s))
     = KaraokePlayer.backing_audio (player s)
  /\ KaraokePlayer.sample_rate (player (seek target s))
     = KaraokePlayer.sample_rate (player s).
Proof.
  intros Hwired. unfold seek, lift_player, KaraokePlayer.seek_to.
  cbn. rewrite Hwired. cbn. repeat split; reflexivity.
Qed.

Lemma skip_forward_is_seek (s : session) :
  skip_forward s
  = seek (KaraokePlayer.current_position (player s)
          + 5 * KaraokePlayer.sample_rate (player s)) s.
Proof. reflexivity. Qed.

Lemma skip_backward_is_seek (s : session) :
  skip_backward s
  = seek (KaraokePlayer.current_position (player s)
          - 5 * KaraokePlayer.sample_rate (player s)) s.
Proof. reflexivity. Qed.

(** X7.  On a wired session whose track has at least one frame, either
    skip leaves the player's position on the track, in [[0, L - 1]], and
    the engine at the same frame; a skip forward that would pass the last
    frame lands on it, and a skip backward that would pass the start lands
    on frame 0. *)
Theorem skip_stays_on_track (s : session) :
  KaraokePlayer.on_seek_callback (player s) = Some on_seek ->
  (1 <= audio_len (KaraokePlayer.backing_audio (player s)))%Z ->
  let len := audio_len (KaraokePlayer.backing_audio (player s)) in
  let pos := KaraokePlayer.current_position (player s) in
  let five := (5 * KaraokePlayer.sample_rate (player s))%Z in
  let fwd := skip_forward s in
  let bwd := skip_backward s in
  (0 <= KaraokePlayer.current_position (player fwd) <= len - 1)%Z
  /\ frame_idx (closure fwd) = KaraokePlayer.current_position (player fwd)
  /\ (0 <= KaraokePlayer.current_position (player bwd) <= len - 1)%Z
  /\ frame_idx (closure bwd) = KaraokePlayer.current_position (player bwd)
  /\ ((len - 1 <= pos + five)%Z ->
      KaraokePlayer.current_position (player fwd) = (len - 1)%Z)
  /\ ((pos - five <= 0)%Z ->
      KaraokePlayer.current_position (player bwd) = 0%Z).
Proof.
  intros Hwired Hlen len pos five fwd bwd.
  subst fwd bwd. rewrite skip_forward_is_seek, skip_backward_is_seek.
  destruct (seek_positions (pos + five) s Hwired) as (Hf1 & Hf2 & _).
  destruct (seek_positions (pos - five) s Hwired) as (Hb1 & Hb2 & _).
  fold pos five. rewrite Hf1, Hf2, Hb1, Hb2. fold len.
  repeat split; lia.
Qed.

Lemma skip_stays_on_track_witness :
  let track := [(0.1, 0.1); (0.2, 0.2); (0.3, 0.3)] in
  let s := new_session (Stereo track) 48000 VUMeter.init 1 in
  KaraokePlayer.current_position (player (skip_forward s)) = 2%Z
  /\ frame_idx (closure (skip_forward s)) = 2%Z
  /\ KaraokePlayer.current_position (player (skip_backward s)) = 0%Z.
Proof.
  intros track s.
  assert (Hwired : KaraokePlayer.on_seek_callback (player s) = Some on_seek)
    by reflexivity.
  assert (Hlen : (1 <= audio_len (KaraokePlayer.backing_audio (player s)))%Z)
    by (cbn; lia).
  pose proof (skip_stays_on_track s Hwired Hlen) as H. cbv zeta in H.
  destruct H as (_ & Heng & _ & _ & Hf & Hb).
  assert (Hfwd : KaraokePlayer.current_position (player (skip_forward s)) = 2%Z)
    by (apply Hf; cbn; lia).
  split; [exact Hfwd |]. split; [now rewrite Heng |].
  apply Hb. cbn. lia.
Defined.

(** X8.  Skipping forward and then backward returns the player and the
    engine to the position the player showed, when the five seconds ahead
    are still on the track. *)
Theorem skip_forward_then_backward (s : session) :
  KaraokePlayer.on_seek_callback (player s) = Some on_seek ->
  (0 <= KaraokePlayer.sample_rate (player s))%Z ->
  (0 <= KaraokePlayer.current_position (player s))%Z ->
  (KaraokePlayer.current_position (player s)
   + 5 * KaraokePlayer.sample_rate (player s)
   <= audio_len (KaraokePlayer.backing_audio (player s)) - 1)%Z ->
  let s' := skip_backward (skip_forward s) in
  KaraokePlayer.current_position (player s')
  = KaraokePlayer.current_position (player s)
  /\ frame_idx (closure s') = KaraokePlayer.current_position (player s).
Proof.
  intros Hwired Hsr Hpos Hroom s'. subst s'.
  rewrite skip_backward_is_seek, skip_forward_is_seek.
  destruct (seek_positions
              (KaraokePlayer.current_position (player s)
               + 5 * KaraokePlayer.sample_rate (player s)) s Hwired)
    as (Hf1 & _ & Hw' & Ha' & Hs').
  set (s1 := seek _ s) in *.
  destruct (seek_positions
              (KaraokePlayer.current_position (player s1)
               - 5 * KaraokePlayer.sample_rate (player s1)) s1 Hw')
    as (Hb1 & Hb2 & _).
  rewrite Hb1, Hb2, Ha', Hs', Hf1. split; lia.
Qed.

Lemma skip_forward_then_backward_witness :
  let track := repeat (0.1, 0.1) 12 in
  let s := seek 3 (new_session (Stereo track) 1 VUMeter.init 1) in
  KaraokePlayer.current_position (player (skip_backward (skip_forward s))) = 3%Z
  /\ frame_idx (closure (skip_backward (skip_forward s))) = 3%Z.
Proof.
  intros track s.
  apply (skip_forward_then_backward s).
  - reflexivity.
  - cbn. lia.
  - cbn. lia.
  - cbn. lia.
Defined.

(** ** The player: the time display *)

Lemma py_trunc_IZR (z : Z) : py_trunc (IZR z) = z.
Proof.
  unfold py_trunc. destruct (Rle_dec 0 (IZR z)).
  - apply ZfloorZ.
  - unfold Zceil. rewrite ZfloorNZ. lia.
Qed.

Lemma py_trunc_nonneg (x : R) : 0 <= x -> py_trunc x = Zfloor x.
Proof.
  intros H. unfold py_trunc. destruct (Rle_dec 0 x); [reflexivity | lra].
Qed.

Lemma py_mod_60_range (seconds : R) : 0 <= py_mod seconds 60 < 60.
Proof.
  unfold py_mod. pose proof (Zfloor_bound (seconds / 60)) as [Hlo Hhi].
  split; lra.
Qed.

Lemma format_02d_two_chars (z : Z) :
  (0 <= z <= 99)%Z -> String.length (format_02d z) = 2%nat.
Proof.
  intros Hz.
  assert (Hall : forallb
                   (fun n => Nat.eqb (String.length (format_02d (Z.of_nat n))) 2)
                   (seq 0 100) = true) by (vm_compute; reflexivity).
  rewrite forallb_forall in Hall.
  specialize (Hall (Z.to_nat z)).
  rewrite Z2Nat.id in Hall by lia.
  apply Nat.eqb_eq, Hall, in_seq. lia.
Qed.

Lemma string_length_append (a b : string) :
  String.length (a ++ b)%string = (String.length a + String.length b)%nat.
Proof. induction a as [| c a IH]; cbn; [reflexivity | now rewrite IH]. Qed.

(** X9.  [format_time] shows whole seconds: for every time from 0 on, the
    minutes field is not negative, the seconds field is between 0 and 59
    and sixty times the minutes field plus the seconds field is the time
    rounded down; for a time below 100 minutes the text has the five
    characters of MM:SS. *)
Theorem format_time_shows_whole_seconds (seconds : R) :
  0 <= seconds ->
  let mins := fst (PlayerDisplay.time_parts seconds) in
  let secs := snd (PlayerDisplay.time_parts seconds) in
  (0 <= mins)%Z
  /\ (0 <= secs <= 59)%Z
  /\ (60 * mins + secs)%Z = Zfloor seconds
  /\ (seconds < 6000 ->
      String.length (PlayerDisplay.format_time seconds) = 5%nat).
Proof.
  intros Hnonneg.
  cbv zeta. unfold PlayerDisplay.time_parts. cbn [fst snd].
  unfold py_floordiv. rewrite py_trunc_IZR.
  pose proof (py_mod_60_range seconds) as Hmod.
  rewrite py_trunc_nonneg by lra.
  set (q := Zfloor (seconds / 60)).
  assert (Hsum : (60 * q + Zfloor (py_mod seconds 60))%Z = Zfloor seconds).
  { replace seconds with (py_mod seconds 60 + IZR (60 * q)) at 2.
    - rewrite Zfloor_addz. lia.
    - unfold py_mod. fold q. rewrite mult_IZR. lra. }
  assert (Hsecs : (0 <= Zfloor (py_mod seconds 60) <= 59)%Z).
  { split.
    - apply (Zfloor_lub 0). cbn. lra.
    - pose proof (Zfloor_bound (py_mod seconds 60)) as [Hlo _].
      assert (IZR (Zfloor (py_mod seconds 60)) < IZR 60) by (cbn; lra).
      apply lt_IZR in H. lia. }
  assert (Hq0 : (0 <= q)%Z).
  { subst q. apply (Zfloor_lub 0). cbn. lra. }
  split; [exact Hq0 |]. split; [exact Hsecs |]. split; [exact Hsum |].
  intros Hrange.
  assert (Hq : (0 <= q <= 99)%Z).
  { pose proof (Zfloor_bound (seconds / 60)) as [Hlo Hhi]. fold q in Hlo, Hhi.
    split; [exact Hq0 |].
    assert (IZR q < IZR 100) by (cbn; lra).
    apply lt_IZR in H. lia. }
  unfold PlayerDisplay.format_time, PlayerDisplay.time_parts, py_floordiv.
  fold q. rewrite py_trunc_IZR, py_trunc_nonneg by lra.
  rewrite !string_length_append, !format_02d_two_chars by lia.
  reflexivity.
Qed.

Lemma format_time_shows_whole_seconds_witness :
  let mins := fst (PlayerDisplay.time_parts 125.5) in
  let secs := snd (PlayerDisplay.time_parts 125.5) in
  0 <= 125.5
  /\ (0 <= mins)%Z
  /\ (0 <= secs <= 59)%Z
  /\ (60 * mins + secs)%Z = Zfloor 125.5
  /\ String.length (PlayerDisplay.format_time 125.5) = 5%nat.
Proof.
  assert (H : 0 <= 125.5) by lra.
  destruct (format_time_shows_whole_seconds 125.5 H) as (Hm & Hs & Hsum & Hlen).
  refine (conj H (conj Hm (conj Hs (conj Hsum (Hlen _))))). lra.
Defined.

(** ** The player: lyrics *)

Lemma covers_spec (t : R) (s : PlayerDisplay.segment) :
  PlayerDisplay.covers t s = true
  <-> PlayerDisplay.seg_start s <= t < PlayerDisplay.seg_end s.
Proof.
  unfold PlayerDisplay.covers.
  destruct (Rle_dec (PlayerDisplay.seg_start s) t);
    destruct (Rlt_dec t (PlayerDisplay.seg_end s));
    split; intros H; try reflexivity; try discriminate; lra.
Qed.

(** The search loop returns the first covering segment. *)
Lemma find_current_first (t : R) (segs : list PlayerDisplay.segment)
    (i k : nat) (seg : PlayerDisplay.segment) :
  nth_error segs k = Some seg ->
  PlayerDisplay.covers t seg = true ->
  (forall j seg', (j < k)%nat -> nth_error segs j = Some seg' ->
                  PlayerDisplay.covers t seg' = false) ->
  PlayerDisplay.find_current t segs i = Some (i + k)%nat.
Proof.
  revert i k. induction segs as [| s segs IH]; intros i k Hk Hcov Hbefore.
  - destruct k; discriminate Hk.
  - destruct k as [| k]; cbn in Hk |- *.
    + injection Hk as ->. rewrite Hcov. f_equal. lia.
    + rewrite (Hbefore 0%nat s); [| lia | reflexivity].
      rewrite (IH (S i) k Hk Hcov).
      * f_equal. lia.
      * intros j seg' Hj Hnth. apply (Hbefore (S j) seg'); [lia | exact Hnth].
Qed.

Lemma find_current_none (t : R) (segs : list PlayerDisplay.segment) (i : nat) :
  (forall seg, In seg segs -> PlayerDisplay.covers t seg = false) ->
  PlayerDisplay.find_current t segs i = None.
Proof.
  revert i. induction segs as [| s segs IH]; intros i H; [reflexivity |].
  cbn. rewrite (H s) by now left.
  apply IH. intros seg Hin. apply H. now right.
Qed.

Section LyricsFacts.

Variable strip : string -> string.

(** X10.  When several segments cover the current time, the labels show
    the earliest one in the list: its stripped text as the current line,
    the text of the segment listed before it (or nothing) as the previous
    line and the text of the segment listed after it (or nothing) as the
    next line. *)
Theorem lyrics_show_first_covering_segment
    (segs : list PlayerDisplay.segment) (self : KaraokePlayer.t)
    (l : PlayerDisplay.labels) (k : nat) (seg : PlayerDisplay.segment) :
  KaraokePlayer.sample_rate self <> 0%Z ->
  let t := IZR (KaraokePlayer.current_position self)
           / IZR (KaraokePlayer.sample_rate self) in
  nth_error segs k = Some seg ->
  PlayerDisplay.seg_start seg <= t < PlayerDisplay.seg_end seg ->
  (forall j seg', (j < k)%nat -> nth_error segs j = Some seg' ->
     ~ (PlayerDisplay.seg_start seg' <= t < PlayerDisplay.seg_end seg')) ->
  exists l',
    PlayerDisplay.update_lyrics strip (PlayerDisplay.WhisperLyrics segs) self l
    = Ok l'
    /\ PlayerDisplay.lyrics_current l' = strip (PlayerDisplay.seg_text seg)
    /\ PlayerDisplay.lyrics_prev l'
       = match k with
         | O => ""%string
         | S k' =>
             match nth_error segs k' with
             | Some p => strip (PlayerDisplay.seg_text p)
             | None => ""%string
             end
         end
    /\ PlayerDisplay.lyrics_next l'
       = match nth_error segs (S k) with
         | Some n => strip (PlayerDisplay.seg_text n)
         | None => ""%string
         end.
Proof.
  intros Hsr t Hk Hcov Hbefore.
  assert (Hfind : PlayerDisplay.find_current t segs 0 = Some k).
  { apply (find_current_first t segs 0 k seg Hk).
    - now apply covers_spec.
    - intros j seg' Hj Hnth.
      destruct (PlayerDisplay.covers t seg') eqn:Hc; [| reflexivity].
      apply covers_spec in Hc. exfalso. exact (Hbefore j seg' Hj Hnth Hc). }
  assert (Hlenk : (k < length segs)%nat)
    by (apply nth_error_Some; rewrite Hk; discriminate).
  unfold PlayerDisplay.update_lyrics.
  destruct (Z.eqb_spec (KaraokePlayer.sample_rate self) 0) as [E | _];
    [contradiction |].
  cbn [PlayerDisplay.segments_of].
  destruct segs as [| s0 segs']; [destruct k; discriminate Hk |].
  set (segs := s0 :: segs') in *.
  eexists. split; [reflexivity |].
  unfold PlayerDisplay.show_segments. fold t. rewrite Hfind.
  cbn [PlayerDisplay.lyrics_current PlayerDisplay.lyrics_prev
       PlayerDisplay.lyrics_next].
  split; [| split].
  - now rewrite (nth_error_nth _ _ _ Hk).
  - destruct k as [| k']; [reflexivity |].
    cbn [Nat.ltb Nat.leb]. replace (S k' - 1)%nat with k' by lia.
    destruct (nth_error segs k') as [p |] eqn:Hp.
    + now rewrite (nth_error_nth _ _ _ Hp).
    + apply nth_error_None in Hp. lia.
  - destruct (nth_error segs (S k)) as [n |] eqn:Hn.
    + assert (Hlt : (S k < length segs)%nat)
        by (apply nth_error_Some; rewrite Hn; discriminate).
      destruct (Nat.ltb_spec k (length segs - 1)); [| lia].
      replace (k + 1)%nat with (S k) by lia.
      now rewrite (nth_error_nth _ _ _ Hn).
    + apply nth_error_None in Hn.
      destruct (Nat.ltb_spec k (length segs - 1)); [lia | reflexivity].
Qed.

(** X11.  When no segment covers the current time, the current line
    reads the intro text if the time is before the start of the first
    listed segment and the outro text otherwise, so also in a gap between
    two segments; the previous and next lines keep the text they had. *)
Theorem lyrics_between_segments
    (s0 : PlayerDisplay.segment) (rest : list PlayerDisplay.segment)
    (self : KaraokePlayer.t) (l : PlayerDisplay.labels) :
  KaraokePlayer.sample_rate self <> 0%Z ->
  let t := IZR (KaraokePlayer.current_position self)
           / IZR (KaraokePlayer.sample_rate self) in
  (forall seg, In seg (s0 :: rest) ->
     ~ (PlayerDisplay.seg_start seg <= t < PlayerDisplay.seg_end seg)) ->
  PlayerDisplay.update_lyrics strip (PlayerDisplay.WhisperLyrics (s0 :: rest))
    self l
  = Ok {| PlayerDisplay.lyrics_prev := PlayerDisplay.lyrics_prev l;
          PlayerDisplay.lyrics_current :=
            if Rlt_dec t (PlayerDisplay.seg_start s0)
            then PlayerDisplay.music_intro else PlayerDisplay.music_outro;
          PlayerDisplay.lyrics_next := PlayerDisplay.lyrics_next l |}.
Proof.
  intros Hsr t Hnone.
  unfold PlayerDisplay.update_lyrics.
  destruct (Z.eqb_spec (KaraokePlayer.sample_rate self) 0) as [E | _];
    [contradiction |].
  cbn [PlayerDisplay.segments_of].
  unfold PlayerDisplay.show_segments. fold t.
  rewrite find_current_none; [reflexivity |].
  intros seg Hin.
  destruct (PlayerDisplay.covers t seg) eqn:Hc; [| reflexivity].
  apply covers_spec in Hc. exfalso. exact (Hnone seg Hin Hc).
Qed.

End LyricsFacts.

Lemma lyrics_show_first_covering_segment_witness :
  let segs := [PlayerDisplay.mk_segment 0 3 "first";
               PlayerDisplay.mk_segment 2 6 "second"] in
  let self :=
    KaraokePlayer.with_current_position 2 (KaraokePlayer.init (Stereo []) 1) in
  let l := PlayerDisplay.mk_labels "" "" "" in
  exists l',
    PlayerDisplay.update_lyrics (fun s => s) (PlayerDisplay.WhisperLyrics segs)
      self l = Ok l'
    /\ PlayerDisplay.lyrics_current l' = "first"%string
    /\ PlayerDisplay.lyrics_prev l' = ""%string
    /\ PlayerDisplay.lyrics_next l' = "second"%string.
Proof.
  intros segs self l.
  assert (Hsr : KaraokePlayer.sample_rate self <> 0%Z) by (cbn; lia).
  assert (Hk : nth_error segs 0 = Some (PlayerDisplay.mk_segment 0 3 "first"))
    by reflexivity.
  assert (Hcov :
    PlayerDisplay.seg_start (PlayerDisplay.mk_segment 0 3 "first")
    <= IZR (KaraokePlayer.current_position self)
       / IZR (KaraokePlayer.sample_rate self)
    < PlayerDisplay.seg_end (PlayerDisplay.mk_segment 0 3 "first"))
    by (cbn; lra).
  assert (Hbefore : forall j seg', (j < 0)%nat -> nth_error segs j = Some seg' ->
    ~ (PlayerDisplay.seg_start seg'
       <= IZR (KaraokePlayer.current_position self)
          / IZR (KaraokePlayer.sample_rate self)
       < PlayerDisplay.seg_end seg')) by (intros j seg' Hj; lia).
  exact (lyrics_show_first_covering_segment (fun s => s) segs self l 0 _
           Hsr Hk Hcov Hbefore).
Defined.

Lemma lyrics_between_segments_witness :
  let s0 := PlayerDisplay.mk_segment 0 3 "first" in
  let s1 := PlayerDisplay.mk_segment 5 8 "second" in
  let self :=
    KaraokePlayer.with_current_position 4 (KaraokePlayer.init (Stereo []) 1) in
  let l := PlayerDisplay.mk_labels "before" "first" "after" in
  PlayerDisplay.update_lyrics (fun s => s)
    (PlayerDisplay.WhisperLyrics [s0; s1]) self l
  = Ok {| PlayerDisplay.lyrics_prev := "before";
          PlayerDisplay.lyrics_current :=
            if Rlt_dec (IZR (KaraokePlayer.current_position self)
                        / IZR (KaraokePlayer.sample_rate self))
                       (PlayerDisplay.seg_start s0)
            then PlayerDisplay.music_intro else PlayerDisplay.music_outro;
          PlayerDisplay.lyrics_next := "after" |}.
Proof.
  intros s0 s1 self l.
  apply (lyrics_between_segments (fun s => s) s0 [s1] self l).
  - cbn. lia.
  - intros seg [<- | [<- | []]]; cbn; lra.
Defined.

(** ** The player: clicking the waveform *)

(** X12.  A click inside a canvas of positive width on a track of at least
    one frame seeks to a frame of the track; a click on the left edge goes
    to frame 0 and a click on the right edge to the last frame. *)
Theorem waveform_click_seeks_on_track
    (event_x width : Z) (self : KaraokePlayer.t) (e : engine) :
  (0 < width)%Z ->
  (0 <= event_x <= width)%Z ->
  (1 <= audio_len (KaraokePlayer.backing_audio self))%Z ->
  let len := audio_len (KaraokePlayer.backing_audio self) in
  exists self' e',
    PlayerDisplay.on_waveform_click event_x width self e = Ok (self', e')
    /\ (0 <= KaraokePlayer.current_position self' <= len - 1)%Z
    /\ (event_x = 0%Z -> KaraokePlayer.current_position self' = 0%Z)
    /\ (event_x = width ->
        KaraokePlayer.current_position self' = (len - 1)%Z).
Proof.
  intros Hw Hx Hlen len.
  unfold PlayerDisplay.on_waveform_click.
  destruct (Z.eqb_spec width 0) as [E | _]; [lia |].
  eexists _, _. split; [unfold KaraokePlayer.seek_to; reflexivity |].
  cbn [KaraokePlayer.current_position KaraokePlayer.with_current_position].
  fold len.
  split; [lia |]. split.
  - intros ->.
    replace (IZR 0 / IZR width * IZR len) with (IZR 0) by (cbn; lra).
    rewrite py_trunc_IZR. lia.
  - intros ->.
    replace (IZR width / IZR width * IZR len) with (IZR len).
    + rewrite py_trunc_IZR. lia.
    + field. apply not_0_IZR. lia.
Qed.

Lemma waveform_click_seeks_on_track_witness :
  let track := [(0.1, 0.1); (0.2, 0.2); (0.3, 0.3)] in
  let s := new_session (Stereo track) 48000 VUMeter.init 1 in
  exists self' e',
    PlayerDisplay.on_waveform_click 200 200 (player s) (closure s)
    = Ok (self', e')
    /\ KaraokePlayer.current_position self' = 2%Z.
Proof.
  intros track s.
  assert (Hw : (0 < 200)%Z) by lia.
  assert (Hx : (0 <= 200 <= 200)%Z) by lia.
  assert (Hlen : (1 <= audio_len (KaraokePlayer.backing_audio (player s)))%Z)
    by (cbn; lia).
  destruct (waveform_click_seeks_on_track 200 200 (player s) (closure s)
              Hw Hx Hlen) as (self' & e' & Hrun & _ & _ & Hright).
  exists self', e'. split; [exact Hrun |]. now apply Hright.
Defined.

(** ** A running session under any sequence of events *)

Section SessionFacts.

Variable apply_board : pedalboard -> block -> Z -> result block.
Variable decoded : audio.
Variable sr : Z.

Local Abbreviation backing := (to_stereo decoded).
Local Abbreviation handle_ev := (handle apply_board backing sr).
Local Abbreviation run_evs := (run_session apply_board backing sr).

Lemma new_session_wired (vu : VUMeter.t) (volume : R) :
  session_wired decoded (new_session decoded sr vu volume).
Proof. unfold session_wired. cbn. repeat split; reflexivity. Qed.

Lemma new_session_on_track (vu : VUMeter.t) (volume : R) :
  positions_on_track decoded (new_session decoded sr vu volume).
Proof.
  unfold positions_on_track. cbn.
  pose proof (py_len_nonneg (to_stereo decoded)) as H.
  rewrite to_stereo_length in H. lia.
Qed.

Lemma seek_wired (target : Z) (s : session) :
  session_wired decoded s -> session_wired decoded (seek target s).
Proof.
  intros (Hseek & Hfx & Hpp & Haudio & Hboard).
  unfold session_wired, seek, lift_player, KaraokePlayer.seek_to.
  cbn. rewrite Hseek. cbn. repeat split; assumption.
Qed.

Lemma seek_on_track (target : Z) (s : session) :
  session_wired decoded s ->
  positions_on_track decoded s -> positions_on_track decoded (seek target s).
Proof.
  intros (Hseek & _ & _ & Haudio & _) (Hpos & Hdisp).
  unfold positions_on_track, seek, lift_player, KaraokePlayer.seek_to.
  cbn. rewrite Hseek. cbn. rewrite Haudio. lia.
Qed.

Lemma handle_wired (s : session) (ev : event) :
  session_wired decoded s -> session_wired decoded (handle_ev s ev).
Proof.
  intros Hok. destruct ev as [t | target | | | | key value]; cbn [handle].
  - destruct Hok as (Hseek & Hfx & Hpp & Haudio & Hboard).
    pose proof (audio_callback_frame apply_board backing sr
                  (tick_indata t) (tick_frames t) (tick_now t) s) as Hframe.
    cbv zeta in Hframe. destruct Hframe as (Hb & _ & Hpl).
    unfold session_wired. rewrite Hpl, Hb. cbn. repeat split; assumption.
  - now apply seek_wired.
  - rewrite skip_forward_is_seek. now apply seek_wired.
  - rewrite skip_backward_is_seek. now apply seek_wired.
  - destruct Hok as (Hseek & Hfx & Hpp & Haudio & Hboard).
    unfold session_wired, toggle_play_pause, lift_player,
      KaraokePlayer.toggle_play_pause.
    cbn. rewrite Hpp. cbn. repeat split; assumption.
  - destruct Hok as (Hseek & Hfx & Hpp & Haudio & Hboard).
    unfold session_wired, move_slider, lift_player,
      KaraokePlayer.on_slider_change.
    cbn. rewrite Hfx. cbn. repeat split; try assumption; reflexivity.
Qed.

Lemma handle_on_track (s : session) (ev : event) :
  sane_event ev ->
  session_wired decoded s ->
  positions_on_track decoded s -> positions_on_track decoded (handle_ev s ev).
Proof.
  intros Hsane Hok Htrack.
  destruct ev as [t | target | | | | key value]; cbn [handle].
  - destruct Htrack as (Hpos & Hdisp).
    pose proof (audio_callback_frame apply_board backing sr
                  (tick_indata t) (tick_frames t) (tick_now t) s) as Hframe.
    pose proof (audio_callback_position apply_board backing sr
                  (tick_indata t) (tick_frames t) (tick_now t) s) as Hnew.
    cbv zeta in Hframe. destruct Hframe as (_ & _ & Hpl).
    cbn in Hsane. rewrite to_stereo_length in Hnew.
    unfold positions_on_track. rewrite Hpl, Hnew. cbn.
    destruct (frame_idx (closure s) <? audio_len decoded)%Z; lia.
  - now apply seek_on_track.
  - rewrite skip_forward_is_seek. now apply seek_on_track.
  - rewrite skip_backward_is_seek. now apply seek_on_track.
  - destruct Hok as (_ & _ & Hpp & _). destruct Htrack as (Hpos & Hdisp).
    unfold positions_on_track, toggle_play_pause, lift_player,
      KaraokePlayer.toggle_play_pause.
    cbn. rewrite Hpp. cbn. lia.
  - destruct Hok as (_ & Hfx & _). destruct Htrack as (Hpos & Hdisp).
    unfold positions_on_track, move_slider, lift_player,
      KaraokePlayer.on_slider_change.
    cbn. rewrite Hfx. cbn. lia.
Qed.

Lemma run_session_wired (events : list event) (s : session) :
  session_wired decoded s -> session_wired decoded (run_evs events s).
Proof.
  revert s. unfold run_session.
  induction events as [| ev events IH]; intros s Hok; cbn [fold_left].
  - exact Hok.
  - apply IH. now apply handle_wired.
Qed.

Lemma run_session_on_track (events : list event) (s : session) :
  Forall sane_event events ->
  session_wired decoded s ->
  positions_on_track decoded s ->
  positions_on_track decoded (run_evs events s).
Proof.
  intros Hall. revert s. unfold run_session.
  induction Hall as [| ev events Hev _ IH]; intros s Hok Htrack;
    cbn [fold_left].
  - exact Htrack.
  - apply IH; [now apply handle_wired | now apply handle_on_track].
Qed.

(** X13.  In a session started on a decoded track, whatever callbacks (of
    non-negative block size), seeks, skips, pauses and slider moves
    follow, the engine's position and the position the player shows stay
    between 0 and the length of the track. *)
Theorem session_position_stays_on_track
    (vu : VUMeter.t) (volume : R) (events : list event) :
  Forall sane_event events ->
  let s := run_evs events (new_session decoded sr vu volume) in
  (0 <= frame_idx (closure s) <= audio_len decoded)%Z
  /\ (0 <= KaraokePlayer.current_position (player s) <= audio_len decoded)%Z.
Proof.
  intros Hall s.
  exact (run_session_on_track events _ Hall (new_session_wired vu volume)
           (new_session_on_track vu volume)).
Qed.

(** X14.  In a session started on a decoded track, after any sequence of
    events the board the callback uses is the one [rebuild_fx_board]
    builds from the player's current parameters: every slider move has
    reached the engine, and nothing else has changed the board. *)
Theorem session_board_follows_sliders
    (vu : VUMeter.t) (volume : R) (events : list event) :
  let s := run_evs events (new_session decoded sr vu volume) in
  fx_board (closure s) = rebuild_fx_board (KaraokePlayer.fx_params (player s)).
Proof.
  intros s.
  destruct (run_session_wired events _ (new_session_wired vu volume))
    as (_ & _ & _ & _ & Hboard).
  exact Hboard.
Qed.

End SessionFacts.

Lemma session_position_stays_on_track_witness :
  let board := fun (_ : pedalboard) (b : block) (_ : Z) => Ok b in
  let track := [(0.1, 0.1); (0.2, 0.2); (0.3, 0.3)] in
  let t := {| tick_indata := [0; 0]; tick_frames := 2; tick_now := 0 |} in
  let events := [Callback t; SkipForward; Callback t; SeekTo (-7);
                 MoveSlider echo_mix 0.5; TogglePlayPause; Callback t] in
  let s :=
    run_session board (to_stereo (Stereo track)) 48000 events
      (new_session (Stereo track) 48000 VUMeter.init 1) in
  (0 <= frame_idx (closure s) <= 3)%Z
  /\ (0 <= KaraokePlayer.current_position (player s) <= 3)%Z.
Proof.
  intros board track t events s.
  apply (session_position_stays_on_track board (Stereo track) 48000
           VUMeter.init 1 events).
  repeat constructor; cbn; lia.
Defined.

(** ** More on the audio callback *)

Section CallbackMore.

Variable apply_board : pedalboard -> block -> Z -> result block.
Variable backing_audio : block.
Variable sr : Z.

Local Abbreviation L := (py_len backing_audio).
Local Abbreviation callback := (audio_callback apply_board backing_audio sr).
Local Abbreviation run := (run_callbacks apply_board backing_audio sr).
Local Abbreviation position s := (frame_idx (closure s)).

(** X15.  The player is told the position before the block is taken: after
    a callback it shows the frame at which that callback started reading.
    After [N + 1] callbacks of [B] frames from position 0 the player shows
    [min (N * B) L] while the engine is at [min ((N + 1) * B) L]. *)
Theorem player_position_trails_engine
    (B : Z) (ticks : list tick) (indata : list R) (now : R) (s : session) :
  (0 <= B)%Z ->
  position s = 0%Z ->
  Forall (fun t => tick_frames t = B) ticks ->
  let s' := fst (callback indata B now (run ticks s)) in
  KaraokePlayer.current_position (player s') = Z.min (py_len ticks * B) L
  /\ position s' = Z.min ((py_len ticks + 1) * B) L.
Proof.
  intros HB H0 Hall s'.
  assert (Hrun : position (run ticks s) = Z.min (py_len ticks * B) L).
  { rewrite (run_callbacks_position apply_board backing_audio sr B)
      by (auto; rewrite H0; apply py_len_nonneg).
    now rewrite H0. }
  subst s'. split.
  - destruct (audio_callback_frame apply_board backing_audio sr
                indata B now (run ticks s)) as (_ & _ & Hpl).
    rewrite Hpl. cbn. exact Hrun.
  - rewrite audio_callback_position_advance by (rewrite ?Hrun; lia).
    rewrite Hrun. pose proof (py_len_nonneg ticks).
    pose proof (py_len_nonneg backing_audio). nia.
Qed.

Lemma np_scale_zero (x : block) :
  np_scale 0 x = repeat silence (length x).
Proof.
  unfold np_scale, frame_scale, silence.
  induction x as [| f x IH]; cbn; [reflexivity |].
  rewrite IH. f_equal. f_equal; lra.
Qed.

Lemma zip_add_silence (a : block) :
  zip_add a (repeat silence (length a)) = a.
Proof.
  induction a as [| [l r] a IH]; cbn; [reflexivity |].
  rewrite IH. unfold frame_add, silence. cbn. f_equal. f_equal; lra.
Qed.

Lemma np_clip_inside (x : block) :
  block_in_range x -> np_clip (-1) 1 x = x.
Proof.
  unfold block_in_range, np_clip, sample_in_range.
  induction 1 as [| [l r] x [Hl Hr] _ IH]; cbn; [reflexivity |].
  cbn in Hl, Hr. rewrite IH, !clip_sample_inside by lra. reflexivity.
Qed.

Lemma backing_block_in_range (start frames : Z) :
  block_in_range backing_audio ->
  block_in_range (backing_block backing_audio start frames).
Proof.
  intros Hin. unfold backing_block, block_in_range in *.
  assert (Hslice : forall s e,
             Forall (fun f => sample_in_range (fst f) /\ sample_in_range (snd f))
                    (py_slice backing_audio s e)).
  { intros s e. unfold py_slice. apply Forall_forall. intros f Hf.
    assert (Hf1 : In f (skipn (Z.to_nat (slice_index (py_len backing_audio) s))
                          backing_audio)).
    { rewrite <- (firstn_skipn
                    (Z.to_nat (slice_index (py_len backing_audio) e
                               - slice_index (py_len backing_audio) s))
                    (skipn _ backing_audio)).
      apply in_or_app. now left. }
    assert (Hf' : In f backing_audio).
    { rewrite <- (firstn_skipn (Z.to_nat (slice_index (py_len backing_audio) s))
                               backing_audio).
      apply in_or_app. now right. }
    rewrite Forall_forall in Hin. now apply Hin. }
  destruct (_ <? frames)%Z; [| apply Hslice].
  unfold np_pad_end. apply Forall_app. split; [apply Hslice |].
  apply Forall_forall. intros f Hf. apply repeat_spec in Hf. subst f.
  exact silence_in_range.
Qed.

(** X16.  With the output volume at 0, a mid-track callback whose
    microphone block comes back from the effects with the block size
    writes the backing block itself when the track's samples are within
    [[-1, 1]]: the track's frames from the current position on,
    zero-padded past its end, with nothing of the microphone in them. *)
Theorem muted_microphone_plays_backing_only
    (indata : list R) (frames : Z) (now : R) (s : session) :
  (0 <= position s < L)%Z ->
  karaoke_volume_var s = 0 ->
  py_len (mic_with_effects apply_board sr (fx_board (closure s))
            (karaoke_volume_var s) (mono_to_stereo indata)) = frames ->
  block_in_range backing_audio ->
  snd (callback indata frames now s)
  = Ok (backing_block backing_audio (position s) frames).
Proof.
  intros Hpos Hvol Hmic Hrange.
  rewrite audio_callback_mid_track by assumption.
  assert (Hlen : py_len (backing_block backing_audio (position s) frames)
                 = frames).
  { apply backing_block_length; [exact Hpos |].
    rewrite <- Hmic. apply py_len_nonneg. }
  assert (Hzero :
    mic_with_effects apply_board sr (fx_board (closure s))
      (karaoke_volume_var s) (mono_to_stereo indata)
    = repeat silence
        (length (backing_block backing_audio (position s) frames))).
  { unfold py_len in Hlen, Hmic.
    replace (length (backing_block backing_audio (position s) frames))
      with (length (mic_with_effects apply_board sr (fx_board (closure s))
                      (karaoke_volume_var s) (mono_to_stereo indata)))
      by lia.
    unfold mic_with_effects. rewrite Hvol.
    destruct (apply_board _ _ _);
      rewrite np_scale_length, np_scale_zero; reflexivity. }
  rewrite Hzero, zip_add_silence, np_clip_inside;
    [reflexivity | now apply backing_block_in_range].
Qed.

(** X17.  A board that returns a block of the wrong size (neither the
    block size nor one frame) is handled differently by the two branches:
    mid-track the addition to the backing block raises [ValueError] out
    of the callback, after the position has already advanced; past the
    end of the track the failed write is caught and the unprocessed
    microphone block times the volume is written instead. *)
Theorem wrong_sized_board_output
    (indata : list R) (frames : Z) (now : R) (s : session) (mic_fx : block) :
  (0 <= position s)%Z ->
  py_len indata = frames ->
  frames <> 1%Z ->
  apply_board (fx_board (closure s)) (mono_to_stereo indata) sr = Ok mic_fx ->
  py_len mic_fx <> frames ->
  length mic_fx <> 1%nat ->
  let r := callback indata frames now s in
  snd r
  = (if (position s <? L)%Z then Raise ValueError
     else Ok (np_scale (karaoke_volume_var s) (mono_to_stereo indata)))
  /\ position (fst r)
     = (if (position s <? L)%Z then Z.min (position s + frames) L
        else position s).
Proof.
  intros Hpos Hin Hone Hfx Hsize Hnot1 r. subst r.
  split; [| apply audio_callback_position].
  unfold audio_callback.
  destruct (Z.ltb_spec (position s) L) as [Hlt | Hge].
  - cbn [fx_board]. unfold mic_with_effects. rewrite Hfx.
    assert (Hb : py_len (backing_block backing_audio (position s) frames)
                 = frames).
    { apply backing_block_length; [lia |]. rewrite <- Hin. apply py_len_nonneg. }
    unfold np_add. rewrite np_scale_length.
    unfold py_len in Hb, Hsize.
    destruct (Nat.eqb_spec
                (length (backing_block backing_audio (position s) frames))
                (length mic_fx)) as [E | _]; [lia |].
    destruct (Nat.eqb_spec
                (length (backing_block backing_audio (position s) frames)) 1)
      as [E | _]; [lia |].
    destruct (Nat.eqb_spec (length mic_fx) 1) as [E | _]; [contradiction |].
    reflexivity.
  - rewrite Hfx.
    assert (Hwrite : assign_outdata frames (np_scale (karaoke_volume_var s) mic_fx)
                     = Raise ValueError).
    { unfold assign_outdata, py_len in *. rewrite np_scale_length.
      destruct (Z.eqb_spec (Z.of_nat (length mic_fx)) frames) as [E | _];
        [contradiction |].
      destruct (Nat.eqb_spec (length mic_fx) 1) as [E | _]; [contradiction |].
      reflexivity. }
    rewrite Hwrite. cbn [snd].
    apply assign_outdata_fits.
    unfold py_len in *. now rewrite np_scale_length, mono_to_stereo_length.
Qed.

Lemma np_rms_silence (indata : list R) :
  Forall (fun x => x = 0) indata -> np_rms indata = 0.
Proof.
  intros Hall. unfold np_rms.
  assert (Hsum : fold_right Rplus 0 (map (fun x => x * x) indata) = 0).
  { induction Hall as [| x l Hx _ IH]; cbn; [reflexivity |].
    rewrite IH, Hx. lra. }
  rewrite Hsum. unfold Rdiv. rewrite Rmult_0_l. apply sqrt_0.
Qed.

(** X18.  A callback on a non-empty block of silence from the microphone
    leaves both meter levels at the floor of -60, at any volume. *)
Theorem silent_block_reads_floor
    (indata : list R) (frames : Z) (now : R) (s : session) :
  indata <> [] ->
  Forall (fun x => x = 0) indata ->
  let m := karaoke_vu_meter (fst (callback indata frames now s)) in
  VUMeter.left_level m = -60 /\ VUMeter.right_level m = -60.
Proof.
  intros _ Hsilent m.
  assert (Hm : m = VUMeter.set_levels_from_amplitude now
                     (np_rms indata * karaoke_volume_var s)
                     (np_rms indata * karaoke_volume_var s)
                     (karaoke_vu_meter s)).
  { subst m. unfold audio_callback.
    destruct (position s <? L)%Z.
    - destruct (np_add _ _); reflexivity.
    - destruct (apply_board _ _ _); [destruct (assign_outdata _ _) |];
        reflexivity. }
  rewrite Hm, (np_rms_silence indata Hsilent), Rmult_0_l.
  unfold VUMeter.set_levels_from_amplitude.
  destruct (set_levels_stores_clamped now (VUMeter.amplitude_to_db 0)
              (VUMeter.amplitude_to_db 0) (karaoke_vu_meter s)) as [Hl Hr].
  rewrite Hl, Hr, amplitude_to_db_floor by lra.
  rewrite clamp_id by lra. split; reflexivity.
Qed.

End CallbackMore.

Lemma player_position_trails_engine_witness :
  let board := fun (_ : pedalboard) (b : block) (_ : Z) => Ok b in
  let track := [(0.1, 0.1); (0.2, 0.2); (0.3, 0.3)] in
  let t := {| tick_indata := [0; 0]; tick_frames := 2; tick_now := 0 |} in
  let s := new_session (Stereo track) 48000 VUMeter.init 1 in
  let s' :=
    fst (audio_callback board track 48000 [0; 0] 2 1
           (run_callbacks board track 48000 [t] s)) in
  KaraokePlayer.current_position (player s') = Z.min (py_len [t] * 2) (py_len track)
  /\ frame_idx (closure s') = Z.min ((py_len [t] + 1) * 2) (py_len track).
Proof.
  intros board track t s s'.
  apply (player_position_trails_engine board track 48000 2 [t] [0; 0] 1 s).
  - lia.
  - reflexivity.
  - repeat constructor.
Defined.

Lemma muted_microphone_plays_backing_only_witness :
  let board := fun (_ : pedalboard) (b : block) (_ : Z) => Ok b in
  let track := [(0.5, 0.5); (0.25, 0.25)] in
  let s := new_session (Stereo track) 48000 VUMeter.init 0 in
  snd (audio_callback board track 48000 [1] 1 0 s)
  = Ok (backing_block track (frame_idx (closure s)) 1).
Proof.
  intros board track s.
  apply (muted_microphone_plays_backing_only board track 48000 [1] 1 0 s).
  - cbn. lia.
  - reflexivity.
  - reflexivity.
  - repeat constructor; cbn; lra.
Defined.

Lemma wrong_sized_board_output_witness :
  let board := fun (_ : pedalboard) (_ : block) (_ : Z) => @Ok block [] in
  let track := [(0.1, 0.1); (0.2, 0.2); (0.3, 0.3)] in
  let s := new_session (Stereo track) 48000 VUMeter.init 1 in
  let r := audio_callback board track 48000 [0; 0] 2 0 s in
  snd r
  = (if (frame_idx (closure s) <? py_len track)%Z then Raise ValueError
     else Ok (np_scale (karaoke_volume_var s) (mono_to_stereo [0; 0])))
  /\ frame_idx (closure (fst r))
     = (if (frame_idx (closure s) <? py_len track)%Z
        then Z.min (frame_idx (closure s) + 2) (py_len track)
        else frame_idx (closure s)).
Proof.
  intros board track s r.
  apply (wrong_sized_board_output board track 48000 [0; 0] 2 0 s []).
  - cbn. lia.
  - reflexivity.
  - lia.
  - reflexivity.
  - cbn. lia.
  - cbn. lia.
Defined.

Lemma silent_block_reads_floor_witness :
  let board := fun (_ : pedalboard) (b : block) (_ : Z) => Ok b in
  let track := [(0.5, 0.5); (0.25, 0.25)] in
  let s := new_session (Stereo track) 48000 VUMeter.init 1 in
  let m := karaoke_vu_meter (fst (audio_callback board track 48000 [0; 0] 2 0 s)) in
  VUMeter.left_level m = -60 /\ VUMeter.right_level m = -60.
Proof.
  intros board track s m.
  apply (silent_block_reads_floor board track 48000 [0; 0] 2 0 s).
  - discriminate.
  - repeat constructor.
Defined.

(** ** The pitch and tempo entries *)

Lemma clamp_between (lo hi v : R) :
  lo <= hi ->
  lo <= py_max lo (py_min hi v) <= hi
  /\ (lo <= v <= hi -> py_max lo (py_min hi v) = v).
Proof.
  intros H. unfold py_max, py_min.
  destruct (Rlt_dec v hi); destruct (Rlt_dec lo _); split; intros; lra.
Qed.

(** X19.  Pressing Return in the pitch or tempo entry stores the typed
    number clamped into [[-12, 12]] (pitch) or [[0.5, 2]] (tempo), a number
    inside the range as it is; text that is no number leaves the variable
    as it was; and in every case the entry then shows the formatted value
    of the variable. *)
Theorem entry_update_is_clamped
    (py_float : string -> option R) (format_1f format_2f : R -> string)
    (self : Entries.t) :
  let pitch := Entries.update_karaoke_pitch_from_entry py_float format_1f self in
  let tempo := Entries.update_karaoke_tempo_from_entry py_float format_2f self in
  Entries.entry_text pitch = format_1f (Entries.var_value pitch)
  /\ Entries.entry_text tempo = format_2f (Entries.var_value tempo)
  /\ (py_float (Entries.entry_text self) = None ->
      Entries.var_value pitch = Entries.var_value self
      /\ Entries.var_value tempo = Entries.var_value self)
  /\ (forall v, py_float (Entries.entry_text self) = Some v ->
      -12 <= Entries.var_value pitch <= 12
      /\ 0.5 <= Entries.var_value tempo <= 2
      /\ (-12 <= v <= 12 -> Entries.var_value pitch = v)
      /\ (0.5 <= v <= 2 -> Entries.var_value tempo = v)).
Proof.
  cbv zeta.
  unfold Entries.update_karaoke_pitch_from_entry,
    Entries.update_karaoke_tempo_from_entry, Entries.set_var.
  destruct (py_float (Entries.entry_text self)) as [v |]; cbn.
  - split; [reflexivity |]. split; [reflexivity |].
    split; [discriminate |].
    intros v' Hv. injection Hv as <-.
    destruct (clamp_between (-12) 12 v) as [Hp1 Hp2]; [lra |].
    destruct (clamp_between 0.5 2.0 v) as [Ht1 Ht2]; [lra |].
    split; [exact Hp1 |]. split; [lra |].
    split; [exact Hp2 |]. intros Hin. apply Ht2. lra.
  - split; [reflexivity |]. split; [reflexivity |].
    split; [intros _; split; reflexivity |].
    intros v Hv. discriminate Hv.
Qed.

(** ** A session that has started *)

Lemma default_board_has_five_stages :
  length (rebuild_fx_board default_fx_params) = 5%nat.
Proof.
  unfold rebuild_fx_board.
  destruct (Rgt_dec (default_fx_params echo_mix) 0.01) as [H | _];
    [| reflexivity].
  exfalso. cbn in H. lra.
Qed.

(** X20.  When a press of the button ends with the stream running, the
    session runs at no more than 48000 Hz, starts at position 0 in the
    engine and in the player, uses the board of the default parameters
    (five stages, no echo), plays a stereo track as long as the one the
    player holds, and that track is the decoded file of the resolved
    path, untouched when the file's rate was at most 48000 Hz. *)
Theorem running_session_facts
    (path_exists : string -> result bool)
    (glob_wav : string -> list string)
    (sf_read : string -> result (audio * Z))
    (librosa_resample : audio -> Z -> result audio)
    (build_player_ui : audio -> Z -> result unit)
    (parse_device_id : string -> result (option Z))
    (open_stream : option Z -> option Z -> Z -> result unit)
    (a : app) (s : session) (backing : block) (sr : Z) :
  karaoke_record_mix path_exists glob_wav sf_read librosa_resample
    build_player_ui parse_device_id open_stream a = Running s backing sr ->
  (sr <= 48000)%Z
  /\ frame_idx (closure s) = 0%Z
  /\ KaraokePlayer.current_position (player s) = 0%Z
  /\ KaraokePlayer.sample_rate (player s) = sr
  /\ fx_board (closure s) = rebuild_fx_board default_fx_params
  /\ length (fx_board (closure s)) = 5%nat
  /\ backing = to_stereo (KaraokePlayer.backing_audio (player s))
  /\ exists track decoded sr0,
       resolve_backing_track path_exists glob_wav a = Ok (inr track)
       /\ sf_read track = Ok (decoded, sr0)
       /\ ((sr0 <= 48000)%Z ->
           sr = sr0 /\ KaraokePlayer.backing_audio (player s) = decoded).
Proof.
  unfold karaoke_record_mix.
  destruct (karaoke_stream_active a); [discriminate |].
  destruct (resolve_backing_track path_exists glob_wav a)
    as [[w | track] | e] eqn:Hres; try discriminate.
  unfold start_karaoke, prepare_session.
  destruct (sf_read track) as [[decoded sr0] | e] eqn:Hread;
    [| cbn; discriminate].
  cbn [bind].
  destruct (Z.gtb_spec sr0 48000%Z) as [Hhigh | Hlow].
  - destruct (librosa_resample decoded sr0) as [resampled | e];
      [| cbn; discriminate].
    cbn [bind].
    destruct (build_player_ui resampled 48000%Z) as [[] | e];
      [| cbn; discriminate].
    cbn [bind].
    destruct (parse_device_id (karaoke_mic_var a)) as [mic | e];
      [| cbn; discriminate].
    cbn [bind].
    destruct (parse_device_id (karaoke_speaker_var a)) as [spk | e];
      [| cbn; discriminate].
    cbn [bind].
    destruct (open_stream mic spk 48000%Z) as [[] | e]; [| discriminate].
    intros H. injection H as <- <- <-.
    split; [lia |]. repeat (split; [reflexivity |]).
    split; [apply default_board_has_five_stages |].
    split; [reflexivity |].
    exists track, decoded, sr0. split; [reflexivity |].
    split; [exact Hread |]. intros Hle. lia.
  - cbn [bind].
    destruct (build_player_ui decoded sr0) as [[] | e];
      [| cbn; discriminate].
    cbn [bind].
    destruct (parse_device_id (karaoke_mic_var a)) as [mic | e];
      [| cbn; discriminate].
    cbn [bind].
    destruct (parse_device_id (karaoke_speaker_var a)) as [spk | e];
      [| cbn; discriminate].
    cbn [bind].
    destruct (open_stream mic spk sr0) as [[] | e]; [| discriminate].
    intros H. injection H as <- <- <-.
    split; [lia |]. repeat (split; [reflexivity |]).
    split; [apply default_board_has_five_stages |].
    split; [reflexivity |].
    exists track, decoded, sr0. split; [reflexivity |].
    split; [exact Hread |]. intros _. split; reflexivity.
Qed.

Lemma running_session_facts_witness :
  let path_exists := fun _ : string => @Ok bool true in
  let glob_wav := fun _ : string => @nil string in
  let sf_read :=
    fun _ : string => @Ok (audio * Z) (Mono [0.5; 0.25], 44100%Z) in
  let librosa_resample := fun (b : audio) (_ : Z) => Ok b in
  let build_player_ui := fun (_ : audio) (_ : Z) => Ok tt in
  let parse_device_id := fun _ : string => @Ok (option Z) None in
  let open_stream := fun (_ _ : option Z) (_ : Z) => Ok tt in
  let a :=
    {| karaoke_stream_active := false;
       karaoke_backing_track := Some "song_instrumental.wav"%string;
       karaoke_output_folder := None;
       karaoke_mic_var := "Default";
       karaoke_speaker_var := "Default";
       app_vu_meter := VUMeter.init;
       app_volume_var := 1 |} in
  let s := new_session (Mono [0.5; 0.25]) 44100 VUMeter.init 1 in
  (44100 <= 48000)%Z
  /\ frame_idx (closure s) = 0%Z
  /\ length (fx_board (closure s)) = 5%nat.
Proof.
  intros path_exists glob_wav sf_read librosa_resample build_player_ui
         parse_device_id open_stream a s.
  assert (Hrun :
    karaoke_record_mix path_exists glob_wav sf_read librosa_resample
      build_player_ui parse_device_id open_stream a
    = Running s (to_stereo (Mono [0.5; 0.25])) 44100) by reflexivity.
  destruct (running_session_facts path_exists glob_wav sf_read
              librosa_resample build_player_ui parse_device_id open_stream
              a s _ _ Hrun) as (H1 & H2 & _ & _ & _ & H6 & _).
  exact (conj H1 (conj H2 H6)).
Defined.

(** ** Device labels *)

Lemma py_split_nonempty (sep : ascii) (s : string) :
  Devices.py_split sep s <> [].
Proof.
  destruct s as [| c rest]; cbn [Devices.py_split]; [discriminate |].
  destruct (Ascii.eqb c sep); [discriminate |].
  destruct (Devices.py_split sep rest); discriminate.
Qed.

Lemma py_split_first_field (sep : ascii) (s : string) :
  Devices.py_split sep s
  = Devices.first_field sep s :: tl (Devices.py_split sep s).
Proof.
  unfold Devices.first_field.
  pose proof (py_split_nonempty sep s) as H.
  destruct (Devices.py_split sep s); [congruence | reflexivity].
Qed.

Lemma first_field_cons (sep c : ascii) (rest : string) :
  Devices.first_field sep (String c rest)
  = if Ascii.eqb c sep then EmptyString
    else String c (Devices.first_field sep rest).
Proof.
  unfold Devices.first_field. cbn [Devices.py_split].
  destruct (Ascii.eqb c sep); [reflexivity |].
  pose proof (py_split_nonempty sep rest) as H.
  destruct (Devices.py_split sep rest); [congruence | reflexivity].
Qed.

Lemma string_app_nil_r (s : string) : (s ++ "")%string = s.
Proof.
  induction s as [| c s IH]; cbn [String.append]; [reflexivity |].
  now rewrite IH.
Qed.

(** A bracket is no decimal digit: the first field of a string that
    starts with the digits of a number starts with all of them. *)
Lemma first_field_digits (sep : ascii) (d : Decimal.uint) (s : string) :
  sep = "["%char \/ sep = "]"%char ->
  Devices.first_field sep (DecimalString.NilEmpty.string_of_uint d ++ s)
  = (DecimalString.NilEmpty.string_of_uint d
     ++ Devices.first_field sep s)%string.
Proof.
  intros [-> | ->];
    induction d as [| d IH | d IH | d IH | d IH | d IH | d IH | d IH | d IH
                    | d IH | d IH];
    cbn [DecimalString.NilEmpty.string_of_uint String.append];
    try reflexivity;
    rewrite first_field_cons, IH; reflexivity.
Qed.

Lemma first_field_str_of_nat (sep : ascii) (i : nat) (s : string) :
  sep = "["%char \/ sep = "]"%char ->
  Devices.first_field sep (Devices.str_of_nat i ++ s)
  = (Devices.str_of_nat i ++ Devices.first_field sep s)%string.
Proof.
  intros Hsep. unfold Devices.str_of_nat, DecimalString.NilZero.string_of_uint.
  destruct (Nat.to_uint i) eqn:E; try (apply first_field_digits; exact Hsep).
  cbn [String.append]. rewrite first_field_cons.
  destruct Hsep as [-> | ->]; reflexivity.
Qed.

Lemma digits_value_digit (c : ascii) (rest : string) (acc d : nat) (b : bool) :
  Devices.digit_of c = Some d ->
  Devices.digits_value (String c rest) acc b
  = Devices.digits_value rest (10 * acc + d) true.
Proof.
  intros H. cbn [Devices.digits_value]. rewrite H. reflexivity.
Qed.

Lemma digits_value_uint (d : Decimal.uint) :
  forall acc,
    Devices.digits_value (DecimalString.NilEmpty.string_of_uint d) acc true
    = Some (Nat.of_uint_acc d acc).
Proof.
  induction d as [| d IH | d IH | d IH | d IH | d IH | d IH | d IH | d IH
                  | d IH | d IH];
    intros acc; cbn [DecimalString.NilEmpty.string_of_uint Nat.of_uint_acc];
    [reflexivity | ..].
  - rewrite (digits_value_digit "0"%char _ _ 0%nat _ eq_refl), IH.
    do 2 f_equal. rewrite Nat.tail_mul_spec. lia.
  - rewrite (digits_value_digit "1"%char _ _ 1%nat _ eq_refl), IH.
    do 2 f_equal. rewrite Nat.tail_mul_spec. lia.
  - rewrite (digits_value_digit "2"%char _ _ 2%nat _ eq_refl), IH.
    do 2 f_equal. rewrite Nat.tail_mul_spec. lia.
  - rewrite (digits_value_digit "3"%char _ _ 3%nat _ eq_refl), IH.
    do 2 f_equal. rewrite Nat.tail_mul_spec. lia.
  - rewrite (digits_value_digit "4"%char _ _ 4%nat _ eq_refl), IH.
    do 2 f_equal. rewrite Nat.tail_mul_spec. lia.
  - rewrite (digits_value_digit "5"%char _ _ 5%nat _ eq_refl), IH.
    do 2 f_equal. rewrite Nat.tail_mul_spec. lia.
  - rewrite (digits_value_digit "6"%char _ _ 6%nat _ eq_refl), IH.
    do 2 f_equal. rewrite Nat.tail_mul_spec. lia.
  - rewrite (digits_value_digit "7"%char _ _ 7%nat _ eq_refl), IH.
    do 2 f_equal. rewrite Nat.tail_mul_spec. lia.
  - rewrite (digits_value_digit "8"%char _ _ 8%nat _ eq_refl), IH.
    do 2 f_equal. rewrite Nat.tail_mul_spec. lia.
  - rewrite (digits_value_digit "9"%char _ _ 9%nat _ eq_refl), IH.
    do 2 f_equal. rewrite Nat.tail_mul_spec. lia.
Qed.

(** [int] of a string whose first character is a digit reads the digits:
    a digit is no white space and no sign. *)
Lemma py_int_digit (c : ascii) (rest : string) (d : nat) :
  Devices.digit_of c = Some d ->
  Devices.py_int (String c rest)
  = match Devices.digits_value (String c rest) 0 false with
    | Some n => Ok (Z.of_nat n)
    | None => Raise ValueError
    end.
Proof.
  intros H.
  assert (Hspace : Devices.is_space c = false).
  { revert H. unfold Devices.digit_of, Devices.is_space. cbv zeta.
    destruct (Nat.leb_spec 48 (nat_of_ascii c));
      destruct (Nat.leb_spec (nat_of_ascii c) 57); cbn [andb];
      try discriminate.
    intros _.
    destruct (Nat.leb_spec 9 (nat_of_ascii c));
      destruct (Nat.leb_spec (nat_of_ascii c) 13);
      destruct (Nat.leb_spec 28 (nat_of_ascii c));
      destruct (Nat.leb_spec (nat_of_ascii c) 32);
      cbn [andb orb]; try reflexivity; lia. }
  unfold Devices.py_int. cbn [Devices.lstrip]. rewrite Hspace.
  destruct (Ascii.eqb_spec c "-"%char) as [-> | _]; [discriminate H |].
  destruct (Ascii.eqb_spec c "+"%char) as [-> | _]; [discriminate H |].
  reflexivity.
Qed.

(** [int(str(i)) = i]. *)
Lemma py_int_str_of_nat (i : nat) :
  Devices.py_int (Devices.str_of_nat i) = Ok (Z.of_nat i).
Proof.
  pose proof (DecimalNat.Unsigned.of_to i) as Hi.
  unfold Devices.str_of_nat, DecimalString.NilZero.string_of_uint.
  unfold Nat.of_uint in Hi.
  destruct (Nat.to_uint i) as [| d | d | d | d | d | d | d | d | d | d];
    cbn [Nat.of_uint_acc] in Hi;
    [rewrite <- Hi; reflexivity | ..];
    cbn [DecimalString.NilEmpty.string_of_uint].
  - rewrite (py_int_digit "0"%char _ 0%nat eq_refl),
      (digits_value_digit "0"%char _ _ 0%nat _ eq_refl), digits_value_uint.
    rewrite <- Hi. reflexivity.
  - rewrite (py_int_digit "1"%char _ 1%nat eq_refl),
      (digits_value_digit "1"%char _ _ 1%nat _ eq_refl), digits_value_uint.
    rewrite <- Hi. reflexivity.
  - rewrite (py_int_digit "2"%char _ 2%nat eq_refl),
      (digits_value_digit "2"%char _ _ 2%nat _ eq_refl), digits_value_uint.
    rewrite <- Hi. reflexivity.
  - rewrite (py_int_digit "3"%char _ 3%nat eq_refl),
      (digits_value_digit "3"%char _ _ 3%nat _ eq_refl), digits_value_uint.
    rewrite <- Hi. reflexivity.
  - rewrite (py_int_digit "4"%char _ 4%nat eq_refl),
      (digits_value_digit "4"%char _ _ 4%nat _ eq_refl), digits_value_uint.
    rewrite <- Hi. reflexivity.
  - rewrite (py_int_digit "5"%char _ 5%nat eq_refl),
      (digits_value_digit "5"%char _ _ 5%nat _ eq_refl), digits_value_uint.
    rewrite <- Hi. reflexivity.
  - rewrite (py_int_digit "6"%char _ 6%nat eq_refl),
      (digits_value_digit "6"%char _ _ 6%nat _ eq_refl), digits_value_uint.
    rewrite <- Hi. reflexivity.
  - rewrite (py_int_digit "7"%char _ 7%nat eq_refl),
      (digits_value_digit "7"%char _ _ 7%nat _ eq_refl), digits_value_uint.
    rewrite <- Hi. reflexivity.
  - rewrite (py_int_digit "8"%char _ 8%nat eq_refl),
      (digits_value_digit "8"%char _ _ 8%nat _ eq_refl), digits_value_uint.
    rewrite <- Hi. reflexivity.
  - rewrite (py_int_digit "9"%char _ 9%nat eq_refl),
      (digits_value_digit "9"%char _ _ 9%nat _ eq_refl), digits_value_uint.
    rewrite <- Hi. reflexivity.
Qed.

Lemma contains_first (c : ascii) (s : string) :
  contains (String c "") (String c s) = true.
Proof.
  unfold contains. cbn [String.index String.prefix].
  destruct (ascii_dec c c) as [_ | Hne]; [| contradiction].
  destruct s; reflexivity.
Qed.

(** A label of [refresh_karaoke_devices] is read back as its index by
    [start_karaoke], whatever the device's name contains. *)
Lemma parse_device_label_of_device_label (i : nat) (name : string) :
  Devices.parse_device_label (Devices.device_label i name)
  = Ok (Some (Z.of_nat i)).
Proof.
  unfold Devices.device_label.
  set (tail := (Devices.str_of_nat i ++ "] " ++ name)%string).
  change ("[" ++ tail)%string with (String "[" tail).
  unfold Devices.parse_device_label.
  rewrite contains_first.
  change (String.eqb (String "[" tail) Devices.default_device) with false.
  cbn [negb andb].
  cbn [Devices.py_split].
  change (Ascii.eqb "[" "[") with true. cbv iota.
  rewrite (py_split_first_field "[" tail). cbn [nth_error].
  rewrite py_split_first_field.
  subst tail.
  rewrite first_field_str_of_nat by (left; reflexivity).
  change ("] " ++ name)%string with (String "]" (String " " name)).
  rewrite first_field_cons. change (Ascii.eqb "]" "[") with false. cbv iota.
  rewrite first_field_str_of_nat by (right; reflexivity).
  rewrite first_field_cons. change (Ascii.eqb "]" "]") with true. cbv iota.
  rewrite string_app_nil_r, py_int_str_of_nat. reflexivity.
Qed.

Lemma labels_from_sound (channels : Devices.device -> Z)
    (devices : list Devices.device) :
  forall i label,
    In label (Devices.labels_from channels i devices) ->
    exists j dev,
      nth_error devices j = Some dev
      /\ (channels dev > 0)%Z
      /\ label = Devices.device_label (i + j) (Devices.dev_name dev).
Proof.
  induction devices as [| dev rest IH]; intros i label Hin;
    cbn [Devices.labels_from] in Hin; [contradiction |].
  destruct (Z.gtb_spec (channels dev) 0) as [Hpos | Hnot].
  - destruct Hin as [<- | Hin].
    + exists 0%nat, dev. rewrite Nat.add_0_r.
      refine (conj eq_refl (conj _ eq_refl)). lia.
    + destruct (IH _ _ Hin) as (j & dev' & Hnth & Hch & ->).
      exists (S j), dev'. rewrite Nat.add_succ_r.
      exact (conj Hnth (conj Hch eq_refl)).
  - destruct (IH _ _ Hin) as (j & dev' & Hnth & Hch & ->).
    exists (S j), dev'. rewrite Nat.add_succ_r.
    exact (conj Hnth (conj Hch eq_refl)).
Qed.

Lemma labels_from_complete (channels : Devices.device -> Z)
    (devices : list Devices.device) :
  forall i j dev,
    nth_error devices j = Some dev ->
    (channels dev > 0)%Z ->
    In (Devices.device_label (i + j) (Devices.dev_name dev))
       (Devices.labels_from channels i devices).
Proof.
  induction devices as [| dev0 rest IH]; intros i j dev Hnth Hch;
    [destruct j; discriminate Hnth |].
  cbn [Devices.labels_from].
  destruct j as [| j]; cbn [nth_error] in Hnth.
  - injection Hnth as ->. rewrite Nat.add_0_r.
    destruct (Z.gtb_spec (channels dev) 0) as [_ | Hnot]; [| lia].
    left. reflexivity.
  - rewrite Nat.add_succ_r.
    destruct (Z.gtb_spec (channels dev0) 0) as [_ | _];
      [right |]; exact (IH (S i) j dev Hnth Hch).
Qed.

(** What a menu of [refresh_karaoke_devices] holds and how
    [start_karaoke] reads a selection from it. *)
Lemma menu_selection (channels : Devices.device -> Z)
    (devices : list Devices.device) (label : string) :
  In label (Devices.default_device :: Devices.labels_from channels 0 devices) ->
  (label = Devices.default_device
   /\ Devices.parse_device_label label = Ok None)
  \/ (exists i dev,
        nth_error devices i = Some dev
        /\ (channels dev > 0)%Z
        /\ label = Devices.device_label i (Devices.dev_name dev)
        /\ Devices.parse_device_label label = Ok (Some (Z.of_nat i))).
Proof.
  intros [<- | Hin].
  - left. split; reflexivity.
  - right. destruct (labels_from_sound _ _ _ _ Hin) as (j & dev & Hnth & Hch & ->).
    exists j, dev. cbn [Nat.add].
    refine (conj Hnth (conj Hch (conj eq_refl _))).
    apply parse_device_label_of_device_label.
Qed.

(** X21.  Every entry of the microphone menu and of the speaker menu
    that [refresh_karaoke_devices] builds is read by [start_karaoke]
    without an error: the default entry as no device id, every other entry
    as the index, in [sd.query_devices()], of a device that has channels
    of the menu's direction and whose label the entry is; and every
    device with such channels has its label in the menu. *)
Theorem device_menu_selection_parses (devices : list Devices.device) :
  (forall label,
     In label (Devices.mic_devices devices) ->
     (label = Devices.default_device
      /\ Devices.parse_device_label label = Ok None)
     \/ (exists i dev,
           nth_error devices i = Some dev
           /\ (Devices.max_input_channels dev > 0)%Z
           /\ label = Devices.device_label i (Devices.dev_name dev)
           /\ Devices.parse_device_label label = Ok (Some (Z.of_nat i))))
  /\ (forall label,
        In label (Devices.speaker_devices devices) ->
        (label = Devices.default_device
         /\ Devices.parse_device_label label = Ok None)
        \/ (exists i dev,
              nth_error devices i = Some dev
              /\ (Devices.max_output_channels dev > 0)%Z
              /\ label = Devices.device_label i (Devices.dev_name dev)
              /\ Devices.parse_device_label label = Ok (Some (Z.of_nat i))))
  /\ (forall i dev,
        nth_error devices i = Some dev ->
        ((Devices.max_input_channels dev > 0)%Z ->
         In (Devices.device_label i (Devices.dev_name dev))
            (Devices.mic_devices devices))
        /\ ((Devices.max_output_channels dev > 0)%Z ->
            In (Devices.device_label i (Devices.dev_name dev))
               (Devices.speaker_devices devices))).
Proof.
  split; [| split].
  - intros label. apply menu_selection.
  - intros label. apply menu_selection.
  - intros i dev Hnth. split; intros Hch; right.
    + exact (labels_from_complete Devices.max_input_channels devices 0 i dev
               Hnth Hch).
    + exact (labels_from_complete Devices.max_output_channels devices 0 i dev
               Hnth Hch).
Qed.

Lemma device_menu_selection_parses_witness :
  let devices :=
    [ Devices.mk_device "Built-in Microphone" 2 0;
      Devices.mk_device "Speakers [USB]" 0 2 ] in
  In "[1] Speakers [USB]"%string (Devices.speaker_devices devices)
  /\ (("[1] Speakers [USB]"%string = Devices.default_device
       /\ Devices.parse_device_label "[1] Speakers [USB]" = Ok None)
      \/ (exists i dev,
            nth_error devices i = Some dev
            /\ (Devices.max_output_channels dev > 0)%Z
            /\ "[1] Speakers [USB]"%string
               = Devices.device_label i (Devices.dev_name dev)
            /\ Devices.parse_device_label "[1] Speakers [USB]"
               = Ok (Some (Z.of_nat i)))).
Proof.
  intros devices.
  assert (Hin : In "[1] Speakers [USB]"%string
                  (Devices.speaker_devices devices))
    by (right; left; reflexivity).
  split; [exact Hin |].
  exact (proj1 (proj2 (device_menu_selection_parses devices)) _ Hin).
Defined.


(** ** The waveform *)

Lemma fold_left_Rmax_bound (l : list R) :
  forall a,
    a <= fold_left Rmax l a /\ forall y, In y l -> y <= fold_left Rmax l a.
Proof.
  induction l as [| x l IH]; intros a; cbn [fold_left].
  - split; [lra | intros y []].
  - destruct (IH (Rmax a x)) as [H1 H2].
    pose proof (Rmax_l a x). pose proof (Rmax_r a x).
    split; [lra |]. intros y [<- | Hy]; [lra | apply H2, Hy].
Qed.

Lemma np_max_abs_bound (x : R) (rest : list R) :
  exists m,
    Waveform.np_max_abs (x :: rest) = Ok m
    /\ 0 <= m
    /\ forall y, In y (x :: rest) -> Rabs y <= m.
Proof.
  eexists. split; [reflexivity |].
  destruct (fold_left_Rmax_bound (map Rabs rest) (Rabs x)) as [H1 H2].
  pose proof (Rabs_pos x).
  split; [lra |]. intros y [<- | Hy]; [exact H1 |].
  apply H2, in_map, Hy.
Qed.

Lemma py_max_list_bound (rest : list R) :
  forall x,
    x <= Waveform.py_max_list x rest
    /\ forall y, In y rest -> y <= Waveform.py_max_list x rest.
Proof.
  unfold Waveform.py_max_list.
  induction rest as [| a rest IH]; intros x; cbn [fold_left].
  - split; [lra | intros y []].
  - destruct (IH (py_max x a)) as [H1 H2].
    rewrite py_max_spec in *.
    pose proof (Rmax_l x a). pose proof (Rmax_r x a).
    split; [lra |]. intros y [<- | Hy]; [lra | apply H2, Hy].
Qed.

Lemma waveform_data_len (a : audio) :
  py_len (Waveform.waveform_data a) = audio_len a.
Proof.
  destruct a as [l | b]; cbn [Waveform.waveform_data audio_len];
    [reflexivity |].
  unfold py_len. now rewrite length_map.
Qed.

(** The downsampling loop returns, with one non-negative maximum for every
    chunk that is not empty. *)
Lemma downsample_ok (data : list R) (spp : Z) (starts : list Z) :
  exists l,
    Waveform.downsample data spp starts = Ok l
    /\ Forall (fun m => 0 <= m) l
    /\ (Z.of_nat (length l) <= Z.of_nat (length starts))%Z
    /\ forall i x,
         In i starts -> In x (py_slice data i (i + spp)) ->
         exists m, In m l /\ Rabs x <= m.
Proof.
  induction starts as [| i rest (l & Hl & Hpos & Hlen & Hcov)];
    cbn [Waveform.downsample].
  - exists []. split; [reflexivity |]. split; [constructor |].
    split; [cbn; lia |]. intros i x [].
  - destruct (py_slice data i (i + spp)) as [| c chunk] eqn:Hchunk.
    + destruct (Z.gtb_spec (py_len (@nil R)) 0) as [H | _];
        [unfold py_len in H; cbn in H; lia |].
      exists l. split; [exact Hl |]. split; [exact Hpos |].
      split; [cbn [length]; lia |].
      intros j x [<- | Hj] Hx.
      * rewrite Hchunk in Hx. contradiction.
      * exact (Hcov j x Hj Hx).
    + destruct (Z.gtb_spec (py_len (c :: chunk)) 0) as [_ | H];
        [| unfold py_len in H; cbn [length] in H; lia].
      destruct (np_max_abs_bound c chunk) as (m & Hm & Hm0 & Hmb).
      rewrite Hm. cbn [bind]. rewrite Hl. cbn [bind].
      exists (m :: l). split; [reflexivity |].
      split; [constructor; assumption |].
      split; [cbn [length]; lia |].
      intros j x [<- | Hj] Hx.
      * rewrite Hchunk in Hx. exists m. split; [left; reflexivity |].
        apply Hmb, Hx.
      * destruct (Hcov j x Hj Hx) as (m' & Hin & Hle).
        exists m'. split; [right; exact Hin | exact Hle].
Qed.

(** Every sample lies in one of the chunks of the loop. *)
Lemma py_slice_covers (data : list R) (spp : Z) (k : nat) (x : R) :
  (1 <= spp)%Z ->
  nth_error data k = Some x ->
  exists i,
    In i (Waveform.py_range (py_len data) spp)
    /\ In x (py_slice data i (i + spp)).
Proof.
  intros Hspp Hk.
  assert (Hlt : (k < length data)%nat)
    by (apply nth_error_Some; congruence).
  set (q := (Z.of_nat k / spp)%Z).
  assert (Hq0 : (0 <= q)%Z) by (apply Z.div_pos; lia).
  assert (Hq1 : (spp * q <= Z.of_nat k)%Z) by (apply Z.mul_div_le; lia).
  assert (Hq2 : (Z.of_nat k < spp * Z.succ q)%Z)
    by (apply Z.mul_succ_div_gt; lia).
  assert (Hi : (q * spp = spp * q)%Z) by ring.
  assert (Hs : (spp * Z.succ q = spp * q + spp)%Z) by ring.
  exists (q * spp)%Z. split.
  - unfold Waveform.py_range. apply in_map_iff.
    exists (Z.to_nat q). split; [rewrite Z2Nat.id by lia; reflexivity |].
    apply in_seq. split; [lia |]. cbn [Nat.add].
    apply Z2Nat.inj_lt; [lia | |].
    + apply Z.div_pos; unfold py_len; lia.
    + apply Z.lt_le_trans with (q + 1)%Z; [lia |].
      apply Z.div_le_lower_bound; [lia |]. unfold py_len. lia.
  - unfold py_slice, slice_index.
    destruct (Z.ltb_spec (q * spp) 0) as [H | _]; [lia |].
    destruct (Z.ltb_spec (q * spp + spp) 0) as [H | _]; [lia |].
    apply nth_error_In with (n := (k - Z.to_nat (q * spp))%nat).
    rewrite nth_error_firstn.
    destruct (Nat.ltb_spec (k - Z.to_nat (q * spp))
                (Z.to_nat (Z.min (q * spp + spp) (py_len data)
                           - Z.min (q * spp) (py_len data)))) as [_ | H].
    + rewrite nth_error_skipn.
      replace (Z.to_nat (Z.min (q * spp) (py_len data))
               + (k - Z.to_nat (q * spp)))%nat with k
        by (unfold py_len; lia).
      exact Hk.
    + unfold py_len in H. lia.
Qed.

(** The bar loop on amplitudes between zero and a positive maximum. *)
Lemma draw_bars_ok (width height position len : Z) (mid_y max_amplitude : R) :
  (0 < width)%Z -> (0 <= height)%Z -> len <> 0%Z -> 0 < max_amplitude ->
  forall downsampled i,
    Forall (fun a => 0 <= a <= max_amplitude) downsampled ->
    exists bars,
      Waveform.draw_bars width height position len mid_y max_amplitude i
        downsampled = Waveform.Drawn bars
      /\ (Z.of_nat (length bars) <= Z.max 0 (width - i))%Z
      /\ forall k item,
           nth_error bars k = Some item ->
           exists n,
             item
             = VUDraw.CreateLine (IZR (i + Z.of_nat k)) (mid_y - n)
                 (IZR (i + Z.of_nat k)) (mid_y + n)
                 (if Rle_dec (IZR (i + Z.of_nat k) / IZR width)
                             (IZR position / IZR len)
                  then Waveform.waveform_progress else Waveform.waveform) 1
             /\ 0 <= n <= 0.4 * IZR height.
Proof.
  intros Hwidth Hheight Hlen Hmax.
  induction downsampled as [| a rest IH]; intros i Hall;
    cbn [Waveform.draw_bars].
  - exists []. split; [reflexivity |]. split; [cbn [length]; lia |].
    intros [| k] item H; discriminate H.
  - destruct (i >=? width)%Z eqn:Hge.
    + exists []. split; [reflexivity |]. split; [cbn [length]; lia |].
      intros [| k] item H; discriminate H.
    + assert (Hi : (i < width)%Z).
      { destruct (Z.lt_ge_cases i width) as [H | H]; [exact H |].
        apply Z.geb_le in H. congruence. }
      destruct (Req_dec_T max_amplitude 0) as [H0 | _]; [lra |].
      destruct (Z.eqb_spec len 0) as [H0 | _]; [contradiction |].
      destruct (Z.eqb_spec width 0) as [H0 | _]; [lia |].
      inversion Hall as [| a' rest' Ha Hrest]; subst.
      destruct (IH (i + 1)%Z Hrest) as (bars & Hb & Hlenb & Hitems).
      rewrite Hb. eexists. split; [reflexivity |].
      split; [cbn [length]; lia |].
      intros [| k] item Hk; cbn [nth_error] in Hk.
      * injection Hk as <-. change (Z.of_nat 0) with 0%Z.
        rewrite Z.add_0_r.
        exists (a / max_amplitude * (IZR height * 0.4)).
        split; [reflexivity |].
        assert (Hh : 0 <= IZR height) by (apply IZR_le; exact Hheight).
        assert (Hr : 0 <= a / max_amplitude <= 1).
        { split.
          - apply Rmult_le_pos; [lra |].
            left. apply Rinv_0_lt_compat. lra.
          - apply Rmult_le_reg_r with max_amplitude; [lra |].
            unfold Rdiv. rewrite Rmult_assoc, Rinv_l by lra. lra. }
        split; nra.
      * destruct (Hitems k item Hk) as (n & Hitem & Hn).
        exists n.
        replace (i + Z.of_nat (S k))%Z with (i + 1 + Z.of_nat k)%Z by lia.
        split; [exact Hitem | exact Hn].
Qed.

(** The playhead of a position on the track is on the canvas. *)
Lemma playhead_on_canvas (position len width : Z) :
  (0 <= position <= len)%Z -> (0 < len)%Z -> (0 <= width)%Z ->
  (0 <= py_trunc (IZR position / IZR len * IZR width) <= width)%Z.
Proof.
  intros [Hp0 Hp1] Hlen Hwidth.
  assert (Hl : 0 < IZR len) by (apply (IZR_lt 0); exact Hlen).
  assert (Hw : 0 <= IZR width) by (apply (IZR_le 0); exact Hwidth).
  assert (Hp : 0 <= IZR position <= IZR len)
    by (split; [apply (IZR_le 0) | apply IZR_le]; assumption).
  assert (Hr : 0 <= IZR position / IZR len <= 1).
  { split.
    - apply Rmult_le_pos; [lra |]. left. apply Rinv_0_lt_compat. lra.
    - apply Rmult_le_reg_r with (IZR len); [lra |].
      unfold Rdiv. rewrite Rmult_assoc, Rinv_l by lra. lra. }
  assert (Hx : 0 <= IZR position / IZR len * IZR width <= IZR width)
    by (split; nra).
  rewrite py_trunc_nonneg by lra.
  split.
  - apply (Zfloor_lub 0). cbn. lra.
  - apply le_IZR.
    pose proof (Zfloor_bound (IZR position / IZR len * IZR width)) as [Hlo _].
    lra.
Qed.

(** X22.  On a canvas at least ten pixels wide, for a track with a sample
    that is not zero and a position on the track, [draw_waveform] returns
    after drawing at most [width] bars and then the playhead: bar [k] is a
    vertical line at [x = k], centred on the middle of the canvas and
    reaching at most 40 % of the height to either side, in the progress
    colour exactly when [k / width] is at most the played fraction; the
    playhead is a vertical line over the full height at an [x] between 0
    and [width]. *)
Theorem draw_waveform_stays_on_canvas
    (width height : Z) (self : KaraokePlayer.t) :
  (10 <= width)%Z ->
  (0 <= height)%Z ->
  (0 <= KaraokePlayer.current_position self
     <= audio_len (KaraokePlayer.backing_audio self))%Z ->
  (exists x,
     In x (Waveform.waveform_data (KaraokePlayer.backing_audio self))
     /\ x <> 0) ->
  exists bars playhead_x,
    Waveform.draw_waveform width height self
    = Waveform.Drawn
        (bars ++ [VUDraw.CreateLine (IZR playhead_x) 0 (IZR playhead_x)
                    (IZR height) Waveform.accent_bright 3])
    /\ (0 <= playhead_x <= width)%Z
    /\ (Z.of_nat (length bars) <= width)%Z
    /\ forall k item,
         nth_error bars k = Some item ->
         exists n,
           item
           = VUDraw.CreateLine (IZR (Z.of_nat k)) (IZR height / 2 - n)
               (IZR (Z.of_nat k)) (IZR height / 2 + n)
               (if Rle_dec
                     (IZR (Z.of_nat k) / IZR width)
                     (IZR (KaraokePlayer.current_position self)
                      / IZR (audio_len (KaraokePlayer.backing_audio self)))
                then Waveform.waveform_progress else Waveform.waveform) 1
           /\ 0 <= n <= 0.4 * IZR height.
Proof.
  intros Hwidth Hheight Hpos (x & Hx & Hx0).
  unfold Waveform.draw_waveform.
  destruct (Z.ltb_spec width 10) as [H | _]; [lia |].
  set (data := Waveform.waveform_data (KaraokePlayer.backing_audio self)) in *.
  set (spp := if (py_len data / width <? 1)%Z then 1%Z
              else (py_len data / width)%Z).
  assert (Hspp : (1 <= spp)%Z).
  { subst spp. destruct (Z.ltb_spec (py_len data / width) 1); lia. }
  destruct (downsample_ok data spp (Waveform.py_range (py_len data) spp))
    as (l & Hl & Hnonneg & _ & Hcov).
  rewrite Hl.
  destruct (In_nth_error _ _ Hx) as (k & Hk).
  destruct (py_slice_covers data spp k x Hspp Hk) as (i & Hi & Hin).
  destruct (Hcov i x Hi Hin) as (m & Hm & Hxm).
  assert (Hlen : (0 < audio_len (KaraokePlayer.backing_audio self))%Z).
  { rewrite <- waveform_data_len. fold data. unfold py_len.
    destruct data; [contradiction | cbn [length]; lia]. }
  destruct l as [| y rest]; [contradiction |].
  destruct (py_max_list_bound rest y) as [Hy Hrest].
  assert (Hm' : m <= Waveform.py_max_list y rest).
  { destruct Hm as [<- | Hm]; [exact Hy | apply Hrest, Hm]. }
  assert (Hmax : 0 < Waveform.py_max_list y rest).
  { pose proof (Rabs_pos_lt x Hx0). lra. }
  assert (Hall : Forall (fun a => 0 <= a <= Waveform.py_max_list y rest)
                   (y :: rest)).
  { rewrite Forall_forall in Hnonneg |- *. intros a Ha.
    split; [apply Hnonneg, Ha |].
    destruct Ha as [<- | Ha]; [exact Hy | apply Hrest, Ha]. }
  destruct (draw_bars_ok width height
              (KaraokePlayer.current_position self)
              (audio_len (KaraokePlayer.backing_audio self))
              (IZR height / 2) (Waveform.py_max_list y rest)
              ltac:(lia) Hheight ltac:(lia) Hmax (y :: rest) 0%Z Hall)
    as (bars & Hbars & Hcount & Hitems).
  rewrite Hbars.
  destruct (Z.eqb_spec (audio_len (KaraokePlayer.backing_audio self)) 0)
    as [H | _]; [lia |].
  exists bars. eexists. split; [reflexivity |].
  split; [apply playhead_on_canvas; lia |].
  split; [lia |].
  intros j item Hj. destruct (Hitems j item Hj) as (n & Hitem & Hn).
  exists n. rewrite Z.add_0_l in Hitem. split; [exact Hitem | exact Hn].
Qed.

Lemma draw_waveform_stays_on_canvas_witness :
  let self := KaraokePlayer.init (Mono [0.5; -0.25]) 44100 in
  exists bars playhead_x,
    Waveform.draw_waveform 10 200 self
    = Waveform.Drawn
        (bars ++ [VUDraw.CreateLine (IZR playhead_x) 0 (IZR playhead_x)
                    (IZR 200) Waveform.accent_bright 3])
    /\ (0 <= playhead_x <= 10)%Z
    /\ (Z.of_nat (length bars) <= 10)%Z.
Proof.
  intros self.
  destruct (draw_waveform_stays_on_canvas 10 200 self)
    as (bars & x & Hdraw & Hx & Hcount & _).
  - lia.
  - lia.
  - cbn. lia.
  - exists 0.5. split; [left; reflexivity | lra].
  - exists bars, x. exact (conj Hdraw (conj Hx Hcount)).
Defined.

(** X23.  For a track without frames, [draw_waveform] on a canvas at
    least ten pixels wide raises [ZeroDivisionError] when it comes to the
    playhead, whatever the position; on a narrower canvas it only
    schedules itself again. *)
Theorem draw_waveform_empty_track_raises
    (width height : Z) (self : KaraokePlayer.t) :
  audio_len (KaraokePlayer.backing_audio self) = 0%Z ->
  Waveform.draw_waveform width height self
  = if (width <? 10)%Z then Waveform.Retry
    else Waveform.Failed ZeroDivisionError.
Proof.
  intros Hlen. unfold Waveform.draw_waveform.
  destruct (Z.ltb_spec width 10) as [_ | Hwidth]; [reflexivity |].
  assert (Hdata :
    Waveform.waveform_data (KaraokePlayer.backing_audio self) = []).
  { pose proof (waveform_data_len (KaraokePlayer.backing_audio self)) as H.
    rewrite Hlen in H. unfold py_len in H.
    destruct (Waveform.waveform_data (KaraokePlayer.backing_audio self));
      [reflexivity | cbn [length] in H; lia]. }
  rewrite Hdata, Hlen.
  change (py_len (@nil R)) with 0%Z. rewrite Z.div_0_l by lia.
  reflexivity.
Qed.

Lemma draw_waveform_empty_track_raises_witness :
  Waveform.draw_waveform 400 200 (KaraokePlayer.init (Stereo []) 44100)
  = Waveform.Failed ZeroDivisionError.
Proof.
  exact (draw_waveform_empty_track_raises 400 200
           (KaraokePlayer.init (Stereo []) 44100) eq_refl).
Defined.
